(** * Veritas Swarm: the demo simulation and the on-chain oracle

    A shallow embedding of
      - [mockSimulation] of veritas-swarm-ui/src/App.tsx (the run that the
        UI performs in mock mode: ballots, snapshots, final verdict),
      - the helpers of the UI around it (quality score, evidence list,
        heatmap, event stream),
      - [normalApproxCI] and the vote draw of the earlier demo App,
      - the [VeritasOracle] Solidity contract.

    Conventions.  [Math.random] is the engine's ambient random source: it
    is modelled as a stream of successive return values together with the
    number of values consumed so far; it is not an argument of any
    function of the program.  The [setInterval] timer is modelled by
    [fire n]: the callback fires up to [n] times and stops firing once
    [clearInterval] has been called, by the callback itself or through the
    function [mockSimulation] returns ([dispose]).  [allBallots] is one
    array shared by the closure and the final record; nothing is pushed to
    it after the record is built.

    Numbers.  The simulation is embedded twice.  The first embedding
    idealises JavaScript numbers: a number is an exact rational ([Q]) and
    [Math.sqrt] is taken in the reals ([R]); it carries the statements that
    do not depend on rounding (order and shape of the ballots, counts,
    ranges that rounding preserves).  The second embedding, module
    [Rounded], computes with the numbers of the engine, IEEE 754 binary64
    ([float], module [F64]): every product, quotient and comparison is the
    rounded one.  It carries the statements about the values the run
    reports. *)

From Stdlib Require Import Floats.
From Stdlib Require Import String Ascii Bool Arith ZArith NArith Lia List.
From Stdlib Require Import QArith Qround Qminmax Qreals Qabs.
From Stdlib Require Import Reals Lra.
Import ListNotations.

Set Warnings "-inexact-float".

Local Open Scope nat_scope.

(* ===================================================================== *)
(** ** Data model (App.tsx, lines 6-48)                                    *)
(* ===================================================================== *)

Record EvidenceItem := mkEvidenceItem {
  id : Z;
  url : string;
  snippet : string;
  quality_score : float;
  timestamp : string
}.

Inductive Vote := YES | NO | NULL.

Definition Vote_eqb (a b : Vote) : bool :=
  match a, b with
  | YES, YES | NO, NO | NULL, NULL => true
  | _, _ => false
  end.

Record RubricScores := mkRubricScores {
  evidence_quality : Q;
  claim_specificity : Q;
  source_reliability : Q
}.

(** [archetype] is the result of an array read, which is [undefined] (here
    [None]) outside the array. *)
Record Ballot := mkBallot {
  iteration : nat;
  archetype : option string;
  model : string;
  vote : Vote;
  supporting_evidence_ids : list Z;
  refuting_evidence_ids : list Z;
  rubric_scores : RubricScores;
  reasoning : string
}.

Record ConvergencePoint := mkConvergencePoint {
  cp_iteration : nat;
  cp_p_yes : Q;
  cp_p_no : Q;
  cp_p_null : Q
}.

(** The object literal of [credible_intervals_95]: one pair per key. *)
Record Intervals := mkIntervals {
  ci_YES : R * R;
  ci_NO : R * R;
  ci_NULL : R * R
}.

Record VerdictDistribution := mkVerdictDistribution {
  question : string;
  p_yes : Q;
  p_no : Q;
  p_null : Q;
  num_iterations : nat;
  committee_size : nat;
  converged_at_iteration : option nat;
  credible_intervals_95 : Intervals;
  entropy : Q;
  fleiss_kappa : Q;
  effective_sample_size : nat;
  ballots : list Ballot;
  convergence : list ConvergencePoint
}.

Definition interval_of (k : Vote) (i : Intervals) : R * R :=
  match k with
  | YES => ci_YES i
  | NO => ci_NO i
  | NULL => ci_NULL i
  end.

Definition prob_of (k : Vote) (v : VerdictDistribution) : Q :=
  match k with
  | YES => p_yes v
  | NO => p_no v
  | NULL => p_null v
  end.

Definition cp_prob_of (k : Vote) (c : ConvergencePoint) : Q :=
  match k with
  | YES => cp_p_yes c
  | NO => cp_p_no c
  | NULL => cp_p_null c
  end.

(* ===================================================================== *)
(** ** Numeric helpers of the idealised embedding                         *)
(* ===================================================================== *)

(** [x < y] on JavaScript numbers. *)
Definition Qltb (x y : Q) : bool :=
  (Qnum x * Zpos (Qden y) <? Qnum y * Zpos (Qden x))%Z.

(** [clamp01] (App.tsx, lines 50-52), on the reals where the interval code
    uses it. *)
Definition clamp01 (x : R) : R := Rmax 0 (Rmin 1 x).

(** [+(x).toFixed(2)] on an exact number: the nearest multiple of 1/100,
    ties upwards.  (The engine applies it to the rounded number, which can
    fall on the other side of a tie: [F64.toFixed2].) *)
Definition toFixed2 (x : Q) : Q :=
  (Qfloor (x * 100 + (1 # 2)) # 100)%Q.

(** [arr[Math.floor(x)]] on an exact number: [undefined] outside the
    array.  (The engine takes the floor of a rounded product:
    [F64.index_floor].) *)
Definition index_floor {A : Type} (arr : list A) (x : Q) : option A :=
  let i := Qfloor x in
  if (i <? 0)%Z then None else nth_error arr (Z.to_nat i).

(** [ids.slice(a, b)] for [0 <= a <= b]. *)
Definition slice {A : Type} (a b : nat) (l : list A) : list A :=
  firstn (b - a) (skipn a l).

(** [allBallots.filter((b) => b.vote === k).length] *)
Definition count_vote (k : Vote) (bs : list Ballot) : nat :=
  length (filter (fun b => Vote_eqb (vote b) k) bs).

Definition num (n : nat) : Q := inject_Z (Z.of_nat n).

(** [count / total] of lines 112-114 as the exact share.  (The engine's
    quotient is the rounded one: [Rounded.share].) *)
Definition share (k : Vote) (bs : list Ballot) : Q :=
  (num (count_vote k bs) / num (length bs))%Q.

(* ===================================================================== *)
(** ** The numbers of the engine: IEEE 754 binary64                       *)
(* ===================================================================== *)

(** A JavaScript number is a [float]; [+], [-], [*], [/], [Math.sqrt] and
    the comparisons are the primitive operations, rounded to nearest with
    ties to even; a decimal literal denotes the nearest number. *)
Module F64.

Local Open Scope float_scope.

(** An integer of the program (an array length, a count) as a number;
    exact below [2^53]. *)
Definition of_Z (z : Z) : float := PrimFloat.of_uint63 (Uint63.of_Z z).

Definition of_nat (n : nat) : float := of_Z (Z.of_nat n).

(** The exact value of a finite number: [m * 2^e] with its sign. *)
Definition to_Q (x : float) : Q :=
  match Prim2SF x with
  | S754_finite s m e =>
      let v := if s then Z.neg m else Z.pos m in
      if (0 <=? e)%Z then inject_Z (v * 2 ^ e)
      else Qmake v (2 ^ Z.to_pos (- e))
  | _ => 0%Q
  end.

(** [Math.floor(x)] as an integer; none for NaN and the infinities. *)
Definition floor_Z (x : float) : option Z :=
  match Prim2SF x with
  | S754_zero _ => Some 0%Z
  | S754_finite s m e =>
      let v := if s then Z.neg m else Z.pos m in
      Some (if (0 <=? e)%Z then v * 2 ^ e else v / 2 ^ (- e))%Z
  | _ => None
  end.

(** [arr[Math.floor(x)]]: [undefined] (here [None]) outside the array. *)
Definition index_floor {A : Type} (arr : list A) (x : float) : option A :=
  match floor_Z x with
  | Some i => if (i <? 0)%Z then None else nth_error arr (Z.to_nat i)
  | None => None
  end.

(** [Math.min(a, b)] and [Math.max(a, b)]: NaN if an argument is NaN, and
    [-0] is below [+0]. *)
Definition Math_min (a b : float) : float :=
  if is_nan a || is_nan b then nan
  else if a <? b then a
  else if b <? a then b
  else if get_sign a then a else b.

Definition Math_max (a b : float) : float :=
  if is_nan a || is_nan b then nan
  else if a <? b then b
  else if b <? a then a
  else if get_sign a then b else a.

(** [clamp01] (App.tsx, lines 50-52). *)
Definition clamp01 (x : float) : float := Math_max 0 (Math_min 1 x).

(** [+(x).toFixed(2)] for a finite [x] with [|x| * 100 < 2^53]:
    [toFixed] takes the integer [n] nearest to the exact value of
    [|x| * 100], the larger one at a tie, and prints [n / 100] with the sign
    of [x]; the unary plus reads that numeral back as the nearest number,
    which is the rounded quotient of [n] by 100. *)
Definition toFixed2 (x : float) : float :=
  let n := Qfloor (to_Q (abs x) * 100 + (1 # 2)) in
  let y := of_Z n / 100 in
  if x <? 0 then - y else y.

(** The number nearest to the integer [z] (below [2^1024] in absolute
    value), ties to even: 53 significant bits are kept, so [z] itself up to
    [2^53]. *)
Definition round_Z (z : Z) : Z :=
  let a := Z.abs z in
  let e := (Z.log2 a - 52)%Z in
  if (e <=? 0)%Z then z
  else
    let u := (2 ^ e)%Z in
    let q := (a / u)%Z in
    let r := (a mod u)%Z in
    let q' := if (2 * r <? u)%Z then q
              else if (u <? 2 * r)%Z then (q + 1)%Z
              else if Z.even q then q else (q + 1)%Z in
    (Z.sgn z * (q' * u))%Z.

(** [0 <= x < 1], what [Math.random] guarantees about a value it
    returns. *)
Definition in_unit (x : float) : bool := (0 <=? x) && (x <? 1).

End F64.

(* ===================================================================== *)
(** ** The random source as threaded state                                *)
(* ===================================================================== *)

(** A computation that calls [Math.random]: from the number of values
    consumed so far to a result and the new number. *)
Definition Rand (A : Type) : Type := nat -> A * nat.

Definition ret {A : Type} (a : A) : Rand A := fun pos => (a, pos).

Definition bind {A B : Type} (c : Rand A) (f : A -> Rand B) : Rand B :=
  fun pos => let (a, pos') := c pos in f a pos'.

Declare Scope rand_scope.
Delimit Scope rand_scope with rand.
Notation "x <- c ;; k" := (bind c (fun x => k))
  (at level 61, c at next level, right associativity) : rand_scope.

(* ===================================================================== *)
(** ** mockSimulation on idealised numbers (App.tsx, lines 68-145)        *)
(* ===================================================================== *)

Definition MOCK_ARCHETYPES : list string :=
  ["strict_empiricist"; "permissive_interpreter"; "skeptic";
   "source_quality_hawk"; "contrarian"]%string.

Definition NUM_ITER : nat := 5.
Definition COMMITTEE : nat := 3.

Inductive Event :=
| OnSnapshot (snap : ConvergencePoint)
| OnVerdict (verdict : VerdictDistribution).

(** The variables of the closure: [iter], [allBallots], whether
    [clearInterval(interval)] has run, the calls made to the two callbacks
    (in order), and the number of [Math.random] values consumed. *)
Record Sim := mkSim {
  iter : nat;
  allBallots : list Ballot;
  cleared : bool;
  emitted : list Event;
  consumed : nat
}.

(** Line 87 with the exact thresholds 0.55 and 0.85.  (The engine compares
    with the numbers nearest to them: [Rounded.pick_vote].) *)
Definition pick_vote (r : Q) : Vote :=
  if Qltb r (55 # 100) then YES
  else if Qltb r (85 # 100) then NO
  else NULL.

Definition reasoning_of (v : Vote) : string :=
  match v with
  | YES => "Evidence supports the claim."
  | NO => "Evidence contradicts the claim."
  | NULL => "Insufficient evidence to decide."
  end%string.

(** The interval of lines 121-133 for one category. *)
Definition normal_interval (p : Q) (total : nat) : R * R :=
  let z := (196 / 100)%R in
  let se := sqrt ((Q2R p * (1 - Q2R p)) / INR total)%R in
  (clamp01 (Q2R p - z * se), clamp01 (Q2R p + z * se))%R.

(** Lines 111-116. *)
Definition snapshot_of (it : nat) (bs : list Ballot) : ConvergencePoint :=
  {| cp_iteration := it;
     cp_p_yes := share YES bs;
     cp_p_no := share NO bs;
     cp_p_null := share NULL bs |}.

Section MockSimulation.

Variable rng : nat -> Q.
Variable evidence : list EvidenceItem.
Variable the_question : string.

Definition random : Rand Q := fun pos => (rng pos, S pos).

Local Open Scope rand_scope.

(** The body of the [for] loop, up to the [push] (lines 85-108). *)
Definition draw_ballot (it : nat) : Rand Ballot :=
  r0 <- random ;;
  let arch := index_floor MOCK_ARCHETYPES (r0 * num (length MOCK_ARCHETYPES))%Q in
  r <- random ;;
  let v := pick_vote r in
  let ids := map id evidence in
  q1 <- random ;;
  q2 <- random ;;
  q3 <- random ;;
  ret {| iteration := it;
         archetype := arch;
         model := "mock-local";
         vote := v;
         supporting_evidence_ids := slice 0 2 ids;
         refuting_evidence_ids := slice 2 3 ids;
         rubric_scores :=
           {| evidence_quality := toFixed2 ((5 # 10) + q1 * (4 # 10))%Q;
              claim_specificity := toFixed2 ((4 # 10) + q2 * (4 # 10))%Q;
              source_reliability := toFixed2 ((5 # 10) + q3 * (3 # 10))%Q |};
         reasoning := reasoning_of v |}.

(** [for (let k = 0; k < COMMITTEE; k++) { ...; allBallots.push(...) }],
    with [n] the number of rounds still to do. *)
Fixpoint committee_loop (n : nat) (it : nat) (bs : list Ballot)
  : Rand (list Ballot) :=
  match n with
  | O => ret bs
  | S n' => b <- draw_ballot it ;; committee_loop n' it (bs ++ [b])
  end.

(** The object passed to [onVerdict] (lines 120-140). *)
Definition verdict_of (bs : list Ballot) : VerdictDistribution :=
  let total := length bs in
  {| question := the_question;
     p_yes := share YES bs;
     p_no := share NO bs;
     p_null := share NULL bs;
     num_iterations := NUM_ITER;
     committee_size := COMMITTEE;
     converged_at_iteration := None;
     credible_intervals_95 :=
       {| ci_YES := normal_interval (share YES bs) total;
          ci_NO := normal_interval (share NO bs) total;
          ci_NULL := normal_interval (share NULL bs) total |};
     entropy := 0;
     fleiss_kappa := 0;
     effective_sample_size := length bs;
     ballots := bs;
     convergence := [] |}.

(** One firing of the interval callback (lines 82-142). *)
Definition callback (s : Sim) : Sim :=
  let it := S (iter s) in
  let (bs, pos) := committee_loop COMMITTEE it (allBallots s) (consumed s) in
  let out := emitted s ++ [OnSnapshot (snapshot_of it bs)] in
  if NUM_ITER <=? it
  then {| iter := it; allBallots := bs; cleared := true;
          emitted := out ++ [OnVerdict (verdict_of bs)]; consumed := pos |}
  else {| iter := it; allBallots := bs; cleared := cleared s;
          emitted := out; consumed := pos |}.

(** State at the call of [setInterval]. *)
Definition start : Sim :=
  {| iter := 0; allBallots := []; cleared := false; emitted := [];
     consumed := 0 |}.

(** The timer: up to [n] firings, none after [clearInterval]. *)
Fixpoint fire (n : nat) (s : Sim) : Sim :=
  match n with
  | O => s
  | S n' => if cleared s then s else fire n' (callback s)
  end.

(** A run as the application starts it ([startRun] discards the value
    [mockSimulation] returns), observed after [n] timer periods. *)
Definition mockSimulation (n : nat) : Sim := fire n start.

(** The function [mockSimulation] returns (line 144):
    [() => clearInterval(interval)]. *)
Definition dispose (s : Sim) : Sim :=
  {| iter := iter s; allBallots := allBallots s; cleared := true;
     emitted := emitted s; consumed := consumed s |}.

(** What can happen to a started simulation: a timer period elapses, or
    the returned function is called. *)
Inductive Happening := Period | Dispose.

Definition step (s : Sim) (h : Happening) : Sim :=
  match h with
  | Period => fire 1 s
  | Dispose => dispose s
  end.

Definition schedule (hs : list Happening) : Sim := fold_left step hs start.

End MockSimulation.

(* ===================================================================== *)
(** ** Observations on a run                                              *)
(* ===================================================================== *)

(** The arguments of the [onSnapshot] calls, in order. *)
Definition snapshots_of (es : list Event) : list ConvergencePoint :=
  flat_map (fun e => match e with OnSnapshot c => [c] | OnVerdict _ => [] end) es.

(** The arguments of the [onVerdict] calls, in order. *)
Definition verdicts_of (es : list Event) : list VerdictDistribution :=
  flat_map (fun e => match e with OnSnapshot _ => [] | OnVerdict v => [v] end) es.

(** The ballots pushed during iteration [it]. *)
Definition committee_at (it : nat) (bs : list Ballot) : list Ballot :=
  filter (fun b => iteration b =? it) bs.

(** All members of iteration [it] cast the same vote. *)
Definition unanimous (it : nat) (bs : list Ballot) : bool :=
  match map vote (committee_at it bs) with
  | [] => true
  | v :: vs => forallb (Vote_eqb v) vs
  end.

(** What [Math.random] guarantees about each value it returns. *)
Definition random_ok (rng : nat -> Q) : Prop :=
  forall i, (0 <= rng i)%Q /\ (rng i < 1)%Q.

(** A random source whose vote draws (the second of the five values a
    ballot consumes) are the given numbers, every other value being 0. *)
Definition rng_of_vote_draws (rs : list Q) : nat -> Q :=
  fun i => if i mod 5 =? 1 then nth (i / 5) rs 0%Q else 0%Q.

(** Every value 0: every ballot is a YES of the first archetype. *)
Definition rng_zero : nat -> Q := fun _ => 0%Q.

(** Ballots [YES,NO,NULL] in each of the five iterations. *)
Definition rng_even : nat -> Q :=
  rng_of_vote_draws
    [(1 # 10); (6 # 10); (9 # 10); (1 # 10); (6 # 10); (9 # 10);
     (1 # 10); (6 # 10); (9 # 10); (1 # 10); (6 # 10); (9 # 10);
     (1 # 10); (6 # 10); (9 # 10)]%Q.

Definition no_evidence : list EvidenceItem := [].

(* ===================================================================== *)
(** ** The earlier demo App (unnamed/part_000, lines 16-630)              *)
(* ===================================================================== *)

Module Demo.

Record Archetype := mkArchetype {
  name : string;
  biasYes : Q;
  biasNull : Q
}.

(** Lines 156-164. *)
Definition archetypes : list Archetype :=
  [ {| name := "Strict Empiricist"; biasYes := (15 # 100); biasNull := - (5 # 100) |};
    {| name := "Skeptic"; biasYes := - (10 # 100); biasNull := (20 # 100) |};
    {| name := "Quantifier"; biasYes := (5 # 100); biasNull := - (2 # 100) |};
    {| name := "Contrarian"; biasYes := - (15 # 100); biasNull := - (5 # 100) |};
    {| name := "Source-Quality Hawk"; biasYes := (5 # 100); biasNull := (5 # 100) |};
    {| name := "Consensus-Seeker"; biasYes := (10 # 100); biasNull := - (3 # 100) |};
    {| name := "Methodologist"; biasYes := 0; biasNull := (10 # 100) |} ]%Q.

Definition NUM_ITERATIONS : nat := 50.
Definition COMMITTEE_SIZE : nat := 5.

(** Line 215, as a function of the value returned by [Math.random]; the
    product is the rounded one. *)
Definition pick_archetype (r : float) : option Archetype :=
  F64.index_floor archetypes (r * F64.of_nat (length archetypes))%float.

(** A value in the middle of the [j]-th seventh of the unit interval. *)
Definition draw_for (j : nat) : float :=
  (F64.of_nat (2 * j + 1) / 14)%float.

(** Lines 77-82; [n] is the ballot count the caller passes. *)
Definition normalApproxCI (p : Q) (n : Z) : R * R :=
  if (n <=? 0)%Z then (0, 0)%R
  else
    let z := (196 / 100)%R in
    let se := sqrt ((Q2R p * (1 - Q2R p)) / IZR n)%R in
    (clamp01 (Q2R p - z * se), clamp01 (Q2R p + z * se))%R.

End Demo.

(* ===================================================================== *)
(** ** What the specification describes, for comparison with the code    *)
(* ===================================================================== *)

Module Claimed.

(** Posterior mean of a Dirichlet(1,1,1) prior: [(n_k + 1) / (N + 3)]. *)
Definition posterior_mean (n_k N : nat) : Q :=
  (num (n_k + 1) / num (N + 3))%Q.

(** A Dirichlet draw: three Gamma draws normalised to sum to 1. *)
Definition normalise (g : R * R * R) : R * R * R :=
  let '(a, b, c) := g in
  (a / (a + b + c), b / (a + b + c), c / (a + b + c))%R.

Definition gamma_draw_ok (g : R * R * R) : Prop :=
  let '(a, b, c) := g in (0 < a /\ 0 < b /\ 0 < c)%R.

Definition component (k : Vote) (t : R * R * R) : R :=
  let '(a, b, c) := t in
  match k with YES => a | NO => b | NULL => c end.

(** An empirical percentile of a sample lies between its smallest and its
    largest element, whichever interpolation rule is used. *)
Definition within_sample_range (xs : list R) (v : R) : Prop :=
  (exists x, In x xs /\ (x <= v)%R) /\ (exists y, In y xs /\ (v <= y)%R).

(** [I] can be a percentile interval of category [k] over the Dirichlet
    draws obtained from the Gamma draws [gs]. *)
Definition percentile_interval (k : Vote) (gs : list (R * R * R)) (I : R * R)
  : Prop :=
  gs <> [] /\ Forall gamma_draw_ok gs /\
  within_sample_range (map (fun g => component k (normalise g)) gs) (fst I) /\
  within_sample_range (map (fun g => component k (normalise g)) gs) (snd I).

(** Convergence detector of the specification. *)
Definition log2 (x : R) : R := (ln x / ln 2)%R.

Definition D_KL (P P' : R * R * R) : R :=
  let '(a, b, c) := P in
  let '(a', b', c') := P' in
  (a * log2 (a / a') + b * log2 (b / b') + c * log2 (c / c'))%R.

(** Shannon entropy in bits, on a vector of positive probabilities. *)
Definition shannon_entropy (P : R * R * R) : R :=
  let '(a, b, c) := P in
  (- (a * log2 a + b * log2 b + c * log2 c))%R.

Record Detector := mkDetector {
  previous : option (R * R * R);
  counter : nat
}.

Definition observe (eps : R) (d : Detector) (P : R * R * R) : Detector :=
  match previous d with
  | None => {| previous := Some P; counter := 0 |}
  | Some P' =>
      {| previous := Some P;
         counter := if Rlt_dec (D_KL P P') eps then S (counter d) else 0 |}
  end.

(** The iteration at which the detector signals, scanning the snapshots of
    iterations [it], [it + 1], ... in order. *)
Fixpoint converged_at (eps : R) (tau : nat) (d : Detector) (it : nat)
  (snaps : list (R * R * R)) : option nat :=
  match snaps with
  | [] => None
  | P :: rest =>
      let d' := observe eps d P in
      if counter d' =? tau then Some it
      else converged_at eps tau d' (S it) rest
  end.

Definition point_to_R (c : ConvergencePoint) : R * R * R :=
  (Q2R (cp_p_yes c), Q2R (cp_p_no c), Q2R (cp_p_null c)).

(** Fleiss' kappa over [T] iterations of [M] raters. *)
Definition sumQ (l : list Q) : Q := fold_right Qplus 0%Q l.

Definition sq (x : Q) : Q := (x * x)%Q.

Definition P_bar (T M : nat) (bs : list Ballot) : Q :=
  (sumQ (map (fun t =>
      let c := committee_at t bs in
      (sq (num (count_vote YES c)) + sq (num (count_vote NO c))
        + sq (num (count_vote NULL c)) - num M) / (num M * (num M - 1)))
      (seq 1 T)) / num T)%Q.

Definition P_e (T M : nat) (bs : list Ballot) : Q :=
  (sq (num (count_vote YES bs) / (num T * num M))
   + sq (num (count_vote NO bs) / (num T * num M))
   + sq (num (count_vote NULL bs) / (num T * num M)))%Q.

(** [None] is the explicit undefined value. *)
Definition fleiss_kappa (T M : nat) (bs : list Ballot) : option Q :=
  if T <? 2 then None
  else if Qeq_bool (P_e T M bs) 1
       then (if Qeq_bool (P_bar T M bs) 1 then Some 1%Q else None)
       else Some ((P_bar T M bs - P_e T M bs) / (1 - P_e T M bs))%Q.

(** Effective sample size over per-model clusters. *)
Definition model_ids (bs : list Ballot) : list string :=
  nodup string_dec (map model bs).

Definition cluster (m : string) (bs : list Ballot) : list Ballot :=
  filter (fun b => String.eqb (model b) m) bs.

Definition mode_share (c : list Ballot) : Q :=
  (num (Nat.max (count_vote YES c)
          (Nat.max (count_vote NO c) (count_vote NULL c)))
   / num (length c))%Q.

Definition a_bar (bs : list Ballot) : Q :=
  (sumQ (map (fun m => mode_share (cluster m bs)) (model_ids bs))
   / num (length (model_ids bs)))%Q.

Definition rho_hat (bs : list Ballot) : Q :=
  Qmax 0 ((a_bar bs - (1 # 3)) / (1 - (1 # 3)))%Q.

Definition m_bar (bs : list Ballot) : Q :=
  (num (length bs) / num (length (model_ids bs)))%Q.

Definition n_eff (bs : list Ballot) : Q :=
  match bs with
  | [] => 0%Q
  | _ => (num (length bs) / (1 + (m_bar bs - 1) * rho_hat bs))%Q
  end.


End Claimed.

(* ===================================================================== *)
(** ** contracts/VeritasOracle.sol                                        *)
(* ===================================================================== *)

Module VeritasOracle.

(** [uint256], [bytes32] and [address] values; the contract does no
    arithmetic on them.  The length of a storage array is a [uint256]; it
    cannot reach [2^256] elements. *)
Definition uint256 : Type := N.
Definition bytes32 : Type := N.
Definition address : Type := N.

Record Verdict := mkVerdict {
  questionHash : bytes32;
  merkleRoot : bytes32;
  pYes : uint256;
  pNo : uint256;
  pNull : uint256;
  fleissKappa : uint256;
  timestamp : uint256
}.

(** Contract storage. *)
Record Storage := mkStorage {
  verdicts : list Verdict;
  owner : address
}.

(** The [VerdictPosted] event. *)
Record VerdictPosted := mkVerdictPosted {
  ev_id : uint256;
  ev_questionHash : bytes32;
  ev_merkleRoot : bytes32;
  ev_pYes : uint256;
  ev_pNo : uint256;
  ev_pNull : uint256;
  ev_timestamp : uint256
}.

(** The part of the transaction context the contract reads. *)
Record Env := mkEnv {
  msg_sender : address;
  block_timestamp : uint256
}.

(** Outcome of an external call: the returned value with the log and the
    new storage, or a revert with its reason (storage is rolled back). *)
Inductive Outcome (A : Type) :=
| Returned (value : A) (log : list VerdictPosted) (st : Storage)
| Reverted (reason : string).

Arguments Returned {A} value log st.
Arguments Reverted {A} reason.

(** Storage after the call. *)
Definition storage_after {A : Type} (before : Storage) (o : Outcome A)
  : Storage :=
  match o with
  | Returned _ _ st => st
  | Reverted _ => before
  end.

Definition constructor (env : Env) : Storage :=
  {| verdicts := []; owner := msg_sender env |}.

(** [modifier onlyOwner] *)
Definition onlyOwner {A : Type} (env : Env) (st : Storage)
  (body : Outcome A) : Outcome A :=
  if (msg_sender env =? owner st)%N then body else Reverted "Not owner".

Definition postVerdict (env : Env) (st : Storage)
  (_questionHash _merkleRoot : bytes32)
  (_pYes _pNo _pNull _fleissKappa : uint256) : Outcome uint256 :=
  onlyOwner env st
    (let id := N.of_nat (length (verdicts st)) in
     let v := {| questionHash := _questionHash;
                 merkleRoot := _merkleRoot;
                 pYes := _pYes;
                 pNo := _pNo;
                 pNull := _pNull;
                 fleissKappa := _fleissKappa;
                 timestamp := block_timestamp env |} in
     Returned id
       [ {| ev_id := id; ev_questionHash := _questionHash;
            ev_merkleRoot := _merkleRoot; ev_pYes := _pYes; ev_pNo := _pNo;
            ev_pNull := _pNull; ev_timestamp := block_timestamp env |} ]
       {| verdicts := verdicts st ++ [v]; owner := owner st |}).

(** [verdicts[_id]] reverts (a panic) outside the array. *)
Definition getVerdict (st : Storage) (_id : uint256) : option Verdict :=
  nth_error (verdicts st) (N.to_nat _id).

Definition verdictCount (st : Storage) : uint256 :=
  N.of_nat (length (verdicts st)).

(** A storage with one verdict, owned by address 1. *)
Definition a_verdict : Verdict :=
  {| questionHash := 11%N; merkleRoot := 12%N; pYes := 600%N; pNo := 300%N;
     pNull := 100%N; fleissKappa := 0%N; timestamp := 1700000000%N |}.

Definition a_storage : Storage := {| verdicts := [a_verdict]; owner := 1%N |}.

Definition owner_call : Env :=
  {| msg_sender := 1%N; block_timestamp := 1700000100%N |}.

Definition stranger_call : Env :=
  {| msg_sender := 2%N; block_timestamp := 1700000100%N |}.

End VeritasOracle.

(* ===================================================================== *)
(** ** Closed form of a run (used by the proofs)                          *)
(* ===================================================================== *)

(** The [n] ballots of iteration [it] when [pos] random values have been
    consumed before its first one. *)
Definition new_ballots (rng : nat -> Q) (evidence : list EvidenceItem)
  (it pos n : nat) : list Ballot :=
  map (fun k => fst (draw_ballot rng evidence it (pos + 5 * k))) (seq 0 n).

(** [allBallots] after [t] iterations. *)
Definition ballots_upto (rng : nat -> Q) (evidence : list EvidenceItem)
  (t : nat) : list Ballot :=
  flat_map (fun i => new_ballots rng evidence (S i) (15 * i) COMMITTEE) (seq 0 t).

(** The closure's state after [t] iterations. *)
Definition after (rng : nat -> Q) (evidence : list EvidenceItem)
  (q : string) (t : nat) : Sim :=
  {| iter := t;
     allBallots := ballots_upto rng evidence t;
     cleared := NUM_ITER <=? t;
     emitted :=
       map (fun i => OnSnapshot (snapshot_of i (ballots_upto rng evidence i)))
           (seq 1 t)
       ++ (if NUM_ITER <=? t
           then [OnVerdict (verdict_of q (ballots_upto rng evidence t))]
           else []);
     consumed := 15 * t |}.

(* ===================================================================== *)
(** ** Concrete runs                                                       *)
(* ===================================================================== *)

Definition a_question : string := "Did Protocol Z create value?".

(** Complete runs: all YES, and an even three-way split in every
    iteration. *)
Definition unanimous_run : Sim :=
  mockSimulation rng_zero no_evidence a_question 5.

Definition even_run : Sim :=
  mockSimulation rng_even no_evidence a_question 5.

(** The object each complete run passes to [onVerdict]. *)
Definition unanimous_verdict : VerdictDistribution :=
  verdict_of a_question (ballots_upto rng_zero no_evidence 5).

Definition even_verdict : VerdictDistribution :=
  verdict_of a_question (ballots_upto rng_even no_evidence 5).

(** [0 <= lo <= hi <= 1] *)
Definition proper_interval (I : R * R) : Prop :=
  (0 <= fst I /\ fst I <= snd I /\ snd I <= 1)%R.

From Stdlib Require Lqa.
From Stdlib Require Import Permutation Sorted.

(* ===================================================================== *)
(** ** mockSimulation on binary64 numbers (App.tsx, lines 68-145)         *)
(* ===================================================================== *)

Module Rounded.

Local Open Scope float_scope.

Record RubricScores := mkRubricScores {
  evidence_quality : float;
  claim_specificity : float;
  source_reliability : float
}.

Record Ballot := mkBallot {
  iteration : nat;
  archetype : option string;
  model : string;
  vote : Vote;
  supporting_evidence_ids : list Z;
  refuting_evidence_ids : list Z;
  rubric_scores : RubricScores;
  reasoning : string
}.

Record ConvergencePoint := mkConvergencePoint {
  cp_iteration : nat;
  cp_p_yes : float;
  cp_p_no : float;
  cp_p_null : float
}.

Record Intervals := mkIntervals {
  ci_YES : float * float;
  ci_NO : float * float;
  ci_NULL : float * float
}.

Record VerdictDistribution := mkVerdictDistribution {
  question : string;
  p_yes : float;
  p_no : float;
  p_null : float;
  num_iterations : nat;
  committee_size : nat;
  converged_at_iteration : option nat;
  credible_intervals_95 : Intervals;
  entropy : float;
  fleiss_kappa : float;
  effective_sample_size : nat;
  ballots : list Ballot;
  convergence : list ConvergencePoint
}.

Inductive Event :=
| OnSnapshot (snap : ConvergencePoint)
| OnVerdict (verdict : VerdictDistribution).

Record Sim := mkSim {
  iter : nat;
  allBallots : list Ballot;
  cleared : bool;
  emitted : list Event;
  consumed : nat
}.

(** [allBallots.filter((b) => b.vote === k).length] *)
Definition count_vote (k : Vote) (bs : list Ballot) : nat :=
  length (filter (fun b => Vote_eqb (vote b) k) bs).

(** [count / total] of lines 112-114: the quotient of two array lengths,
    rounded. *)
Definition share (k : Vote) (bs : list Ballot) : float :=
  F64.of_nat (count_vote k bs) / F64.of_nat (length bs).

(** Line 87. *)
Definition pick_vote (r : float) : Vote :=
  if r <? 0.55 then YES
  else if r <? 0.85 then NO
  else NULL.

(** The interval of lines 121-133 for one category. *)
Definition normal_interval (p : float) (total : nat) : float * float :=
  let z := 1.96 in
  let se := PrimFloat.sqrt ((p * (1 - p)) / F64.of_nat total) in
  (F64.clamp01 (p - z * se), F64.clamp01 (p + z * se)).

(** Lines 111-116. *)
Definition snapshot_of (it : nat) (bs : list Ballot) : ConvergencePoint :=
  {| cp_iteration := it;
     cp_p_yes := share YES bs;
     cp_p_no := share NO bs;
     cp_p_null := share NULL bs |}.

Section MockSimulation.

(** The values the engine's [Math.random] returns, in the order of the
    calls: the state of the engine, which a caller cannot pass.  The two
    variables below it are arguments of [mockSimulation] (lines 71-76);
    its other two, the callbacks, are observed through the calls made to
    them ([emitted]). *)
Variable Math_random : nat -> float.

Variable evidence : list EvidenceItem.
Variable the_question : string.

Definition random : Rand float := fun pos => (Math_random pos, S pos).

Local Open Scope rand_scope.

(** The body of the [for] loop, up to the [push] (lines 85-108). *)
Definition draw_ballot (it : nat) : Rand Ballot :=
  r0 <- random ;;
  let arch :=
    F64.index_floor MOCK_ARCHETYPES
      (r0 * F64.of_nat (length MOCK_ARCHETYPES)) in
  r <- random ;;
  let v := pick_vote r in
  let ids := map id evidence in
  q1 <- random ;;
  q2 <- random ;;
  q3 <- random ;;
  ret {| iteration := it;
         archetype := arch;
         model := "mock-local";
         vote := v;
         supporting_evidence_ids := slice 0 2 ids;
         refuting_evidence_ids := slice 2 3 ids;
         rubric_scores :=
           {| evidence_quality := F64.toFixed2 (0.5 + q1 * 0.4);
              claim_specificity := F64.toFixed2 (0.4 + q2 * 0.4);
              source_reliability := F64.toFixed2 (0.5 + q3 * 0.3) |};
         reasoning := reasoning_of v |}.

(** [for (let k = 0; k < COMMITTEE; k++) { ...; allBallots.push(...) }],
    with [n] the number of rounds still to do. *)
Fixpoint committee_loop (n : nat) (it : nat) (bs : list Ballot)
  : Rand (list Ballot) :=
  match n with
  | O => ret bs
  | S n' => b <- draw_ballot it ;; committee_loop n' it (bs ++ [b])
  end.

(** The object passed to [onVerdict] (lines 120-140). *)
Definition verdict_of (bs : list Ballot) : VerdictDistribution :=
  let total := length bs in
  {| question := the_question;
     p_yes := share YES bs;
     p_no := share NO bs;
     p_null := share NULL bs;
     num_iterations := NUM_ITER;
     committee_size := COMMITTEE;
     converged_at_iteration := None;
     credible_intervals_95 :=
       {| ci_YES := normal_interval (share YES bs) total;
          ci_NO := normal_interval (share NO bs) total;
          ci_NULL := normal_interval (share NULL bs) total |};
     entropy := 0;
     fleiss_kappa := 0;
     effective_sample_size := length bs;
     ballots := bs;
     convergence := [] |}.

(** One firing of the interval callback (lines 82-142). *)
Definition callback (s : Sim) : Sim :=
  let it := S (iter s) in
  let (bs, pos) := committee_loop COMMITTEE it (allBallots s) (consumed s) in
  let out := emitted s ++ [OnSnapshot (snapshot_of it bs)] in
  if (NUM_ITER <=? it)%nat
  then {| iter := it; allBallots := bs; cleared := true;
          emitted := out ++ [OnVerdict (verdict_of bs)]; consumed := pos |}
  else {| iter := it; allBallots := bs; cleared := cleared s;
          emitted := out; consumed := pos |}.

(** State at the call of [setInterval]. *)
Definition start : Sim :=
  {| iter := 0; allBallots := []; cleared := false; emitted := [];
     consumed := 0 |}.

(** The timer: up to [n] firings, none after [clearInterval]. *)
Fixpoint fire (n : nat) (s : Sim) : Sim :=
  match n with
  | O => s
  | S n' => if cleared s then s else fire n' (callback s)
  end.

(** A run as the application starts it, observed after [n] timer
    periods. *)
Definition mockSimulation (n : nat) : Sim := fire n start.

(** The function [mockSimulation] returns (line 144). *)
Definition dispose (s : Sim) : Sim :=
  {| iter := iter s; allBallots := allBallots s; cleared := true;
     emitted := emitted s; consumed := consumed s |}.

Definition step (s : Sim) (h : Happening) : Sim :=
  match h with
  | Period => fire 1 s
  | Dispose => dispose s
  end.

Definition schedule (hs : list Happening) : Sim := fold_left step hs start.

End MockSimulation.

(** The arguments of the [onSnapshot] calls, in order. *)
Definition snapshots_of (es : list Event) : list ConvergencePoint :=
  flat_map (fun e => match e with OnSnapshot c => [c] | OnVerdict _ => [] end) es.

(** The arguments of the [onVerdict] calls, in order. *)
Definition verdicts_of (es : list Event) : list VerdictDistribution :=
  flat_map (fun e => match e with OnSnapshot _ => [] | OnVerdict v => [v] end) es.

(** The ballots pushed during iteration [it]. *)
Definition committee_at (it : nat) (bs : list Ballot) : list Ballot :=
  filter (fun b => (iteration b =? it)%nat) bs.

(** Every value returned by the random source lies in [[0, 1)]. *)
Definition random_ok (rng : nat -> float) : Prop :=
  forall i, F64.in_unit (rng i) = true.

(** The [n] ballots of iteration [it] when [pos] random values have been
    consumed before its first one. *)
Definition new_ballots (rng : nat -> float) (evidence : list EvidenceItem)
  (it pos n : nat) : list Ballot :=
  map (fun k => fst (draw_ballot rng evidence it (pos + 5 * k)%nat)) (seq 0 n).

(** [allBallots] after [t] iterations. *)
Definition ballots_upto (rng : nat -> float) (evidence : list EvidenceItem)
  (t : nat) : list Ballot :=
  flat_map (fun i => new_ballots rng evidence (S i) (15 * i)%nat COMMITTEE)
    (seq 0 t).

(** The closure's state after [t] iterations. *)
Definition after (rng : nat -> float) (evidence : list EvidenceItem)
  (q : string) (t : nat) : Sim :=
  {| iter := t;
     allBallots := ballots_upto rng evidence t;
     cleared := (NUM_ITER <=? t)%nat;
     emitted :=
       map (fun i => OnSnapshot (snapshot_of i (ballots_upto rng evidence i)))
           (seq 1 t)
       ++ (if (NUM_ITER <=? t)%nat
           then [OnVerdict (verdict_of q (ballots_upto rng evidence t))]
           else []);
     consumed := (15 * t)%nat |}.

(** A random source whose vote draws (the second of the five values a
    ballot consumes) are the given numbers, every other value being 0. *)
Definition rng_of_vote_draws (rs : list float) : nat -> float :=
  fun i => if (i mod 5 =? 1)%nat then nth (i / 5)%nat rs 0 else 0.

(** Every value 0: every ballot is a YES of the first archetype. *)
Definition rng_zero : nat -> float := fun _ => 0.


(** Ballots [YES,YES,NO] then [YES,NO,NULL], then YES throughout. *)
Definition rng_scenario : nat -> float :=
  rng_of_vote_draws [0.1; 0.1; 0.6; 0.1; 0.6; 0.9].


(** A value in the middle of the [i]-th fifth of the unit interval: the
    archetype draw that picks [MOCK_ARCHETYPES[i]]. *)
Definition draw_for (i : nat) : float := F64.of_nat (2 * i + 1) / 10.

(** A random source whose three archetype draws of iteration [t] are the
    draws for the pool entries [i0], [i1], [i2], every other value being
    0. *)
Definition rng_of_committee (t i0 i1 i2 : nat) : nat -> float :=
  fun i =>
    if (i =? 15 * (t - 1))%nat then draw_for i0
    else if (i =? 15 * (t - 1) + 5)%nat then draw_for i1
    else if (i =? 15 * (t - 1) + 10)%nat then draw_for i2
    else 0.

(** Two timer periods with ballots [YES,YES,NO] then [YES,NO,NULL]. *)
Definition scenario_run : Sim :=
  mockSimulation rng_scenario no_evidence a_question 2.

(** A complete run: all YES. *)
Definition unanimous_run : Sim :=
  mockSimulation rng_zero no_evidence a_question 5.

(** [p] is the number the engine computes for the share [k / n]: the
    quotient of the two counts, rounded.  It is within [2^-54] of the
    exact share, it is neither below 0 nor above 1, it is 0 only for
    [k = 0] and 1 only for [k = n]. *)
Definition rounded_share (k n : nat) (p : float) : Prop :=
  p = F64.of_nat k / F64.of_nat n /\
  (Qabs (F64.to_Q p - (Z.of_nat k # Pos.of_nat n)) <= 1 # 2 ^ 54)%Q /\
  (0 <=? p) = true /\ (p <=? 1) = true /\
  (p =? 0) = (k =? 0)%nat /\ (p =? 1) = (k =? n)%nat.

(** [py], [pn], [p0] are the shares of the three votes among the ballots
    [bs] as the engine computes them; their exact values add up to 1 up
    to [2^-53]. *)
Definition vote_shares (bs : list Ballot) (py pn p0 : float) : Prop :=
  (0 < length bs)%nat /\
  length bs = (count_vote YES bs + count_vote NO bs + count_vote NULL bs)%nat /\
  rounded_share (count_vote YES bs) (length bs) py /\
  rounded_share (count_vote NO bs) (length bs) pn /\
  rounded_share (count_vote NULL bs) (length bs) p0 /\
  (Qabs (F64.to_Q py + F64.to_Q pn + F64.to_Q p0 - 1) <= 1 # 2 ^ 53)%Q.

Definition interval_of (k : Vote) (i : Intervals) : float * float :=
  match k with
  | YES => ci_YES i
  | NO => ci_NO i
  | NULL => ci_NULL i
  end.

Definition prob_of (k : Vote) (v : VerdictDistribution) : float :=
  match k with
  | YES => p_yes v
  | NO => p_no v
  | NULL => p_null v
  end.

(** [0 <= lo <= p <= hi <= 1] *)
Definition interval_around (p : float) (I : float * float) : bool :=
  (0 <=? fst I) && (fst I <=? p) && (p <=? snd I) && (snd I <=? 1).

(** The checks behind [rounded_share] and [vote_shares], for the counts
    [k <= n] and [a + b <= n] that a run can reach. *)
Definition share_check (k n : nat) : bool :=
  let p := F64.of_nat k / F64.of_nat n in
  Qle_bool (Qabs (F64.to_Q p - (Z.of_nat k # Pos.of_nat n))) (1 # 2 ^ 54)
  && (0 <=? p) && (p <=? 1)
  && Bool.eqb (p =? 0) (k =? 0)%nat && Bool.eqb (p =? 1) (k =? n)%nat.

Definition sum_check (a b n : nat) : bool :=
  let p x := F64.to_Q (F64.of_nat x / F64.of_nat n) in
  Qle_bool (Qabs (p a + p b + p (n - a - b)%nat - 1)) (1 # 2 ^ 53).

Definition checked_upto (N : nat) : bool :=
  forallb
    (fun n =>
       forallb
         (fun a =>
            share_check a n
            && forallb (fun b => sum_check a b n) (seq 0 (S (n - a))))
         (seq 0 (S n)))
    (seq 1 N).

End Rounded.

(* ===================================================================== *)
(** ** JavaScript string operations used by the UI                        *)
(* ===================================================================== *)

(** A string is a sequence of code units below U+0100. *)
Module Text.

(** White space and line terminators below U+0100: tab, line feed,
    vertical tab, form feed, carriage return, space, no-break space. *)
Definition is_space (c : ascii) : bool :=
  let n := nat_of_ascii c in
  ((9 <=? n) && (n <=? 13)) || (n =? 32) || (n =? 160).

Fixpoint trimStart (s : string) : string :=
  match s with
  | EmptyString => EmptyString
  | String c r => if is_space c then trimStart r else s
  end.

Fixpoint trimEnd (s : string) : string :=
  match s with
  | EmptyString => EmptyString
  | String c r =>
      match trimEnd r with
      | EmptyString => if is_space c then EmptyString else String c EmptyString
      | r' => String c r'
      end
  end.

(** [s.trim()] *)
Definition trim (s : string) : string := trimEnd (trimStart s).

(** Lower case of one code unit: A-Z, and the upper-case letters of
    U+00C0 .. U+00DE except the multiplication sign U+00D7. *)
Definition lower_char (c : ascii) : ascii :=
  let n := nat_of_ascii c in
  if ((65 <=? n) && (n <=? 90))
     || ((192 <=? n) && (n <=? 222) && negb (n =? 215))
  then ascii_of_nat (n + 32)
  else c.

(** [s.toLowerCase()] *)
Fixpoint toLowerCase (s : string) : string :=
  match s with
  | EmptyString => EmptyString
  | String c r => String (lower_char c) (toLowerCase r)
  end.

(** Every character of [s] is white space (also when [s] is empty). *)
Fixpoint blank (s : string) : bool :=
  match s with
  | EmptyString => true
  | String c r => is_space c && blank r
  end.

(** [s.startsWith(w)] *)
Definition startsWith (w s : string) : bool := String.prefix w s.

(** [s.includes(w)] *)
Fixpoint includes (w s : string) : bool :=
  if String.prefix w s then true
  else match s with
       | EmptyString => false
       | String _ r => includes w r
       end.

(** [ws.some((w) => s.includes(w))], also [s.includes(a) || s.includes(b)]. *)
Definition includes_any (ws : list string) (s : string) : bool :=
  existsb (fun w => includes w s) ws.

(** [c.repeat(n)] for a one-character string. *)
Fixpoint repeat (c : ascii) (n : nat) : string :=
  match n with
  | O => EmptyString
  | S n' => String c (repeat c n')
  end.

(** [s.padStart(target, c)] for a one-character pad. *)
Definition padStart (target : nat) (c : ascii) (s : string) : string :=
  (repeat c (target - String.length s) ++ s)%string.

(** [s.slice(n)] for [n >= 0]. *)
Fixpoint slice_from (n : nat) (s : string) : string :=
  match n, s with
  | O, _ => s
  | S n', String _ r => slice_from n' r
  | S _, EmptyString => EmptyString
  end.

(** [s.split("\n")]: the pieces between line feeds, at least one. *)
Fixpoint split_newline (s : string) : list string :=
  match s with
  | EmptyString => [EmptyString]
  | String c r =>
      if Ascii.eqb c (ascii_of_nat 10) then EmptyString :: split_newline r
      else match split_newline r with
           | [] => [String c EmptyString]
           | p :: ps => String c p :: ps
           end
  end.


End Text.

(* ===================================================================== *)
(** ** The UI outside the simulation (App.tsx)                            *)
(* ===================================================================== *)

Module Ui.

(** [clamp01] (lines 50-52) on exact numbers. *)
Definition clamp01 (x : Q) : Q := Qmax 0 (Qmin 1 x).

(** [autoQualityScore] (lines 55-66), on binary64 numbers: the sums are
    rounded after each step, in the order of the source. *)
Definition autoQualityScore (urlOrLabel snippet : string) : float :=
  let text := Text.toLowerCase (urlOrLabel ++ " " ++ snippet)%string in
  let q := 0.62%float in
  let q := if Text.includes "audit" text then (q + 0.18)%float else q in
  let q := if Text.includes_any ["dashboard"; "on-chain"; "analytics"]%string text
           then (q + 0.12)%float else q in
  let q := if Text.includes_any ["report"; "data"; "metrics"]%string text
           then (q + 0.06)%float else q in
  let q := if Text.includes_any ["transaction"; "addresses"; "tvl"]%string text
           then (q + 0.05)%float else q in
  let q := if Text.includes_any ["forum"; "snapshot"; "thread"]%string text
           then (q - 0.06)%float else q in
  let q := if Text.includes_any ["rumor"; "anon"; "unverified"]%string text
           then (q - 0.12)%float else q in
  let q := if 140 <=? String.length (Text.trim snippet)
           then (q + 0.04)%float else q in
  F64.clamp01 q.

(** [heatCellStyle] (lines 623-634): the opacity it computes. *)
Definition heat_opacity (p : Q) : Q := ((10 # 100) + (70 # 100) * clamp01 p)%Q.

(** *** fakeMerkleRoot (lines 147-151) *)

Definition hex_digit (d : N) : ascii :=
  match d with
  | 0%N => "0" | 1%N => "1" | 2%N => "2" | 3%N => "3"
  | 4%N => "4" | 5%N => "5" | 6%N => "6" | 7%N => "7"
  | 8%N => "8" | 9%N => "9" | 10%N => "a" | 11%N => "b"
  | 12%N => "c" | 13%N => "d" | 14%N => "e" | _ => "f"
  end%char.

(** The digits of [n] in base 16, most significant first; [fuel] bounds the
    number of digits. *)
Fixpoint to_hex (fuel : nat) (n : N) : string :=
  match fuel with
  | O => EmptyString
  | S f =>
      if (n <? 16)%N then String (hex_digit n) EmptyString
      else (to_hex f (n / 16)%N ++ String (hex_digit (n mod 16)%N) EmptyString)%string
  end.

(** [n.toString(16)] for a non-negative integer. *)
Definition toString16 (n : N) : string :=
  to_hex (S (N.to_nat (N.log2 n))) n.

(** The function on the length of [JSON.stringify({ question, evidence })],
    the only thing it reads of its arguments. *)
Definition fakeMerkleRoot (json_length : N) : string :=
  ("0x" ++ Text.padStart 64 "0"%char (toString16 json_length))%string.

(** Reading a hexadecimal numeral back ([parseInt(s, 16)] on digits). *)
Definition hex_value (c : ascii) : option N :=
  let n := nat_of_ascii c in
  if (48 <=? n) && (n <=? 57) then Some (N.of_nat (n - 48))
  else if (97 <=? n) && (n <=? 102) then Some (N.of_nat (n - 87))
  else None.

Fixpoint parse_hex_from (acc : N) (s : string) : option N :=
  match s with
  | EmptyString => Some acc
  | String c r =>
      match hex_value c with
      | Some d => parse_hex_from (acc * 16 + d)%N r
      | None => None
      end
  end.

Definition parse_hex (s : string) : option N := parse_hex_from 0%N s.

(** *** Editing the evidence list (lines 429-461) *)

(** The pieces of React state the two handlers read and set. *)
Record Editor := mkEditor {
  evidence : list EvidenceItem;
  newUrl : string;
  newSnippet : string;
  isFrozen : bool
}.

(** [Math.max(...xs)] on a non-empty array, given as head and tail. *)
Definition max_of (x : Z) (xs : list Z) : Z := fold_left Z.max xs x.

(** [evidence.length ? Math.max(...evidence.map((e) => e.id)) + 1 : 1],
    for ids that are integers: the sum is a number, so it is rounded. *)
Definition nextId (ev : list EvidenceItem) : Z :=
  match map id ev with
  | [] => 1%Z
  | x :: xs => F64.round_Z (max_of x xs + 1)
  end.

(** [Number.isSafeInteger(z)] for an integer: [2^53 - 1] bounds it in
    absolute value.  The ids of the application are such: the initial list
    holds 1, 2, 3 and every further id comes from [nextId]. *)
Definition safe_id (z : Z) : Prop := (- 2 ^ 53 < z < 2 ^ 53)%Z.

(** [addEvidence]; [now] is the value of [new Date().toISOString()]. *)
Definition addEvidence (now : string) (e : Editor) : Editor :=
  if (String.eqb (Text.trim (newUrl e)) "")
     || (String.eqb (Text.trim (newSnippet e)) "")
  then e
  else
    {| evidence :=
         evidence e
         ++ [ {| id := nextId (evidence e);
                 url := Text.trim (newUrl e);
                 snippet := Text.trim (newSnippet e);
                 quality_score :=
                   autoQualityScore (Text.trim (newUrl e))
                                    (Text.trim (newSnippet e));
                 timestamp := now |} ];
       newUrl := "";
       newSnippet := "";
       isFrozen := false |}.

(** [removeEvidence] *)
Definition removeEvidence (i : Z) (e : Editor) : Editor :=
  {| evidence := filter (fun x => negb (id x =? i)%Z) (evidence e);
     newUrl := newUrl e;
     newSnippet := newSnippet e;
     isFrozen := false |}.

(** *** The vote heatmap (lines 603-621) *)

(** The value stored under one key of [map]. *)
Record Tally := mkTally {
  n_YES : nat;
  n_NO : nat;
  n_NULL : nat;
  n_total : nat
}.

Record HeatRow := mkHeatRow {
  row_archetype : string;
  row_total : nat;
  row_yes : float;
  row_no : float;
  row_nul : float
}.

(** [b.archetype || "unknown"]: [undefined] and the empty string are
    falsy. *)
Definition key_of (b : Rounded.Ballot) : string :=
  match Rounded.archetype b with
  | None => "unknown"
  | Some s => if String.eqb s "" then "unknown" else s
  end.

(** [c.total += 1; c[v] += 1] *)
Definition count_in (v : Vote) (c : Tally) : Tally :=
  match v with
  | YES => {| n_YES := n_YES c + 1; n_NO := n_NO c; n_NULL := n_NULL c;
              n_total := n_total c + 1 |}
  | NO => {| n_YES := n_YES c; n_NO := n_NO c + 1; n_NULL := n_NULL c;
             n_total := n_total c + 1 |}
  | NULL => {| n_YES := n_YES c; n_NO := n_NO c; n_NULL := n_NULL c + 1;
               n_total := n_total c + 1 |}
  end.

Definition empty_tally : Tally :=
  {| n_YES := 0; n_NO := 0; n_NULL := 0; n_total := 0 |}.

(** One round of the [for] loop on the object [map], kept as the list of
    its own properties in insertion order: a key already present is
    updated in place, a new key is added at the end. *)
Fixpoint record_vote (a : string) (v : Vote) (m : list (string * Tally))
  : list (string * Tally) :=
  match m with
  | [] => [(a, count_in v empty_tally)]
  | (k, c) :: rest =>
      if String.eqb k a then (k, count_in v c) :: rest
      else (k, c) :: record_vote a v rest
  end.

Definition tally_votes (bs : list Rounded.Ballot) : list (string * Tally) :=
  fold_left (fun m b => record_vote (key_of b) (Rounded.vote b) m) bs [].

(** The callback of [.map] on the entries; the quotients are the rounded
    ones. *)
Definition row_of (entry : string * Tally) : HeatRow :=
  let (a, c) := entry in
  {| row_archetype := a;
     row_total := n_total c;
     row_yes := if n_total c =? 0 then 0%float
                else (F64.of_nat (n_YES c) / F64.of_nat (n_total c))%float;
     row_no := if n_total c =? 0 then 0%float
               else (F64.of_nat (n_NO c) / F64.of_nat (n_total c))%float;
     row_nul := if n_total c =? 0 then 0%float
                else (F64.of_nat (n_NULL c) / F64.of_nat (n_total c))%float |}.

(** [.sort((a, b) => b.total - a.total)]: the stable sort by decreasing
    total, as an insertion sort. *)
Fixpoint insert_row (x : HeatRow) (l : list HeatRow) : list HeatRow :=
  match l with
  | [] => [x]
  | y :: r => if row_total y <=? row_total x then x :: l
              else y :: insert_row x r
  end.

Definition sort_rows (l : list HeatRow) : list HeatRow :=
  fold_right insert_row [] l.

(** Keys that an object literal does not treat as plain own properties in
    insertion order: array indices (enumerated first, here every string of
    decimal digits) and the names inherited from [Object.prototype]. *)
Definition is_digit (c : ascii) : bool :=
  let n := nat_of_ascii c in (48 <=? n) && (n <=? 57).

Fixpoint all_digits (s : string) : bool :=
  match s with
  | EmptyString => true
  | String c r => is_digit c && all_digits r
  end.

Definition inherited_names : list string :=
  ["constructor"; "hasOwnProperty"; "isPrototypeOf"; "propertyIsEnumerable";
   "toLocaleString"; "toString"; "valueOf"; "__proto__";
   "__defineGetter__"; "__defineSetter__"; "__lookupGetter__";
   "__lookupSetter__"]%string.

Definition plain_key (k : string) : bool :=
  negb (all_digits k) && negb (existsb (String.eqb k) inherited_names).

Definition voteHeatmap (bs : list Rounded.Ballot) : list HeatRow :=
  sort_rows (map row_of (tally_votes bs)).

(** The ballots counted under key [k]. *)
Definition ballots_with_key (k : string) (bs : list Rounded.Ballot)
  : list Rounded.Ballot :=
  filter (fun b => String.eqb (key_of b) k) bs.

(** What the entry stored under [k] must hold after the ballots [bs]. *)
Definition tally_matches (bs : list Rounded.Ballot) (k : string) (c : Tally)
  : Prop :=
  n_total c = length (ballots_with_key k bs) /\
  n_YES c = Rounded.count_vote YES (ballots_with_key k bs) /\
  n_NO c = Rounded.count_vote NO (ballots_with_key k bs) /\
  n_NULL c = Rounded.count_vote NULL (ballots_with_key k bs) /\
  0 < n_total c.

(** Rows in the order of the heatmap: no row before one with a larger
    total. *)
Definition by_total (a b : HeatRow) : Prop := row_total b <= row_total a.

(** *** Reading the event stream (lines 562-599) *)

(** One turn of the [while] loop up to the [for]: the decoded chunk is
    appended to [buffer], the complete lines are taken and the last piece
    is kept ([lines.pop() || ""]). *)
Definition read_chunk (buffer chunk : string) : list string * string :=
  let pieces := Text.split_newline (buffer ++ chunk)%string in
  (removelast pieces, last pieces EmptyString).




Section EventStream.

(** The values of [JSON.parse], which is not modelled: [JSON_parse] is
    [None] where it throws, and [is_null] tells the value [null], the only
    one whose property read ([snap.iteration], [verdict.p_yes]) throws. *)
Variable Json : Type.
Variable JSON_parse : string -> option Json.
Variable is_null : Json -> bool.

(** The calls made for a [data: ] line: the five setters of a snapshot,
    or [applyVerdict]. *)
Inductive Delivery :=
| ToSnapshot (snap : Json)
| ToVerdict (data : Json).

(** How the body of the [for] loop ends: normally, with the new
    [eventType] and the calls it made, or by throwing. *)
Inductive LineOutcome :=
| Next (eventType : string) (calls : list Delivery)
| Throws.

(** The body of the [for] loop (lines 576-592). *)
Definition handle_line (eventType line : string) : LineOutcome :=
  if Text.startsWith "event: " line
  then Next (Text.trim (Text.slice_from 7 line)) []
  else if Text.startsWith "data: " line
  then match JSON_parse (Text.slice_from 6 line) with
       | None => Throws
       | Some data =>
           if String.eqb eventType "snapshot"
           then if is_null data then Throws
                else Next eventType [ToSnapshot data]
           else if String.eqb eventType "verdict"
           then if is_null data then Throws
                else Next eventType [ToVerdict data]
           else Next eventType []
       end
  else Next eventType [].

(** What has happened when the loop is left: the lines the [for] loops
    have looked at, the calls made, the buffer, and whether the loop was
    left by an exception (to the [catch] of line 594). *)
Record Reading := mkReading {
  examined : list string;
  delivered : list Delivery;
  buffer : string;
  threw : bool
}.

(** The [for] loop over the lines of one turn. *)
Fixpoint handle_lines (eventType : string) (lines : list string)
  : list string * list Delivery * bool :=
  match lines with
  | [] => ([], [], false)
  | l :: rest =>
      match handle_line eventType l with
      | Throws => ([l], [], true)
      | Next et calls =>
          let '(ex, ds, t) := handle_lines et rest in
          (l :: ex, calls ++ ds, t)
      end
  end.

(** The [while] loop over the chunks that [reader.read()] yields;
    [eventType] starts empty in every turn (line 575). *)
Fixpoint read_stream (buf : string) (chunks : list string) : Reading :=
  match chunks with
  | [] => {| examined := []; delivered := []; buffer := buf; threw := false |}
  | c :: rest =>
      let (lines, b) := read_chunk buf c in
      let '(ex, ds, t) := handle_lines "" lines in
      if t
      then {| examined := ex; delivered := ds; buffer := b; threw := true |}
      else
        let r := read_stream b rest in
        {| examined := ex ++ examined r;
           delivered := ds ++ delivered r;
           buffer := buffer r;
           threw := threw r |}
  end.

End EventStream.

Arguments ToSnapshot {Json} snap.
Arguments ToVerdict {Json} data.
Arguments Next {Json} eventType calls.
Arguments Throws {Json}.
Arguments handle_line {Json} JSON_parse is_null eventType line.
Arguments examined {Json} r.
Arguments delivered {Json} r.
Arguments buffer {Json} r.
Arguments threw {Json} r.
Arguments handle_lines {Json} JSON_parse is_null eventType lines.
Arguments read_stream {Json} JSON_parse is_null buf chunks.

End Ui.

(* ===================================================================== *)
(** ** The run of the earlier demo App (unnamed/part_000, lines 48-75     *)
(**    and 197-230)                                                       *)
(* ===================================================================== *)

Module DemoRun.

(** The evidence items of this file carry a caller-set [quality]
    (lines 18-23). *)
Record EvidenceItem := mkEvidenceItem {
  id : Z;
  url : string;
  snippet : string;
  quality : Q
}.

Definition posWords : list string :=
  ["increase"; "grew"; "adoption"; "integrat"; "utility"; "partnership";
   "compos"; "growth"]%string.

Definition negWords : list string :=
  ["decline"; "fell"; "risk"; "insider"; "concentrat"; "subsid"; "drop";
   "taper"; "postpone"]%string.

(** The body of the [for] loop of [evidenceSignal] (lines 68-73). *)
Definition add_signal (score : Q) (e : EvidenceItem) : Q :=
  let s := Text.toLowerCase (snippet e) in
  let pos := if Text.includes_any posWords s then 1%Q else 0%Q in
  let neg := if Text.includes_any negWords s then 1%Q else 0%Q in
  (score + (pos - neg) * quality e)%Q.

(** [evidenceSignal] (lines 63-75). *)
Definition evidenceSignal (evidence : list EvidenceItem) : Q :=
  fold_left add_signal evidence 0%Q.

(** [sigmoid] (lines 52-54). *)
Definition sigmoid (x : R) : R := (1 / (1 + exp (- x)))%R.

(** [baseYes] of [startRun] (line 202), on the signal. *)
Definition baseYes (signal : R) : R := (25 / 100 + 5 / 10 * sigmoid signal)%R.

(** The three probabilities of one committee member (lines 217-224);
    [clamp01] of this file is the one of App.tsx. *)
Definition vote_probabilities (base : Q) (a : Demo.Archetype) : Q * Q * Q :=
  let p_yes := Ui.clamp01 (base + Demo.biasYes a) in
  let p_null := Ui.clamp01 ((15 # 100) + Demo.biasNull a) in
  let p_no := Ui.clamp01 (1 - p_yes - p_null) in
  let s := (p_yes + p_no + p_null)%Q in
  (p_yes / s, p_no / s, p_null / s)%Q.

(** The vote drawn with the random value [r] (lines 226-230). *)
Definition choose_vote (r : Q) (p : Q * Q * Q) : Vote :=
  let '(p_yes, p_no, p_null) := p in
  if Qltb r p_yes then YES
  else if Qltb r (p_yes + p_no) then NO
  else NULL.

(** Whether the snippet of an item holds a positive word, and whether it
    holds a negative one ([pos] and [neg] of lines 70-71). *)
Definition has_pos (e : EvidenceItem) : bool :=
  Text.includes_any posWords (Text.toLowerCase (snippet e)).

Definition has_neg (e : EvidenceItem) : bool :=
  Text.includes_any negWords (Text.toLowerCase (snippet e)).

(** The items that move the signal: those with [pos - neg] other than
    0. *)
Definition moving (evidence : list EvidenceItem) : list EvidenceItem :=
  filter (fun e => xorb (has_pos e) (has_neg e)) evidence.

End DemoRun.

(* ===================================================================== *)
(** ** Sequences of calls to the contract                                 *)
(* ===================================================================== *)

Module Ledger.

(** One external call of [postVerdict]: its context and arguments. *)
Record Call := mkCall {
  call_env : VeritasOracle.Env;
  arg_questionHash : VeritasOracle.bytes32;
  arg_merkleRoot : VeritasOracle.bytes32;
  arg_pYes : VeritasOracle.uint256;
  arg_pNo : VeritasOracle.uint256;
  arg_pNull : VeritasOracle.uint256;
  arg_fleissKappa : VeritasOracle.uint256
}.

Definition perform (st : VeritasOracle.Storage) (c : Call)
  : VeritasOracle.Outcome VeritasOracle.uint256 :=
  VeritasOracle.postVerdict (call_env c) st
    (arg_questionHash c) (arg_merkleRoot c)
    (arg_pYes c) (arg_pNo c) (arg_pNull c) (arg_fleissKappa c).

(** The storage after the call's transaction. *)
Definition apply_call (st : VeritasOracle.Storage) (c : Call)
  : VeritasOracle.Storage :=
  VeritasOracle.storage_after st (perform st c).

(** The storage after a sequence of transactions. *)
Definition replay (st : VeritasOracle.Storage) (cs : list Call)
  : VeritasOracle.Storage :=
  fold_left apply_call cs st.

(** The value each successful call returns, in order (a reverted call
    returns none). *)
Fixpoint returned_ids (st : VeritasOracle.Storage) (cs : list Call)
  : list VeritasOracle.uint256 :=
  match cs with
  | [] => []
  | c :: rest =>
      match perform st c with
      | VeritasOracle.Returned i _ st' => i :: returned_ids st' rest
      | VeritasOracle.Reverted _ => returned_ids st rest
      end
  end.

(** The verdict a call asks to store. *)
Definition requested (c : Call) : VeritasOracle.Verdict :=
  VeritasOracle.mkVerdict
    (arg_questionHash c) (arg_merkleRoot c)
    (arg_pYes c) (arg_pNo c) (arg_pNull c) (arg_fleissKappa c)
    (VeritasOracle.block_timestamp (call_env c)).

Definition sent_by (who : VeritasOracle.address) (c : Call) : bool :=
  (VeritasOracle.msg_sender (call_env c) =? who)%N.

(** The same request made by the owner of [a_storage] and by a
    stranger. *)
Definition owner_post : Call :=
  mkCall VeritasOracle.owner_call 21%N 22%N 500%N 400%N 100%N 7%N.

Definition stranger_post : Call :=
  mkCall VeritasOracle.stranger_call 21%N 22%N 500%N 400%N 100%N 7%N.

End Ledger.

(* ===================================================================== *)
(** ** Lemmas on vote shares                                              *)
(* ===================================================================== *)

Lemma count_vote_partition (bs : list Ballot) :
  count_vote YES bs + count_vote NO bs + count_vote NULL bs = length bs.
Proof.
  unfold count_vote.
  induction bs as [| b bs IH]; simpl; [reflexivity |].
  destruct (vote b); simpl; lia.
Qed.

Lemma count_vote_le (k : Vote) (bs : list Ballot) :
  count_vote k bs <= length bs.
Proof.
  pose proof (count_vote_partition bs). destruct k; lia.
Qed.

Lemma num_pos (n : nat) : 0 < n -> (0 < num n)%Q.
Proof.
  intro H. unfold num. change 0%Q with (inject_Z 0).
  rewrite <- Zlt_Qlt. lia.
Qed.

Lemma num_nonneg (n : nat) : (0 <= num n)%Q.
Proof.
  unfold num. change 0%Q with (inject_Z 0).
  rewrite <- Zle_Qle. lia.
Qed.

Lemma num_le (a b : nat) : a <= b -> (num a <= num b)%Q.
Proof.
  intro H. unfold num. rewrite <- Zle_Qle. lia.
Qed.

Lemma share_bounds (k : Vote) (bs : list Ballot) :
  bs <> [] -> (0 <= share k bs)%Q /\ (share k bs <= 1)%Q.
Proof.
  intro Hne. unfold share.
  assert (Hpos : (0 < num (length bs))%Q).
  { apply num_pos. destruct bs; [congruence | simpl; lia]. }
  split.
  - apply Qle_shift_div_l; [exact Hpos |].
    rewrite Qmult_0_l. apply num_nonneg.
  - apply Qle_shift_div_r; [exact Hpos |].
    rewrite Qmult_1_l. apply num_le. apply count_vote_le.
Qed.

(* ===================================================================== *)
(** ** Lemmas on the idealised run                                         *)
(* ===================================================================== *)

Lemma draw_ballot_consumes rng evidence it pos :
  snd (draw_ballot rng evidence it pos) = pos + 5.
Proof.
  unfold draw_ballot, bind, random, ret. simpl. lia.
Qed.

Lemma committee_loop_closed rng evidence n :
  forall it bs pos,
    committee_loop rng evidence n it bs pos
    = (bs ++ new_ballots rng evidence it pos n, pos + 5 * n).
Proof.
  induction n as [| n IH]; intros it bs pos.
  - simpl. unfold ret, new_ballots. simpl.
    rewrite app_nil_r. f_equal. lia.
  - cbn [committee_loop]. unfold bind at 1.
    destruct (draw_ballot rng evidence it pos) as [b pos'] eqn:E.
    assert (Hpos : pos' = pos + 5).
    { pose proof (draw_ballot_consumes rng evidence it pos) as H.
      rewrite E in H. exact H. }
    rewrite IH. subst pos'.
    unfold new_ballots. cbn [seq map].
    rewrite <- app_assoc. cbn [app].
    replace (pos + 5 * 0) with pos by lia. rewrite E. cbn [fst].
    f_equal; [| lia].
    f_equal. f_equal.
    rewrite <- seq_shift. rewrite map_map.
    apply map_ext. intro k.
    replace (pos + 5 + 5 * k) with (pos + 5 * S k) by lia. reflexivity.
Qed.

Lemma new_ballots_length rng evidence it pos n :
  length (new_ballots rng evidence it pos n) = n.
Proof.
  unfold new_ballots. rewrite length_map. apply length_seq.
Qed.

Lemma ballots_upto_S rng evidence t :
  ballots_upto rng evidence (S t)
  = ballots_upto rng evidence t
    ++ new_ballots rng evidence (S t) (15 * t) COMMITTEE.
Proof.
  unfold ballots_upto. rewrite seq_S, flat_map_app. cbn [flat_map Nat.add].
  rewrite app_nil_r. reflexivity.
Qed.

Lemma ballots_upto_length rng evidence t :
  length (ballots_upto rng evidence t) = COMMITTEE * t.
Proof.
  induction t as [| t IH]; [reflexivity |].
  rewrite ballots_upto_S, length_app, IH, new_ballots_length.
  unfold COMMITTEE. lia.
Qed.

Lemma ballots_upto_nonempty rng evidence t :
  0 < t -> ballots_upto rng evidence t <> [].
Proof.
  intros Ht E. pose proof (ballots_upto_length rng evidence t) as H.
  rewrite E in H. simpl in H. unfold COMMITTEE in H. lia.
Qed.

Lemma callback_after rng evidence q t :
  callback rng evidence q (after rng evidence q t)
  = if NUM_ITER <=? t
    then callback rng evidence q (after rng evidence q t)
    else after rng evidence q (S t).
Proof.
  destruct (NUM_ITER <=? t) eqn:Ht; [reflexivity |].
  unfold callback, after. cbn [iter allBallots consumed cleared emitted].
  rewrite Ht.
  rewrite committee_loop_closed, <- ballots_upto_S.
  rewrite app_nil_r.
  rewrite (seq_S t 1), map_app. cbn [map].
  replace (1 + t) with (S t) by lia.
  destruct (NUM_ITER <=? S t) eqn:Hs.
  - f_equal. unfold COMMITTEE. lia.
  - rewrite app_nil_r. f_equal. unfold COMMITTEE. lia.
Qed.

Lemma fire_after rng evidence q n :
  forall t, t <= NUM_ITER ->
    fire rng evidence q n (after rng evidence q t)
    = after rng evidence q (Nat.min (t + n) NUM_ITER).
Proof.
  induction n as [| n IH]; intros t Ht.
  - cbn [fire]. replace (Nat.min (t + 0) NUM_ITER) with t by lia. reflexivity.
  - cbn [fire].
    change (cleared (after rng evidence q t)) with (NUM_ITER <=? t).
    destruct (NUM_ITER <=? t) eqn:E.
    + apply Nat.leb_le in E.
      replace (Nat.min (t + S n) NUM_ITER) with t by lia. reflexivity.
    + rewrite callback_after, E.
      apply Nat.leb_gt in E.
      rewrite IH by lia.
      replace (Nat.min (S t + n) NUM_ITER) with (Nat.min (t + S n) NUM_ITER)
        by lia.
      reflexivity.
Qed.

(** The run in closed form: after [n] timer periods the closure is in the
    state reached after [min n NUM_ITER] iterations. *)
Lemma mockSimulation_after rng evidence q n :
  mockSimulation rng evidence q n = after rng evidence q (Nat.min n NUM_ITER).
Proof.
  unfold mockSimulation.
  change (start) with (after rng evidence q 0).
  rewrite fire_after by (unfold NUM_ITER; lia). reflexivity.
Qed.

Lemma snapshots_of_app (a b : list Event) :
  snapshots_of (a ++ b) = snapshots_of a ++ snapshots_of b.
Proof. unfold snapshots_of. apply flat_map_app. Qed.

Lemma verdicts_of_app (a b : list Event) :
  verdicts_of (a ++ b) = verdicts_of a ++ verdicts_of b.
Proof. unfold verdicts_of. apply flat_map_app. Qed.

Lemma snapshots_of_snapshots (f : nat -> ConvergencePoint) (l : list nat) :
  snapshots_of (map (fun i => OnSnapshot (f i)) l) = map f l.
Proof.
  induction l as [| i l IH]; [reflexivity |].
  simpl. f_equal. exact IH.
Qed.

Lemma verdicts_of_snapshots (f : nat -> ConvergencePoint) (l : list nat) :
  verdicts_of (map (fun i => OnSnapshot (f i)) l) = [].
Proof.
  induction l as [| i l IH]; [reflexivity |]. simpl. exact IH.
Qed.

Lemma snapshots_after rng evidence q t :
  snapshots_of (emitted (after rng evidence q t))
  = map (fun i => snapshot_of i (ballots_upto rng evidence i)) (seq 1 t).
Proof.
  unfold after. cbn [emitted].
  rewrite snapshots_of_app, snapshots_of_snapshots.
  destruct (NUM_ITER <=? t); simpl; apply app_nil_r.
Qed.

Lemma verdicts_after rng evidence q t :
  verdicts_of (emitted (after rng evidence q t))
  = if NUM_ITER <=? t
    then [verdict_of q (ballots_upto rng evidence t)] else [].
Proof.
  unfold after. cbn [emitted].
  rewrite verdicts_of_app, verdicts_of_snapshots.
  destruct (NUM_ITER <=? t); reflexivity.
Qed.

(** The ballots of the first [i] iterations are a prefix of the later
    ballot lists: the array only grows. *)
Lemma ballots_upto_prefix rng evidence t :
  forall i, i <= t ->
    firstn (COMMITTEE * i) (ballots_upto rng evidence t)
    = ballots_upto rng evidence i.
Proof.
  induction t as [| t IH]; intros i Hi.
  - replace i with 0 by lia. reflexivity.
  - destruct (Nat.eq_dec i (S t)) as [-> | Hne].
    + rewrite <- (ballots_upto_length rng evidence (S t)).
      apply firstn_all.
    + rewrite ballots_upto_S, firstn_app.
      rewrite ballots_upto_length.
      replace (COMMITTEE * i - COMMITTEE * t) with 0 by (unfold COMMITTEE; lia).
      rewrite firstn_O, app_nil_r. apply IH. lia.
Qed.

Lemma min_iter_leb (n : nat) :
  (NUM_ITER <=? Nat.min n NUM_ITER) = (NUM_ITER <=? n).
Proof.
  destruct (NUM_ITER <=? n) eqn:E.
  - apply Nat.leb_le in E. apply Nat.leb_le. lia.
  - apply Nat.leb_gt in E. apply Nat.leb_gt. lia.
Qed.

Lemma new_ballots_iteration rng evidence it pos n :
  Forall (fun b => iteration b = it) (new_ballots rng evidence it pos n).
Proof.
  unfold new_ballots. apply Forall_map. apply Forall_forall.
  intros k _. reflexivity.
Qed.

Lemma rng_zero_ok : random_ok rng_zero.
Proof.
  intro i. unfold rng_zero. split; [apply Qle_refl | reflexivity].
Qed.

(* ===================================================================== *)
(** ** Lemmas on the run with binary64 numbers                            *)
(* ===================================================================== *)

(** Where rounding shows.  The product [0.6 * 5] is rounded to 3, so the
    draw 0.6 picks the fourth archetype; the draw 0.85 is not below the
    threshold 0.85, so it votes NULL; the sum [0.5 + 0.25 * 0.3] is rounded
    below the tie 0.575, so the score is 0.57; and the quotients for 3/6,
    2/6 and 1/6 do not add up to 1. *)
Example engine_rounding_examples :
  F64.index_floor MOCK_ARCHETYPES (0.6 * 5)%float
  = Some "source_quality_hawk"%string /\
  Rounded.pick_vote 0.85 = NULL /\
  Rounded.pick_vote 0.8499999999999999 = NO /\
  F64.toFixed2 (0.5 + 0.25 * 0.3)%float = 0.57%float /\
  F64.toFixed2 (0.5 + 0.5 * 0.3)%float = 0.65%float /\
  (F64.of_nat 3 / F64.of_nat 6 + F64.of_nat 2 / F64.of_nat 6
   + F64.of_nat 1 / F64.of_nat 6)%float = 0.9999999999999999%float.
Proof. repeat split; vm_compute; reflexivity. Qed.

Lemma rounded_count_vote_partition (bs : list Rounded.Ballot) :
  Rounded.count_vote YES bs + Rounded.count_vote NO bs
  + Rounded.count_vote NULL bs = length bs.
Proof.
  unfold Rounded.count_vote.
  induction bs as [| b bs IH]; simpl; [reflexivity |].
  destruct (Rounded.vote b); simpl; lia.
Qed.

Lemma rounded_count_vote_le (k : Vote) (bs : list Rounded.Ballot) :
  Rounded.count_vote k bs <= length bs.
Proof.
  pose proof (rounded_count_vote_partition bs). destruct k; lia.
Qed.

Lemma rounded_draw_ballot_consumes rng evidence it pos :
  snd (Rounded.draw_ballot rng evidence it pos) = pos + 5.
Proof.
  unfold Rounded.draw_ballot, bind, Rounded.random, ret. simpl. lia.
Qed.

Lemma rounded_committee_loop_closed rng evidence n :
  forall it bs pos,
    Rounded.committee_loop rng evidence n it bs pos
    = (bs ++ Rounded.new_ballots rng evidence it pos n, pos + 5 * n).
Proof.
  induction n as [| n IH]; intros it bs pos.
  - simpl. unfold ret, Rounded.new_ballots. simpl.
    rewrite app_nil_r. f_equal. lia.
  - cbn [Rounded.committee_loop]. unfold bind at 1.
    destruct (Rounded.draw_ballot rng evidence it pos) as [b pos'] eqn:E.
    assert (Hpos : pos' = pos + 5).
    { pose proof (rounded_draw_ballot_consumes rng evidence it pos) as H.
      rewrite E in H. exact H. }
    rewrite IH. subst pos'.
    unfold Rounded.new_ballots. cbn [seq map].
    rewrite <- app_assoc. cbn [app].
    replace (pos + 5 * 0) with pos by lia. rewrite E. cbn [fst].
    f_equal; [| lia].
    f_equal. f_equal.
    rewrite <- seq_shift. rewrite map_map.
    apply map_ext. intro k.
    replace (pos + 5 + 5 * k) with (pos + 5 * S k) by lia. reflexivity.
Qed.

Lemma rounded_new_ballots_length rng evidence it pos n :
  length (Rounded.new_ballots rng evidence it pos n) = n.
Proof.
  unfold Rounded.new_ballots. rewrite length_map. apply length_seq.
Qed.

Lemma rounded_ballots_upto_S rng evidence t :
  Rounded.ballots_upto rng evidence (S t)
  = Rounded.ballots_upto rng evidence t
    ++ Rounded.new_ballots rng evidence (S t) (15 * t) COMMITTEE.
Proof.
  unfold Rounded.ballots_upto.
  rewrite seq_S, flat_map_app. cbn [flat_map Nat.add].
  rewrite app_nil_r. reflexivity.
Qed.

Lemma rounded_ballots_upto_length rng evidence t :
  length (Rounded.ballots_upto rng evidence t) = COMMITTEE * t.
Proof.
  induction t as [| t IH]; [reflexivity |].
  rewrite rounded_ballots_upto_S, length_app, IH, rounded_new_ballots_length.
  unfold COMMITTEE. lia.
Qed.

Lemma rounded_callback_after rng evidence q t :
  (NUM_ITER <=? t) = false ->
  Rounded.callback rng evidence q (Rounded.after rng evidence q t)
  = Rounded.after rng evidence q (S t).
Proof.
  intro Ht.
  unfold Rounded.callback, Rounded.after.
  cbn [Rounded.iter Rounded.allBallots Rounded.consumed Rounded.cleared
       Rounded.emitted].
  rewrite Ht.
  rewrite rounded_committee_loop_closed, <- rounded_ballots_upto_S.
  rewrite app_nil_r.
  rewrite (seq_S t 1), map_app. cbn [map].
  replace (1 + t) with (S t) by lia.
  destruct (NUM_ITER <=? S t) eqn:Hs.
  - f_equal. unfold COMMITTEE. lia.
  - rewrite app_nil_r. f_equal. unfold COMMITTEE. lia.
Qed.

Lemma rounded_fire_after rng evidence q n :
  forall t, t <= NUM_ITER ->
    Rounded.fire rng evidence q n (Rounded.after rng evidence q t)
    = Rounded.after rng evidence q (Nat.min (t + n) NUM_ITER).
Proof.
  induction n as [| n IH]; intros t Ht.
  - cbn [Rounded.fire].
    replace (Nat.min (t + 0) NUM_ITER) with t by lia. reflexivity.
  - cbn [Rounded.fire].
    change (Rounded.cleared (Rounded.after rng evidence q t))
      with (NUM_ITER <=? t).
    destruct (NUM_ITER <=? t) eqn:E.
    + apply Nat.leb_le in E.
      replace (Nat.min (t + S n) NUM_ITER) with t by lia. reflexivity.
    + rewrite rounded_callback_after by exact E.
      apply Nat.leb_gt in E.
      rewrite IH by lia.
      replace (Nat.min (S t + n) NUM_ITER) with (Nat.min (t + S n) NUM_ITER)
        by lia.
      reflexivity.
Qed.

(** The run in closed form: after [n] timer periods the closure is in the
    state reached after [min n NUM_ITER] iterations. *)
Lemma rounded_mockSimulation_after rng evidence q n :
  Rounded.mockSimulation rng evidence q n
  = Rounded.after rng evidence q (Nat.min n NUM_ITER).
Proof.
  unfold Rounded.mockSimulation.
  change (Rounded.start) with (Rounded.after rng evidence q 0).
  rewrite rounded_fire_after by (unfold NUM_ITER; lia). reflexivity.
Qed.


Lemma rounded_verdicts_of_app (a b : list Rounded.Event) :
  Rounded.verdicts_of (a ++ b)
  = Rounded.verdicts_of a ++ Rounded.verdicts_of b.
Proof. unfold Rounded.verdicts_of. apply flat_map_app. Qed.


Lemma rounded_verdicts_of_snapshots
  (f : nat -> Rounded.ConvergencePoint) (l : list nat) :
  Rounded.verdicts_of (map (fun i => Rounded.OnSnapshot (f i)) l) = [].
Proof.
  induction l as [| i l IH]; [reflexivity |]. simpl. exact IH.
Qed.


Lemma rounded_verdicts_after rng evidence q t :
  Rounded.verdicts_of (Rounded.emitted (Rounded.after rng evidence q t))
  = if NUM_ITER <=? t
    then [Rounded.verdict_of q (Rounded.ballots_upto rng evidence t)] else [].
Proof.
  unfold Rounded.after. cbn [Rounded.emitted].
  rewrite rounded_verdicts_of_app, rounded_verdicts_of_snapshots.
  destruct (NUM_ITER <=? t); reflexivity.
Qed.

(** The ballots of the first [i] iterations are a prefix of the later
    ballot lists: the array only grows. *)
Lemma rounded_ballots_upto_prefix rng evidence t :
  forall i, i <= t ->
    firstn (COMMITTEE * i) (Rounded.ballots_upto rng evidence t)
    = Rounded.ballots_upto rng evidence i.
Proof.
  induction t as [| t IH]; intros i Hi.
  - replace i with 0 by lia. reflexivity.
  - destruct (Nat.eq_dec i (S t)) as [-> | Hne].
    + rewrite <- (rounded_ballots_upto_length rng evidence (S t)).
      apply firstn_all.
    + rewrite rounded_ballots_upto_S, firstn_app.
      rewrite rounded_ballots_upto_length.
      replace (COMMITTEE * i - COMMITTEE * t) with 0 by (unfold COMMITTEE; lia).
      rewrite firstn_O, app_nil_r. apply IH. lia.
Qed.


(** Every pair and triple of counts that a run can reach passes the
    checks. *)
Lemma rounded_checked_15 : Rounded.checked_upto 15 = true.
Proof. vm_compute. reflexivity. Qed.

Lemma rounded_share_checked (k n : nat) :
  1 <= n <= 15 -> k <= n ->
  Rounded.share_check k n = true /\
  forall b, b <= n - k -> Rounded.sum_check k b n = true.
Proof.
  intros Hn Hk.
  pose proof rounded_checked_15 as H. unfold Rounded.checked_upto in H.
  rewrite forallb_forall in H.
  specialize (H n ltac:(apply in_seq; lia)).
  rewrite forallb_forall in H.
  specialize (H k ltac:(apply in_seq; lia)).
  apply andb_true_iff in H. destruct H as [H1 H2].
  split; [exact H1 |].
  intros b Hb. rewrite forallb_forall in H2.
  apply H2. apply in_seq. lia.
Qed.

Lemma rounded_share_of_counts (k n : nat) :
  1 <= n <= 15 -> k <= n ->
  Rounded.rounded_share k n (F64.of_nat k / F64.of_nat n)%float.
Proof.
  intros Hn Hk.
  destruct (rounded_share_checked k n Hn Hk) as [H _].
  unfold Rounded.share_check in H. cbv zeta in H.
  repeat (apply andb_true_iff in H; destruct H as [H ?]).
  unfold Rounded.rounded_share.
  split; [reflexivity |].
  split; [apply Qle_bool_iff; exact H |].
  split; [assumption |]. split; [assumption |].
  split; apply Bool.eqb_prop; assumption.
Qed.

Lemma rounded_vote_shares_share (bs : list Rounded.Ballot) :
  1 <= length bs <= 15 ->
  Rounded.vote_shares bs (Rounded.share YES bs) (Rounded.share NO bs)
    (Rounded.share NULL bs).
Proof.
  intro Hn.
  pose proof (rounded_count_vote_partition bs) as Hp.
  pose proof (rounded_count_vote_le YES bs) as HY.
  pose proof (rounded_count_vote_le NO bs) as HN.
  pose proof (rounded_count_vote_le NULL bs) as HU.
  unfold Rounded.vote_shares, Rounded.share.
  split; [lia |]. split; [lia |].
  split; [apply rounded_share_of_counts; assumption |].
  split; [apply rounded_share_of_counts; assumption |].
  split; [apply rounded_share_of_counts; assumption |].
  destruct (rounded_share_checked (Rounded.count_vote YES bs) (length bs) Hn HY)
    as [_ H].
  specialize (H (Rounded.count_vote NO bs) ltac:(lia)).
  unfold Rounded.sum_check in H. cbv zeta in H.
  replace (length bs - Rounded.count_vote YES bs - Rounded.count_vote NO bs)
    with (Rounded.count_vote NULL bs) in H by lia.
  apply Qle_bool_iff. exact H.
Qed.

(* ===================================================================== *)
(** ** C8: events of a run                                                *)
(* ===================================================================== *)


(* ===================================================================== *)
(** ** C1: the reported probabilities                                     *)
(* ===================================================================== *)

Lemma rounded_ballots_upto_reachable rng evidence i :
  1 <= i <= NUM_ITER ->
  1 <= length (Rounded.ballots_upto rng evidence i) <= 15.
Proof.
  intro Hi. rewrite rounded_ballots_upto_length.
  unfold COMMITTEE, NUM_ITER in *. lia.
Qed.

(** C1, as the code has it.  Every probability the simulation reports is
    the share of a vote among the ballots recorded so far, with nothing
    added to the counts: the count [n_k] divided by the number
    [N = n_Y + n_N + n_0 >= COMMITTEE] of ballots, the quotient being
    rounded to binary64.  Each [onSnapshot] of iteration [i] reports the
    shares over the first [COMMITTEE * i] ballots and [onVerdict] reports
    the shares over all ballots.  A reported share is within [2^-54] of
    [n_k / N], lies in [[0, 1]], is 0 exactly when no ballot has the vote
    and 1 exactly when all have it; the exact values of the three add up
    to 1 up to [2^-53].  After the ballots [YES,YES,NO] then [YES,NO,NULL]
    the snapshot of iteration 2 carries the numbers 0.5,
    0.3333333333333333 and 0.16666666666666666, whose exact sum is below
    1. *)
Theorem reported_probabilities_are_vote_shares
  (Math_random : nat -> float) (evidence : list EvidenceItem) (q : string)
  (n : nat) :
  Forall
    (fun e =>
       match e with
       | Rounded.OnSnapshot c =>
           1 <= Rounded.cp_iteration c <= NUM_ITER /\
           Rounded.vote_shares
             (firstn (COMMITTEE * Rounded.cp_iteration c)
                (Rounded.allBallots
                   (Rounded.mockSimulation Math_random evidence q n)))
             (Rounded.cp_p_yes c) (Rounded.cp_p_no c) (Rounded.cp_p_null c)
       | Rounded.OnVerdict v =>
           Rounded.ballots v
           = Rounded.allBallots
               (Rounded.mockSimulation Math_random evidence q n) /\
           Rounded.vote_shares (Rounded.ballots v)
             (Rounded.p_yes v) (Rounded.p_no v) (Rounded.p_null v)
       end)
    (Rounded.emitted (Rounded.mockSimulation Math_random evidence q n)) /\
  map Rounded.vote (Rounded.allBallots Rounded.scenario_run)
  = [YES; YES; NO; YES; NO; NULL] /\
  nth_error (Rounded.snapshots_of (Rounded.emitted Rounded.scenario_run)) 1
  = Some {| Rounded.cp_iteration := 2;
            Rounded.cp_p_yes := 0.5;
            Rounded.cp_p_no := 0.3333333333333333;
            Rounded.cp_p_null := 0.16666666666666666 |} /\
  (F64.to_Q 0.5 + F64.to_Q 0.3333333333333333 + F64.to_Q 0.16666666666666666
   < 1)%Q.
Proof.
  split; [| split; [| split]; vm_compute; reflexivity].
  rewrite rounded_mockSimulation_after.
  set (t := Nat.min n NUM_ITER).
  assert (Ht : t <= NUM_ITER) by (unfold t; lia).
  unfold Rounded.after. cbn [Rounded.emitted Rounded.allBallots].
  apply Forall_app. split.
  - apply Forall_map. apply Forall_forall. intros i Hi.
    apply in_seq in Hi.
    cbn [Rounded.snapshot_of Rounded.cp_iteration Rounded.cp_p_yes
         Rounded.cp_p_no Rounded.cp_p_null].
    split; [lia |].
    rewrite rounded_ballots_upto_prefix by lia.
    apply rounded_vote_shares_share.
    apply rounded_ballots_upto_reachable. lia.
  - destruct (NUM_ITER <=? t) eqn:E; [| constructor].
    constructor; [| constructor].
    cbn [Rounded.verdict_of Rounded.ballots Rounded.p_yes Rounded.p_no
         Rounded.p_null].
    split; [reflexivity |].
    apply rounded_vote_shares_share.
    apply rounded_ballots_upto_reachable.
    apply Nat.leb_le in E. unfold NUM_ITER in *. lia.
Qed.

(** C1 fails as stated: after the ballots [YES,YES,NO] and [YES,NO,NULL]
    (counts 3, 2, 1) the snapshot of iteration 2 carries 0.5,
    0.3333333333333333 and 0.16666666666666666, the numbers for 3/6, 2/6
    and 1/6, not the smoothed vector (4/9, 3/9, 2/9) given by
    [(n_k + 1) / (N + 3)]: the reported YES and NULL values are more than
    1/20 away from it. *)
Lemma scenario_snapshot_is_not_smoothed :
  map Rounded.vote (Rounded.allBallots Rounded.scenario_run)
  = [YES; YES; NO; YES; NO; NULL] /\
  exists c,
    nth_error (Rounded.snapshots_of (Rounded.emitted Rounded.scenario_run)) 1
    = Some c /\
    Rounded.cp_iteration c = 2 /\
    Rounded.cp_p_yes c = 0.5%float /\
    Rounded.cp_p_no c = 0.3333333333333333%float /\
    Rounded.cp_p_null c = 0.16666666666666666%float /\
    (F64.to_Q (Rounded.cp_p_yes c) == 1 # 2)%Q /\
    (Claimed.posterior_mean 3 6 == 4 # 9)%Q /\
    (Claimed.posterior_mean 2 6 == 3 # 9)%Q /\
    (Claimed.posterior_mean 1 6 == 2 # 9)%Q /\
    (1 # 20 < Qabs (F64.to_Q (Rounded.cp_p_yes c) - Claimed.posterior_mean 3 6))%Q /\
    (1 # 20 < Qabs (F64.to_Q (Rounded.cp_p_null c) - Claimed.posterior_mean 1 6))%Q.
Proof.
  split; [vm_compute; reflexivity |].
  eexists. split; [vm_compute; reflexivity |].
  cbn [Rounded.cp_iteration Rounded.cp_p_yes Rounded.cp_p_no Rounded.cp_p_null].
  repeat split; vm_compute; reflexivity.
Qed.

(* ===================================================================== *)
(** ** C2: the reported intervals                                         *)
(* ===================================================================== *)

Lemma clamp01_bounds (x : R) : (0 <= clamp01 x <= 1)%R.
Proof.
  unfold clamp01. split.
  - apply Rmax_l.
  - apply Rmax_lub; [lra | apply Rmin_l].
Qed.

Lemma clamp01_monotone (x y : R) : (x <= y)%R -> (clamp01 x <= clamp01 y)%R.
Proof.
  intro H. unfold clamp01.
  apply Rle_max_compat_l. apply Rle_min_compat_l. exact H.
Qed.

Lemma clamped_pair_proper (p d : R) :
  (0 <= d)%R -> proper_interval (clamp01 (p - d), clamp01 (p + d)).
Proof.
  intro Hd. unfold proper_interval. cbn [fst snd].
  split; [apply clamp01_bounds |].
  split; [apply clamp01_monotone; lra | apply clamp01_bounds].
Qed.

Lemma normal_interval_proper (p : Q) (total : nat) :
  proper_interval (normal_interval p total).
Proof.
  unfold normal_interval. apply clamped_pair_proper.
  apply Rmult_le_pos; [lra | apply sqrt_pos].
Qed.

Lemma Q2R_unit (p : Q) :
  (0 <= p)%Q -> (p <= 1)%Q -> (0 <= Q2R p <= 1)%R.
Proof.
  intros H0 H1. split.
  - replace 0%R with (Q2R 0) by (unfold Q2R; simpl; lra).
    apply Qle_Rle. exact H0.
  - replace 1%R with (Q2R 1) by (unfold Q2R; simpl; lra).
    apply Qle_Rle. exact H1.
Qed.

(** The number under the square root is not negative, so the square root
    of the code is the real one. *)
Lemma radicand_nonneg (p : Q) (N : R) :
  (0 <= p)%Q -> (p <= 1)%Q -> (0 < N)%R ->
  (0 <= Q2R p * (1 - Q2R p) / N)%R.
Proof.
  intros H0 H1 HN. destruct (Q2R_unit p H0 H1) as [Ha Hb].
  apply Rmult_le_pos.
  - apply Rmult_le_pos; lra.
  - left. apply Rinv_0_lt_compat. exact HN.
Qed.

Lemma share_of_vote_shares (bs : list Ballot) (k : Vote) :
  bs <> [] -> (0 <= share k bs)%Q /\ (share k bs <= 1)%Q /\
              (0 < INR (length bs))%R.
Proof.
  intro Hne. destruct (share_bounds k bs Hne) as [H0 H1].
  split; [exact H0 |]. split; [exact H1 |].
  apply lt_0_INR. destruct bs; [congruence | simpl; lia].
Qed.

(** C2, as the code has it.  The interval reported for each category [k]
    is the normal-approximation interval around the reported vote share
    [p_k]: with [se = sqrt (p_k (1 - p_k) / N)] and [z = 1.96], the pair
    [(clamp01 (p_k - z se), clamp01 (p_k + z se))].  It is a function of
    the vote counts alone: no confidence level, sample count or random draw
    enters it.  The number under the square root is non-negative, and the
    interval satisfies [0 <= lower <= upper <= 1].  The same bounds hold
    for [normalApproxCI] of the earlier demo on every share [p] in [[0,1]]
    and every count [m] (for [m <= 0] it returns [(0, 0)]). *)
Theorem interval_is_clamped_normal_approximation
  (rng : nat -> Q) (evidence : list EvidenceItem) (q : string) (n : nat)
  (p : Q) (m : Z) :
  (0 <= p)%Q -> (p <= 1)%Q ->
  Forall
    (fun v => forall k,
       (0 < INR (length (ballots v)))%R /\
       (0 <= Q2R (prob_of k v) * (1 - Q2R (prob_of k v))
             / INR (length (ballots v)))%R /\
       interval_of k (credible_intervals_95 v)
       = (clamp01 (Q2R (prob_of k v)
                   - 196 / 100
                     * sqrt (Q2R (prob_of k v) * (1 - Q2R (prob_of k v))
                             / INR (length (ballots v)))),
          clamp01 (Q2R (prob_of k v)
                   + 196 / 100
                     * sqrt (Q2R (prob_of k v) * (1 - Q2R (prob_of k v))
                             / INR (length (ballots v)))))%R /\
       proper_interval (interval_of k (credible_intervals_95 v)))
    (verdicts_of (emitted (mockSimulation rng evidence q n))) /\
  proper_interval (Demo.normalApproxCI p m) /\
  ((m <= 0)%Z -> Demo.normalApproxCI p m = (0, 0)%R) /\
  ((0 < m)%Z ->
   (0 <= Q2R p * (1 - Q2R p) / IZR m)%R /\
   Demo.normalApproxCI p m
   = (clamp01 (Q2R p - 196 / 100 * sqrt (Q2R p * (1 - Q2R p) / IZR m)),
      clamp01 (Q2R p + 196 / 100 * sqrt (Q2R p * (1 - Q2R p) / IZR m)))%R).
Proof.
  intros Hp0 Hp1. split.
  - rewrite mockSimulation_after, verdicts_after.
    destruct (NUM_ITER <=? Nat.min n NUM_ITER) eqn:E; [| constructor].
    constructor; [| constructor].
    intro k.
    assert (Hne : ballots_upto rng evidence (Nat.min n NUM_ITER) <> []).
    { apply ballots_upto_nonempty. apply Nat.leb_le in E.
      unfold NUM_ITER in E |- *. lia. }
    destruct (share_of_vote_shares _ k Hne) as [H0 [H1 HN]].
    cbn [verdict_of ballots credible_intervals_95].
    assert (Hp : prob_of k (verdict_of q
                   (ballots_upto rng evidence (Nat.min n NUM_ITER)))
                 = share k (ballots_upto rng evidence (Nat.min n NUM_ITER))).
    { destruct k; reflexivity. }
    rewrite Hp.
    split; [exact HN |].
    split; [apply radicand_nonneg; assumption |].
    split.
    + destruct k; reflexivity.
    + destruct k; apply normal_interval_proper.
  - unfold Demo.normalApproxCI.
    destruct (m <=? 0)%Z eqn:E.
    + apply Z.leb_le in E.
      split; [unfold proper_interval; cbn [fst snd]; lra |].
      split; [reflexivity | intro; lia].
    + apply Z.leb_gt in E.
      split.
      * apply clamped_pair_proper.
        apply Rmult_le_pos; [lra | apply sqrt_pos].
      * split; [intro; lia |].
        intros _. split; [| reflexivity].
        apply radicand_nonneg; try assumption.
        apply IZR_lt. exact E.
Qed.

(** The hypotheses of C2 are met at share 1/2 and count 10. *)
Lemma interval_is_clamped_normal_approximation_witness :
  proper_interval (Demo.normalApproxCI (1 # 2) 10) /\
  Forall
    (fun v => forall k, proper_interval (interval_of k (credible_intervals_95 v)))
    (verdicts_of (emitted unanimous_run)).
Proof.
  assert (H0 : (0 <= 1 # 2)%Q) by (unfold Qle; simpl; lia).
  assert (H1 : (1 # 2 <= 1)%Q) by (unfold Qle; simpl; lia).
  pose proof (interval_is_clamped_normal_approximation
                rng_zero no_evidence a_question 5 (1 # 2) 10 H0 H1) as H.
  destruct H as [Hrun [Hdemo _]].
  split; [exact Hdemo |].
  unfold unanimous_run.
  eapply Forall_impl; [| exact Hrun].
  intros v Hv k. apply (Hv k).
Defined.

Lemma clamp01_0 : clamp01 0 = 0%R.
Proof.
  unfold clamp01. rewrite Rmin_right by lra. apply Rmax_left. lra.
Qed.

Lemma clamp01_1 : clamp01 1 = 1%R.
Proof.
  unfold clamp01. rewrite Rmin_left by lra. apply Rmax_right. lra.
Qed.

(** A component of a Dirichlet draw is strictly between 0 and 1. *)
Lemma dirichlet_component_open (k : Vote) (g : R * R * R) :
  Claimed.gamma_draw_ok g ->
  (0 < Claimed.component k (Claimed.normalise g) < 1)%R.
Proof.
  destruct g as [[a b] c]. unfold Claimed.gamma_draw_ok.
  intros [Ha [Hb Hc]].
  assert (Hs : (0 < a + b + c)%R) by lra.
  assert (Hlt : forall x, (0 < x)%R -> (x < a + b + c)%R ->
                          (0 < x / (a + b + c) < 1)%R).
  { intros x Hx Hxs. split.
    - apply Rdiv_lt_0_compat; assumption.
    - apply Rmult_lt_reg_r with (a + b + c)%R; [exact Hs |].
      unfold Rdiv. rewrite Rmult_assoc, Rinv_l by lra. lra. }
  unfold Claimed.normalise, Claimed.component.
  destruct k; apply Hlt; lra.
Qed.

Lemma unanimous_run_verdict :
  verdicts_of (emitted unanimous_run) = [unanimous_verdict].
Proof.
  unfold unanimous_run. rewrite mockSimulation_after, verdicts_after.
  reflexivity.
Qed.

Lemma unanimous_shares :
  share YES (ballots_upto rng_zero no_evidence 5) = (15 # 15)%Q /\
  share NO (ballots_upto rng_zero no_evidence 5) = (0 # 15)%Q /\
  share NULL (ballots_upto rng_zero no_evidence 5) = (0 # 15)%Q.
Proof. repeat split; vm_compute; reflexivity. Qed.

(** C2 fails as stated: when all fifteen ballots are YES the interval
    reported for NO is [(0, 0)] and the one for YES is [(1, 1)], whereas
    every percentile of Dirichlet draws lies strictly inside (0, 1); the
    reported interval is no percentile interval of any sample. *)
Lemma unanimous_interval_is_no_dirichlet_percentile :
  verdicts_of (emitted unanimous_run) = [unanimous_verdict] /\
  interval_of NO (credible_intervals_95 unanimous_verdict) = (0, 0)%R /\
  interval_of YES (credible_intervals_95 unanimous_verdict) = (1, 1)%R /\
  ~ (exists gs,
        Claimed.percentile_interval NO gs
          (interval_of NO (credible_intervals_95 unanimous_verdict))).
Proof.
  destruct unanimous_shares as [HY [HN _]].
  assert (Hno : interval_of NO (credible_intervals_95 unanimous_verdict)
                = (0, 0)%R).
  { unfold unanimous_verdict.
    cbn [verdict_of credible_intervals_95 interval_of ci_NO].
    rewrite HN. unfold normal_interval.
    replace (Q2R (0 # 15)) with 0%R by (unfold Q2R; simpl; lra).
    replace (0 * (1 - 0) / INR (length (ballots_upto rng_zero no_evidence 5)))%R
      with 0%R by (unfold Rdiv; ring).
    rewrite sqrt_0.
    replace (0 - 196 / 100 * 0)%R with 0%R by lra.
    replace (0 + 196 / 100 * 0)%R with 0%R by lra.
    rewrite clamp01_0. reflexivity. }
  split; [exact unanimous_run_verdict |].
  split; [exact Hno |].
  split.
  - unfold unanimous_verdict.
    cbn [verdict_of credible_intervals_95 interval_of ci_YES].
    rewrite HY. unfold normal_interval.
    replace (Q2R (15 # 15)) with 1%R by (unfold Q2R; simpl; lra).
    replace (1 * (1 - 1) / INR (length (ballots_upto rng_zero no_evidence 5)))%R
      with 0%R by (unfold Rdiv; ring).
    rewrite sqrt_0.
    replace (1 - 196 / 100 * 0)%R with 1%R by lra.
    replace (1 + 196 / 100 * 0)%R with 1%R by lra.
    rewrite clamp01_1. reflexivity.
  - rewrite Hno. intros [gs [_ [Hok [[[x [Hin Hle]] _] _]]]].
    cbn [fst] in Hle.
    apply in_map_iff in Hin. destruct Hin as [g [Hx Hg]].
    rewrite Forall_forall in Hok. specialize (Hok g Hg).
    pose proof (dirichlet_component_open NO g Hok) as Hopen.
    rewrite Hx in Hopen. lra.
Qed.

(** The bounds of C2 on binary64 numbers: whatever the fifteen votes of a
    complete run are, each reported interval computed with the rounded
    operations satisfies [0 <= lower <= p_k <= upper <= 1] too. *)
Lemma rounded_interval_checked :
  forallb
    (fun k =>
       Rounded.interval_around (F64.of_nat k / F64.of_nat 15)%float
         (Rounded.normal_interval (F64.of_nat k / F64.of_nat 15)%float 15))
    (seq 0 16)
  = true.
Proof. vm_compute. reflexivity. Qed.

Lemma rounded_intervals_are_proper
  (Math_random : nat -> float) (evidence : list EvidenceItem) (q : string)
  (n : nat) :
  Forall
    (fun v => forall k,
       Rounded.interval_around (Rounded.prob_of k v)
         (Rounded.interval_of k (Rounded.credible_intervals_95 v)) = true)
    (Rounded.verdicts_of
       (Rounded.emitted (Rounded.mockSimulation Math_random evidence q n))).
Proof.
  rewrite rounded_mockSimulation_after, rounded_verdicts_after.
  destruct (NUM_ITER <=? Nat.min n NUM_ITER) eqn:E; [| constructor].
  constructor; [| constructor].
  assert (Et : Nat.min n NUM_ITER = 5).
  { apply Nat.leb_le in E. unfold NUM_ITER in *. lia. }
  rewrite Et.
  pose proof rounded_interval_checked as H. rewrite forallb_forall in H.
  intro k.
  assert (G : Rounded.interval_around
                (Rounded.share k (Rounded.ballots_upto Math_random evidence 5))
                (Rounded.normal_interval
                   (Rounded.share k (Rounded.ballots_upto Math_random evidence 5))
                   (length (Rounded.ballots_upto Math_random evidence 5)))
              = true).
  { unfold Rounded.share. rewrite rounded_ballots_upto_length.
    apply H. apply in_seq.
    pose proof (rounded_count_vote_le k
                  (Rounded.ballots_upto Math_random evidence 5)) as Hle.
    rewrite rounded_ballots_upto_length in Hle.
    unfold COMMITTEE in Hle. lia. }
  destruct k; exact G.
Qed.

(* ===================================================================== *)
(** ** C3: the committee of an iteration                                  *)
(* ===================================================================== *)

Lemma rounded_new_ballots_iteration rng evidence it pos n :
  Forall (fun b => Rounded.iteration b = it)
    (Rounded.new_ballots rng evidence it pos n).
Proof.
  unfold Rounded.new_ballots. apply Forall_map. apply Forall_forall.
  intros k _. reflexivity.
Qed.

Lemma rounded_committee_at_block rng evidence it pos n t :
  Rounded.committee_at t (Rounded.new_ballots rng evidence it pos n)
  = if it =? t then Rounded.new_ballots rng evidence it pos n else [].
Proof.
  unfold Rounded.committee_at.
  pose proof (rounded_new_ballots_iteration rng evidence it pos n) as H.
  induction (Rounded.new_ballots rng evidence it pos n) as [| b l IH].
  - destruct (it =? t); reflexivity.
  - inversion H as [| ? ? Hb Hl]; subst. cbn [filter].
    rewrite (IH Hl).
    destruct (Rounded.iteration b =? t); reflexivity.
Qed.

Lemma rounded_committee_at_ballots_upto rng evidence T :
  forall t,
    Rounded.committee_at t (Rounded.ballots_upto rng evidence T)
    = if (1 <=? t) && (t <=? T)
      then Rounded.new_ballots rng evidence t (15 * (t - 1)) COMMITTEE
      else [].
Proof.
  induction T as [| T IH]; intro t.
  - cbn [Rounded.ballots_upto seq flat_map Rounded.committee_at filter].
    destruct (1 <=? t) eqn:E1; [| reflexivity].
    destruct (t <=? 0) eqn:E2; [| reflexivity].
    apply Nat.leb_le in E1, E2. lia.
  - rewrite rounded_ballots_upto_S. unfold Rounded.committee_at at 1.
    rewrite filter_app.
    fold (Rounded.committee_at t (Rounded.ballots_upto rng evidence T)).
    fold (Rounded.committee_at t
            (Rounded.new_ballots rng evidence (S T) (15 * T) COMMITTEE)).
    rewrite IH, rounded_committee_at_block.
    destruct (S T =? t) eqn:E.
    + apply Nat.eqb_eq in E. subst t.
      replace (S T <=? T) with false by (symmetry; apply Nat.leb_gt; lia).
      rewrite Nat.leb_refl, andb_false_r.
      replace (1 <=? S T) with true by (symmetry; apply Nat.leb_le; lia).
      cbn [andb app]. replace (S T - 1) with T by lia. reflexivity.
    + apply Nat.eqb_neq in E. rewrite app_nil_r.
      replace (t <=? S T) with (t <=? T); [reflexivity |].
      destruct (t <=? T) eqn:E1; symmetry.
      * apply Nat.leb_le in E1. apply Nat.leb_le. lia.
      * apply Nat.leb_gt in E1. apply Nat.leb_gt. lia.
Qed.

(** The archetypes of the committee of a completed iteration, from the
    three values of [Math.random] that draw them. *)
Lemma rounded_committee_archetypes rng evidence q n t :
  1 <= t -> t <= Nat.min n NUM_ITER ->
  map Rounded.archetype
    (Rounded.committee_at t
       (Rounded.allBallots (Rounded.mockSimulation rng evidence q n)))
  = map (fun k =>
           F64.index_floor MOCK_ARCHETYPES
             (rng (15 * (t - 1) + 5 * k)%nat
              * F64.of_nat (length MOCK_ARCHETYPES))%float)
        (seq 0 COMMITTEE).
Proof.
  intros H1 Ht.
  rewrite rounded_mockSimulation_after. cbn [Rounded.after Rounded.allBallots].
  rewrite rounded_committee_at_ballots_upto.
  replace (1 <=? t) with true by (symmetry; apply Nat.leb_le; exact H1).
  replace (t <=? Nat.min n NUM_ITER) with true
    by (symmetry; apply Nat.leb_le; exact Ht).
  cbn [andb].
  unfold Rounded.new_ballots. rewrite map_map. apply map_ext.
  intro k. reflexivity.
Qed.

Lemma draw_for_picks (i : nat) :
  i < length MOCK_ARCHETYPES ->
  F64.in_unit (Rounded.draw_for i) = true /\
  F64.index_floor MOCK_ARCHETYPES
    (Rounded.draw_for i * F64.of_nat (length MOCK_ARCHETYPES))%float
  = nth_error MOCK_ARCHETYPES i.
Proof.
  intro Hi. cbn [MOCK_ARCHETYPES length] in Hi.
  do 5 (destruct i as [| i]; [split; vm_compute; reflexivity |]).
  lia.
Qed.

Lemma demo_draw_for_picks (j : nat) :
  j < length Demo.archetypes ->
  F64.in_unit (Demo.draw_for j) = true /\
  Demo.pick_archetype (Demo.draw_for j) = nth_error Demo.archetypes j.
Proof.
  intro Hj. cbn [Demo.archetypes length] in Hj.
  do 7 (destruct j as [| j]; [split; vm_compute; reflexivity |]).
  lia.
Qed.

Lemma rng_of_committee_ok (t i0 i1 i2 : nat) :
  i0 < length MOCK_ARCHETYPES -> i1 < length MOCK_ARCHETYPES ->
  i2 < length MOCK_ARCHETYPES ->
  Rounded.random_ok (Rounded.rng_of_committee t i0 i1 i2).
Proof.
  intros H0 H1 H2 i. unfold Rounded.rng_of_committee.
  destruct (i =? 15 * (t - 1)); [apply draw_for_picks; exact H0 |].
  destruct (i =? 15 * (t - 1) + 5); [apply draw_for_picks; exact H1 |].
  destruct (i =? 15 * (t - 1) + 10); [apply draw_for_picks; exact H2 |].
  reflexivity.
Qed.

(** C3, as the code has it.  In every completed iteration [t] the committee
    has [COMMITTEE = 3] members; member [k] is the pool entry
    [MOCK_ARCHETYPES[floor (r * 5)]] for its own fresh value [r] of
    [Math.random] (the first of the five values that ballot consumes; the
    product is the rounded one), by no rule that looks at earlier members
    or earlier committees.  The draw is with replacement: whatever three
    pool entries [i0], [i1], [i2] one names, repeated or not, there are
    values of [Math.random] in [[0, 1)] for which the committee of
    iteration [t] is exactly these three, in that order.  Committee and
    pool sizes are the constants 3 and 5, so there is no configuration to
    check.  The earlier demo draws from its pool of seven in the same
    way: every entry [j] is picked by some value in [[0, 1)]. *)
Theorem committee_is_drawn_with_replacement
  (Math_random : nat -> float) (evidence : list EvidenceItem) (q : string)
  (n t i0 i1 i2 j : nat) :
  1 <= t -> t <= Nat.min n NUM_ITER ->
  i0 < length MOCK_ARCHETYPES -> i1 < length MOCK_ARCHETYPES ->
  i2 < length MOCK_ARCHETYPES -> j < length Demo.archetypes ->
  map Rounded.archetype
    (Rounded.committee_at t
       (Rounded.allBallots (Rounded.mockSimulation Math_random evidence q n)))
  = map (fun k =>
           F64.index_floor MOCK_ARCHETYPES
             (Math_random (15 * (t - 1) + 5 * k)%nat
              * F64.of_nat (length MOCK_ARCHETYPES))%float)
        (seq 0 COMMITTEE) /\
  length (Rounded.committee_at t
            (Rounded.allBallots
               (Rounded.mockSimulation Math_random evidence q n)))
  = COMMITTEE /\
  Rounded.random_ok (Rounded.rng_of_committee t i0 i1 i2) /\
  map Rounded.archetype
    (Rounded.committee_at t
       (Rounded.allBallots
          (Rounded.mockSimulation (Rounded.rng_of_committee t i0 i1 i2)
             evidence q n)))
  = [nth_error MOCK_ARCHETYPES i0; nth_error MOCK_ARCHETYPES i1;
     nth_error MOCK_ARCHETYPES i2] /\
  1 <= COMMITTEE <= length MOCK_ARCHETYPES /\
  1 <= Demo.COMMITTEE_SIZE <= length Demo.archetypes /\
  F64.in_unit (Demo.draw_for j) = true /\
  Demo.pick_archetype (Demo.draw_for j) = nth_error Demo.archetypes j.
Proof.
  intros H1 Ht Hi0 Hi1 Hi2 Hj.
  split; [apply rounded_committee_archetypes; assumption |].
  split.
  { rewrite <- (length_map Rounded.archetype).
    rewrite rounded_committee_archetypes by assumption.
    rewrite length_map. apply length_seq. }
  split; [apply rng_of_committee_ok; assumption |].
  split.
  { rewrite rounded_committee_archetypes by assumption.
    unfold COMMITTEE. cbn [seq map].
    unfold Rounded.rng_of_committee.
    replace (15 * (t - 1) + 5 * 0) with (15 * (t - 1)) by lia.
    replace (15 * (t - 1) + 5 * 1) with (15 * (t - 1) + 5) by lia.
    replace (15 * (t - 1) + 5 * 2) with (15 * (t - 1) + 10) by lia.
    rewrite !Nat.eqb_refl.
    replace (15 * (t - 1) + 5 =? 15 * (t - 1)) with false
      by (symmetry; apply Nat.eqb_neq; lia).
    replace (15 * (t - 1) + 10 =? 15 * (t - 1)) with false
      by (symmetry; apply Nat.eqb_neq; lia).
    replace (15 * (t - 1) + 10 =? 15 * (t - 1) + 5) with false
      by (symmetry; apply Nat.eqb_neq; lia).
    rewrite (proj2 (draw_for_picks i0 Hi0)), (proj2 (draw_for_picks i1 Hi1)),
      (proj2 (draw_for_picks i2 Hi2)).
    reflexivity. }
  split; [unfold COMMITTEE; simpl; lia |].
  split; [unfold Demo.COMMITTEE_SIZE; simpl; lia |].
  apply demo_draw_for_picks. exact Hj.
Qed.

(** The hypotheses of C3 are met by the first iteration of a complete run,
    for the committee that is three times the third pool entry. *)
Lemma committee_is_drawn_with_replacement_witness :
  map Rounded.archetype
    (Rounded.committee_at 1
       (Rounded.allBallots
          (Rounded.mockSimulation (Rounded.rng_of_committee 1 2 2 2)
             no_evidence a_question 5)))
  = [Some "skeptic"%string; Some "skeptic"%string; Some "skeptic"%string].
Proof.
  assert (H1 : 1 <= 1) by lia.
  assert (H2 : 1 <= Nat.min 5 NUM_ITER) by (unfold NUM_ITER; simpl; lia).
  assert (H3 : 2 < length MOCK_ARCHETYPES) by (simpl; lia).
  assert (H4 : 0 < length Demo.archetypes) by (simpl; lia).
  exact (proj1 (proj2 (proj2 (proj2
           (committee_is_drawn_with_replacement
              Rounded.rng_zero no_evidence a_question 5 1 2 2 2 0
              H1 H2 H3 H3 H3 H4))))).
Defined.

Lemma rounded_rng_zero_ok : Rounded.random_ok Rounded.rng_zero.
Proof. intro i. reflexivity. Qed.


(** C3 fails as stated: with every random value equal to 0 (a value
    [Math.random] may return) the committee of the first iteration is three
    times the same archetype, so its members are not pairwise distinct; the
    earlier demo draws the same archetype for equal random values too. *)
Lemma first_committee_repeats_one_archetype :
  Rounded.random_ok Rounded.rng_zero /\
  map Rounded.archetype
    (Rounded.committee_at 1 (Rounded.allBallots Rounded.scenario_run))
  = [Some "strict_empiricist"%string; Some "strict_empiricist"%string;
     Some "strict_empiricist"%string] /\
  ~ NoDup (map Rounded.archetype
             (Rounded.committee_at 1 (Rounded.allBallots Rounded.scenario_run))) /\
  option_map Demo.name (Demo.pick_archetype (Rounded.rng_zero 0))
  = Some "Strict Empiricist"%string /\
  Demo.pick_archetype (Rounded.rng_zero 0)
  = Demo.pick_archetype (Rounded.rng_zero 1).
Proof.
  assert (E : map Rounded.archetype
                (Rounded.committee_at 1
                   (Rounded.allBallots Rounded.scenario_run))
              = [Some "strict_empiricist"%string;
                 Some "strict_empiricist"%string;
                 Some "strict_empiricist"%string])
    by (vm_compute; reflexivity).
  split; [exact rounded_rng_zero_ok |].
  split; [exact E |].
  split.
  - rewrite E. intro H. inversion H as [| ? ? Hnotin _]; subst.
    apply Hnotin. left. reflexivity.
  - split; [vm_compute; reflexivity | reflexivity].
Qed.

(* ===================================================================== *)
(** ** C4: no early stopping                                              *)
(* ===================================================================== *)

(** C4, as the code has it.  The simulation keeps no previous snapshot and
    no counter and computes no divergence: no iteration, the first
    included, signals convergence.  Whatever the votes, the run stops
    exactly when iteration [NUM_ITER = 5] completes, and the result it then
    reports has a null converged-at field. *)
Theorem run_never_converges_early
  (rng : nat -> Q) (evidence : list EvidenceItem) (q : string) (n : nat) :
  iter (mockSimulation rng evidence q n) = Nat.min n NUM_ITER /\
  cleared (mockSimulation rng evidence q n) = (NUM_ITER <=? n) /\
  Forall (fun v => converged_at_iteration v = None /\
                   num_iterations v = NUM_ITER)
    (verdicts_of (emitted (mockSimulation rng evidence q n))).
Proof.
  rewrite mockSimulation_after.
  split; [reflexivity |].
  split; [apply min_iter_leb |].
  rewrite verdicts_after.
  destruct (NUM_ITER <=? Nat.min n NUM_ITER); constructor.
  - split; reflexivity.
  - constructor.
Qed.

Lemma log2_1 : Claimed.log2 1 = 0%R.
Proof. unfold Claimed.log2. rewrite ln_1. unfold Rdiv. ring. Qed.

Lemma D_KL_thirds :
  Claimed.D_KL (1 / 3, 1 / 3, 1 / 3)%R (1 / 3, 1 / 3, 1 / 3)%R = 0%R.
Proof.
  unfold Claimed.D_KL.
  replace (1 / 3 / (1 / 3))%R with 1%R by (field; lra).
  rewrite log2_1. ring.
Qed.

Lemma observe_thirds_again (eps : R) (c : nat) :
  (0 < eps)%R ->
  Claimed.observe eps
    {| Claimed.previous := Some (1 / 3, 1 / 3, 1 / 3)%R; Claimed.counter := c |}
    (1 / 3, 1 / 3, 1 / 3)%R
  = {| Claimed.previous := Some (1 / 3, 1 / 3, 1 / 3)%R;
       Claimed.counter := S c |}.
Proof.
  intro Heps. unfold Claimed.observe. cbn [Claimed.previous Claimed.counter].
  rewrite D_KL_thirds.
  destruct (Rlt_dec 0 eps) as [_ | Hn]; [reflexivity | contradiction].
Qed.

Lemma converged_at_cons (eps : R) (tau : nat) (d : Claimed.Detector)
  (it : nat) (P : R * R * R) (rest : list (R * R * R)) :
  Claimed.converged_at eps tau d it (P :: rest)
  = if Claimed.counter (Claimed.observe eps d P) =? tau then Some it
    else Claimed.converged_at eps tau (Claimed.observe eps d P) (S it) rest.
Proof. reflexivity. Qed.

Lemma observe_first (eps : R) (P : R * R * R) :
  Claimed.observe eps {| Claimed.previous := None; Claimed.counter := 0 |} P
  = {| Claimed.previous := Some P; Claimed.counter := 0 |}.
Proof. reflexivity. Qed.

Lemma even_run_snapshots :
  snapshots_of (emitted even_run)
  = [ {| cp_iteration := 1; cp_p_yes := 1 # 3; cp_p_no := 1 # 3;
         cp_p_null := 1 # 3 |};
      {| cp_iteration := 2; cp_p_yes := 2 # 6; cp_p_no := 2 # 6;
         cp_p_null := 2 # 6 |};
      {| cp_iteration := 3; cp_p_yes := 3 # 9; cp_p_no := 3 # 9;
         cp_p_null := 3 # 9 |};
      {| cp_iteration := 4; cp_p_yes := 4 # 12; cp_p_no := 4 # 12;
         cp_p_null := 4 # 12 |};
      {| cp_iteration := 5; cp_p_yes := 5 # 15; cp_p_no := 5 # 15;
         cp_p_null := 5 # 15 |} ].
Proof.
  unfold even_run. rewrite mockSimulation_after, snapshots_after.
  vm_compute. reflexivity.
Qed.

Lemma even_run_verdict :
  verdicts_of (emitted even_run) = [even_verdict].
Proof.
  unfold even_run. rewrite mockSimulation_after, verdicts_after.
  reflexivity.
Qed.

Lemma even_run_points :
  map Claimed.point_to_R (snapshots_of (emitted even_run))
  = [ (1 / 3, 1 / 3, 1 / 3); (1 / 3, 1 / 3, 1 / 3); (1 / 3, 1 / 3, 1 / 3);
      (1 / 3, 1 / 3, 1 / 3); (1 / 3, 1 / 3, 1 / 3) ]%R.
Proof.
  rewrite even_run_snapshots.
  unfold Claimed.point_to_R.
  cbn [map cp_p_yes cp_p_no cp_p_null].
  replace (Q2R (1 # 3)) with (1 / 3)%R by (unfold Q2R; simpl; lra).
  replace (Q2R (2 # 6)) with (1 / 3)%R by (unfold Q2R; simpl; lra).
  replace (Q2R (3 # 9)) with (1 / 3)%R by (unfold Q2R; simpl; lra).
  replace (Q2R (4 # 12)) with (1 / 3)%R by (unfold Q2R; simpl; lra).
  replace (Q2R (5 # 15)) with (1 / 3)%R by (unfold Q2R; simpl; lra).
  reflexivity.
Qed.

(** C4 fails as stated: when every iteration votes [YES,NO,NULL] all five
    snapshots are (1/3, 1/3, 1/3), every divergence between consecutive
    snapshots is 0, and with threshold 0.01 and patience 2 the detector the
    claim describes signals at iteration 3.  The run performs all five
    iterations and reports a null converged-at field. *)
Lemma even_run_is_not_stopped_at_iteration_3 :
  map Claimed.point_to_R (snapshots_of (emitted even_run))
  = [ (1 / 3, 1 / 3, 1 / 3); (1 / 3, 1 / 3, 1 / 3); (1 / 3, 1 / 3, 1 / 3);
      (1 / 3, 1 / 3, 1 / 3); (1 / 3, 1 / 3, 1 / 3) ]%R /\
  Claimed.converged_at (1 / 100) 2
    {| Claimed.previous := None; Claimed.counter := 0 |} 1
    (map Claimed.point_to_R (snapshots_of (emitted even_run)))
  = Some 3 /\
  iter even_run = 5 /\
  length (snapshots_of (emitted even_run)) = 5 /\
  verdicts_of (emitted even_run) = [even_verdict] /\
  converged_at_iteration even_verdict = None.
Proof.
  split; [exact even_run_points |].
  split.
  - rewrite even_run_points.
    rewrite converged_at_cons, observe_first.
    cbn [Claimed.counter Nat.eqb].
    rewrite converged_at_cons, observe_thirds_again by lra.
    cbn [Claimed.counter Nat.eqb].
    rewrite converged_at_cons, observe_thirds_again by lra.
    cbn [Claimed.counter Nat.eqb]. reflexivity.
  - split; [unfold even_run; rewrite mockSimulation_after; reflexivity |].
    split; [rewrite even_run_snapshots; reflexivity |].
    split; [exact even_run_verdict | reflexivity].
Qed.

(* ===================================================================== *)
(** ** C5: Fleiss' kappa                                                  *)
(* ===================================================================== *)

(** C5, as the code has it.  The result of every run reports Fleiss' kappa
    as the plain number 0, whatever the votes; the value lies in [[-1, 1]]
    and is never undefined.  Every result covers [T = 5] iterations of
    [M = 3] ballots. *)
Theorem reported_kappa_is_zero
  (rng : nat -> Q) (evidence : list EvidenceItem) (q : string) (n : nat) :
  Forall (fun v => fleiss_kappa v = 0%Q /\
                   (- (1) <= fleiss_kappa v)%Q /\ (fleiss_kappa v <= 1)%Q /\
                   num_iterations v = 5 /\ committee_size v = 3 /\
                   length (ballots v) = 5 * 3)
    (verdicts_of (emitted (mockSimulation rng evidence q n))).
Proof.
  rewrite mockSimulation_after, verdicts_after.
  destruct (NUM_ITER <=? Nat.min n NUM_ITER) eqn:E; constructor.
  - cbn [verdict_of fleiss_kappa num_iterations committee_size ballots].
    split; [reflexivity |].
    split; [unfold Qle; simpl; lia |].
    split; [unfold Qle; simpl; lia |].
    split; [reflexivity |].
    split; [reflexivity |].
    rewrite ballots_upto_length. apply Nat.leb_le in E.
    unfold COMMITTEE, NUM_ITER in *. lia.
  - constructor.
Qed.

(** C5 fails as stated: when all fifteen ballots are YES every committee is
    unanimous and the statistic the claim describes is 1 (both agreement
    terms are 1), but the reported kappa is 0. *)
Lemma unanimous_run_kappa_is_not_one :
  verdicts_of (emitted unanimous_run) = [unanimous_verdict] /\
  forallb (fun t => unanimous t (ballots unanimous_verdict)) (seq 1 5) = true /\
  (Claimed.P_bar 5 3 (ballots unanimous_verdict) == 1)%Q /\
  (Claimed.P_e 5 3 (ballots unanimous_verdict) == 1)%Q /\
  Claimed.fleiss_kappa 5 3 (ballots unanimous_verdict) = Some 1%Q /\
  fleiss_kappa unanimous_verdict = 0%Q /\
  ~ (fleiss_kappa unanimous_verdict == 1)%Q.
Proof.
  change (ballots unanimous_verdict)
    with (ballots_upto rng_zero no_evidence 5).
  change (fleiss_kappa unanimous_verdict) with 0%Q.
  split; [exact unanimous_run_verdict |].
  repeat split;
    first [ reflexivity
          | vm_compute; reflexivity
          | intro H; vm_compute in H; discriminate H ].
Qed.

(* ===================================================================== *)
(** ** C6: effective sample size                                          *)
(* ===================================================================== *)

Lemma new_ballots_model rng evidence it pos n :
  Forall (fun b => model b = "mock-local"%string)
    (new_ballots rng evidence it pos n).
Proof.
  unfold new_ballots. apply Forall_map. apply Forall_forall.
  intros k _. reflexivity.
Qed.

Lemma ballots_upto_model rng evidence t :
  Forall (fun b => model b = "mock-local"%string)
    (ballots_upto rng evidence t).
Proof.
  induction t as [| t IH]; [constructor |].
  rewrite ballots_upto_S. apply Forall_app. split; [exact IH |].
  apply new_ballots_model.
Qed.

(** C6, as the code has it.  The reported effective sample size is the
    number [N] of ballots itself, [N = 15] in every result, with no
    discount for correlation: every ballot carries the one model id
    ["mock-local"], and no cluster statistic is computed.  Hence
    [0 < n_eff <= N], with equality always. *)
Theorem effective_sample_size_is_ballot_count
  (rng : nat -> Q) (evidence : list EvidenceItem) (q : string) (n : nat) :
  Forall (fun v => effective_sample_size v = length (ballots v) /\
                   length (ballots v) = COMMITTEE * NUM_ITER /\
                   0 < effective_sample_size v <= length (ballots v) /\
                   Forall (fun b => model b = "mock-local"%string) (ballots v))
    (verdicts_of (emitted (mockSimulation rng evidence q n))).
Proof.
  rewrite mockSimulation_after, verdicts_after.
  destruct (NUM_ITER <=? Nat.min n NUM_ITER) eqn:E; constructor.
  - cbn [verdict_of effective_sample_size ballots].
    apply Nat.leb_le in E.
    assert (Ht : Nat.min n NUM_ITER = NUM_ITER) by lia.
    rewrite Ht, ballots_upto_length.
    split; [reflexivity |].
    split; [reflexivity |].
    split; [unfold COMMITTEE, NUM_ITER; lia |].
    apply ballots_upto_model.
  - constructor.
Qed.

(** C6 fails as stated: when all fifteen ballots are YES there is one
    cluster of mean size 15 whose mode share is 1, so the estimated
    correlation is 1 and the discounted size the claim describes is
    15 / (1 + 14) = 1; the reported size is 15.  It equals [N] although the
    estimated correlation is not 0. *)
Lemma unanimous_run_sample_size_is_not_discounted :
  verdicts_of (emitted unanimous_run) = [unanimous_verdict] /\
  Claimed.model_ids (ballots unanimous_verdict) = ["mock-local"%string] /\
  (Claimed.m_bar (ballots unanimous_verdict) == 15)%Q /\
  (Claimed.a_bar (ballots unanimous_verdict) == 1)%Q /\
  (Claimed.rho_hat (ballots unanimous_verdict) == 1)%Q /\
  (Claimed.n_eff (ballots unanimous_verdict) == 1)%Q /\
  effective_sample_size unanimous_verdict = 15 /\
  length (ballots unanimous_verdict) = 15 /\
  ~ (num (effective_sample_size unanimous_verdict)
     == Claimed.n_eff (ballots unanimous_verdict))%Q /\
  ~ (Claimed.rho_hat (ballots unanimous_verdict) == 0)%Q.
Proof.
  change (effective_sample_size unanimous_verdict)
    with (length (ballots_upto rng_zero no_evidence 5)).
  change (ballots unanimous_verdict)
    with (ballots_upto rng_zero no_evidence 5).
  split; [exact unanimous_run_verdict |].
  repeat split;
    first [ vm_compute; reflexivity
          | intro H; vm_compute in H; discriminate H ].
Qed.

(* ===================================================================== *)
(** ** C7: entropy                                                        *)
(* ===================================================================== *)

(** C7, as the code has it.  The entropy reported with every result is the
    constant 0, whatever the reported probabilities. *)
Theorem reported_entropy_is_zero
  (rng : nat -> Q) (evidence : list EvidenceItem) (q : string) (n : nat) :
  Forall (fun v => entropy v = 0%Q)
    (verdicts_of (emitted (mockSimulation rng evidence q n))).
Proof.
  rewrite mockSimulation_after, verdicts_after.
  destruct (NUM_ITER <=? Nat.min n NUM_ITER); constructor.
  - reflexivity.
  - constructor.
Qed.

Lemma ln_2_pos : (0 < ln 2)%R.
Proof. rewrite <- ln_1. apply ln_increasing; lra. Qed.

Lemma log2_3_pos : (0 < Claimed.log2 3)%R.
Proof.
  unfold Claimed.log2. apply Rdiv_lt_0_compat; [| exact ln_2_pos].
  rewrite <- ln_1. apply ln_increasing; lra.
Qed.

Lemma shannon_entropy_thirds :
  Claimed.shannon_entropy (1 / 3, 1 / 3, 1 / 3)%R = Claimed.log2 3.
Proof.
  unfold Claimed.shannon_entropy, Claimed.log2.
  replace (1 / 3)%R with (/ 3)%R by lra.
  rewrite ln_Rinv by lra.
  pose proof ln_2_pos. field. lra.
Qed.

(** C7 fails as stated: when every iteration votes [YES,NO,NULL] the
    reported probabilities are (1/3, 1/3, 1/3), whose Shannon entropy is
    [log2 3 > 0]; the reported entropy is 0, outside (0, log2 3]. *)
Lemma even_run_entropy_is_not_shannon :
  verdicts_of (emitted even_run) = [even_verdict] /\
  (p_yes even_verdict == 1 # 3)%Q /\ (p_no even_verdict == 1 # 3)%Q /\
  (p_null even_verdict == 1 # 3)%Q /\
  Claimed.shannon_entropy (1 / 3, 1 / 3, 1 / 3)%R = Claimed.log2 3 /\
  (0 < Claimed.log2 3)%R /\
  entropy even_verdict = 0%Q /\
  ~ (0 < entropy even_verdict)%Q /\
  Q2R (entropy even_verdict) <> Claimed.log2 3.
Proof.
  change (entropy even_verdict) with 0%Q.
  change (p_yes even_verdict)
    with (share YES (ballots_upto rng_even no_evidence 5)).
  change (p_no even_verdict)
    with (share NO (ballots_upto rng_even no_evidence 5)).
  change (p_null even_verdict)
    with (share NULL (ballots_upto rng_even no_evidence 5)).
  split; [exact even_run_verdict |].
  split; [vm_compute; reflexivity |].
  split; [vm_compute; reflexivity |].
  split; [vm_compute; reflexivity |].
  split; [exact shannon_entropy_thirds |].
  split; [exact log2_3_pos |].
  split; [reflexivity |].
  split; [intro H; vm_compute in H; discriminate H |].
  pose proof log2_3_pos as Hpos.
  replace (Q2R 0) with 0%R by (unfold Q2R; simpl; lra).
  lra.
Qed.

(* ===================================================================== *)
(** ** C9: what determines the result of a run                            *)
(* ===================================================================== *)










(* ===================================================================== *)
(** ** C10: posting a verdict on chain                                    *)
(* ===================================================================== *)

Lemma nth_error_app_left {A : Type} (l : list A) (x : A) (i : nat) :
  i < length l -> nth_error (l ++ [x]) i = nth_error l i.
Proof. intro H. apply nth_error_app1. exact H. Qed.

Lemma nth_error_app_last {A : Type} (l : list A) (x : A) :
  nth_error (l ++ [x]) (length l) = Some x.
Proof.
  rewrite nth_error_app2 by lia. rewrite Nat.sub_diag. reflexivity.
Qed.

(** C10.  A call of [postVerdict] by an address other than [owner] reverts
    with "Not owner" and leaves the storage as it was.  A call by [owner]
    returns the length the array had before the call, logs one
    [VerdictPosted] and appends exactly one [Verdict] made of the six
    arguments and the block timestamp: [verdictCount] grows by one, the new
    verdict is read back under the returned id, every verdict stored
    before reads back unchanged, and the owner is unchanged. *)
Theorem postVerdict_only_owner_appends
  (env : VeritasOracle.Env) (st : VeritasOracle.Storage)
  (qh mr : VeritasOracle.bytes32) (py pn p0 fk : VeritasOracle.uint256) :
  (VeritasOracle.msg_sender env <> VeritasOracle.owner st ->
   VeritasOracle.postVerdict env st qh mr py pn p0 fk
   = VeritasOracle.Reverted "Not owner" /\
   VeritasOracle.storage_after st
     (VeritasOracle.postVerdict env st qh mr py pn p0 fk) = st) /\
  (VeritasOracle.msg_sender env = VeritasOracle.owner st ->
   exists st',
     VeritasOracle.postVerdict env st qh mr py pn p0 fk
     = VeritasOracle.Returned (VeritasOracle.verdictCount st)
         [ VeritasOracle.mkVerdictPosted (VeritasOracle.verdictCount st)
             qh mr py pn p0 (VeritasOracle.block_timestamp env) ]
         st' /\
     VeritasOracle.storage_after st
       (VeritasOracle.postVerdict env st qh mr py pn p0 fk) = st' /\
     VeritasOracle.verdicts st'
     = VeritasOracle.verdicts st
       ++ [ VeritasOracle.mkVerdict qh mr py pn p0 fk
              (VeritasOracle.block_timestamp env) ] /\
     VeritasOracle.owner st' = VeritasOracle.owner st /\
     VeritasOracle.verdictCount st'
     = (VeritasOracle.verdictCount st + 1)%N /\
     VeritasOracle.getVerdict st' (VeritasOracle.verdictCount st)
     = Some (VeritasOracle.mkVerdict qh mr py pn p0 fk
               (VeritasOracle.block_timestamp env)) /\
     (forall i, (i < VeritasOracle.verdictCount st)%N ->
                VeritasOracle.getVerdict st' i = VeritasOracle.getVerdict st i)).
Proof.
  unfold VeritasOracle.postVerdict, VeritasOracle.onlyOwner.
  split.
  - intro Hne.
    replace (VeritasOracle.msg_sender env =? VeritasOracle.owner st)%N
      with false by (symmetry; apply N.eqb_neq; exact Hne).
    split; reflexivity.
  - intro Heq.
    replace (VeritasOracle.msg_sender env =? VeritasOracle.owner st)%N
      with true by (symmetry; apply N.eqb_eq; exact Heq).
    eexists. split; [reflexivity |].
    split; [reflexivity |].
    cbn [VeritasOracle.verdicts VeritasOracle.owner].
    split; [reflexivity |].
    split; [reflexivity |].
    unfold VeritasOracle.verdictCount, VeritasOracle.getVerdict.
    cbn [VeritasOracle.verdicts].
    split; [rewrite length_app; simpl; lia |].
    split.
    + rewrite Nat2N.id. apply nth_error_app_last.
    + intros i Hi. apply nth_error_app_left. lia.
Qed.

(** Both hypotheses of C10 are met: a stranger's call on a storage holding
    one verdict reverts, the owner's call returns id 1 and makes the count
    2. *)
Lemma postVerdict_only_owner_appends_witness :
  VeritasOracle.postVerdict VeritasOracle.stranger_call VeritasOracle.a_storage
    21%N 22%N 500%N 400%N 100%N 7%N
  = VeritasOracle.Reverted "Not owner" /\
  exists st',
    VeritasOracle.postVerdict VeritasOracle.owner_call VeritasOracle.a_storage
      21%N 22%N 500%N 400%N 100%N 7%N
    = VeritasOracle.Returned 1%N
        [ VeritasOracle.mkVerdictPosted 1%N 21%N 22%N 500%N 400%N 100%N
            1700000100%N ] st' /\
    VeritasOracle.verdictCount st' = 2%N.
Proof.
  split.
  - apply (proj1 (postVerdict_only_owner_appends
                    VeritasOracle.stranger_call VeritasOracle.a_storage
                    21%N 22%N 500%N 400%N 100%N 7%N)).
    discriminate.
  - destruct (proj2 (postVerdict_only_owner_appends
                       VeritasOracle.owner_call VeritasOracle.a_storage
                       21%N 22%N 500%N 400%N 100%N 7%N) eq_refl)
      as [st' [Hcall [_ [_ [_ [Hcount _]]]]]].
    exists st'. split; [exact Hcall | exact Hcount].
Defined.

(* ===================================================================== *)
(** ** Further properties: numbers and scores of the UI                   *)
(* ===================================================================== *)

Lemma Ui_clamp01_cases (x : Q) :
  (x <= 0 /\ Ui.clamp01 x == 0)%Q \/
  (0 <= x /\ x <= 1 /\ Ui.clamp01 x == x)%Q \/
  (1 <= x /\ Ui.clamp01 x == 1)%Q.
Proof.
  unfold Ui.clamp01.
  destruct (Q.min_spec 1 x) as [[H1 E1] | [H1 E1]];
    destruct (Q.max_spec 0 (Qmin 1 x)) as [[H2 E2] | [H2 E2]].
  - right; right. split; Lqa.lra.
  - exfalso. Lqa.lra.
  - right; left. split; [| split]; Lqa.lra.
  - left. split; Lqa.lra.
Qed.

(** X1.  [clamp01] is the projection onto [[0, 1]]: its result lies in
    [[0, 1]], a number already there is returned unchanged, applying it
    twice is applying it once, and it preserves order.  The opacity of a
    heatmap cell, [0.10 + 0.70 * clamp01 p], therefore lies in
    [[0.10, 0.80]] for every [p]. *)
Theorem clamp01_projects_onto_unit_interval (x y : Q) :
  (0 <= Ui.clamp01 x)%Q /\ (Ui.clamp01 x <= 1)%Q /\
  ((0 <= x)%Q -> (x <= 1)%Q -> (Ui.clamp01 x == x)%Q) /\
  (Ui.clamp01 (Ui.clamp01 x) == Ui.clamp01 x)%Q /\
  ((x <= y)%Q -> (Ui.clamp01 x <= Ui.clamp01 y)%Q) /\
  (10 # 100 <= Ui.heat_opacity x)%Q /\ (Ui.heat_opacity x <= 80 # 100)%Q.
Proof.
  assert (Hb : forall z, (0 <= Ui.clamp01 z)%Q /\ (Ui.clamp01 z <= 1)%Q).
  { intro z.
    destruct (Ui_clamp01_cases z) as [[_ E] | [[H0 [H1 E]] | [_ E]]];
      rewrite E; split; first [Lqa.lra | assumption]. }
  destruct (Hb x) as [Hx0 Hx1].
  split; [exact Hx0 |]. split; [exact Hx1 |].
  split.
  { intros H0 H1.
    destruct (Ui_clamp01_cases x) as [[H E] | [[_ [_ E]] | [H E]]];
      rewrite E; Lqa.lra. }
  split.
  { destruct (Ui_clamp01_cases (Ui.clamp01 x)) as [[H E] | [[_ [_ E]] | [H E]]];
      rewrite E; Lqa.lra. }
  split.
  { intro Hxy.
    destruct (Ui_clamp01_cases x) as [[Hx Ex] | [[Hx [Hx' Ex]] | [Hx Ex]]];
      destruct (Ui_clamp01_cases y) as [[Hy Ey] | [[Hy [Hy' Ey]] | [Hy Ey]]];
      rewrite Ex, Ey; Lqa.lra. }
  unfold Ui.heat_opacity. split; Lqa.lra.
Qed.

(** X1: the two order hypotheses are met at 1/2, inside the interval. *)
Lemma clamp01_projects_onto_unit_interval_witness :
  (Ui.clamp01 (1 # 2) == 1 # 2)%Q /\ (Ui.clamp01 (1 # 2) <= Ui.clamp01 3)%Q.
Proof.
  pose proof (clamp01_projects_onto_unit_interval (1 # 2) 3) as H.
  destruct H as [_ [_ [Hid [_ [Hmono _]]]]].
  split.
  - apply Hid; unfold Qle; simpl; lia.
  - apply Hmono. unfold Qle; simpl; lia.
Defined.

Lemma autoQualityScore_bounds (urlOrLabel snippet : string) :
  (0.44000000000000006 <=? Ui.autoQualityScore urlOrLabel snippet)%float
  = true /\
  (Ui.autoQualityScore urlOrLabel snippet <=? 1)%float = true.
Proof.
  unfold Ui.autoQualityScore. cbv zeta.
  repeat match goal with
         | |- context [if ?b then _ else _] => destruct b
         end;
    split; vm_compute; reflexivity.
Qed.

Lemma autoQualityScore_between_044_bounds (urlOrLabel snippet : string) :
  (0.44 <=? Ui.autoQualityScore urlOrLabel snippet)%float = true /\
  (Ui.autoQualityScore urlOrLabel snippet <=? 1)%float = true.
Proof.
  unfold Ui.autoQualityScore. cbv zeta.
  repeat match goal with
         | |- context [if ?b then _ else _] => destruct b
         end;
    split; vm_compute; reflexivity.
Qed.

(** X2.  Whatever the label and the snippet, [autoQualityScore] returns a
    number between 0.44 and 1.  The least number it returns is
    0.44000000000000006, the rounded result of 0.62 - 0.06 - 0.12, which
    lies just above 0.44; it is returned when both penalties apply and
    nothing else.  The greatest is 1, returned when the clamp cuts the
    sum.  Without any keyword and with a short snippet the result is the
    base 0.62. *)
Theorem autoQualityScore_between_044_and_1 (urlOrLabel snippet : string) :
  (0.44 <=? Ui.autoQualityScore urlOrLabel snippet)%float = true /\
  (0.44000000000000006 <=? Ui.autoQualityScore urlOrLabel snippet)%float
  = true /\
  (Ui.autoQualityScore urlOrLabel snippet <=? 1)%float = true /\
  Ui.autoQualityScore "forum" "rumor" = 0.44000000000000006%float /\
  (0.44 <? Ui.autoQualityScore "forum" "rumor")%float = true /\
  Ui.autoQualityScore "audit dashboard" "report of transaction data"
  = 1%float /\
  Ui.autoQualityScore "" "" = 0.62%float.
Proof.
  destruct (autoQualityScore_bounds urlOrLabel snippet) as [Hlo Hhi].
  split; [apply autoQualityScore_between_044_bounds |].
  split; [exact Hlo |]. split; [exact Hhi |].
  repeat split; vm_compute; reflexivity.
Qed.

(* ===================================================================== *)
(** ** Further properties: the evidence commitment shown by the UI        *)
(* ===================================================================== *)

Lemma repeat_length (c : ascii) (n : nat) :
  String.length (Text.repeat c n) = n.
Proof.
  induction n as [| n IH]; [reflexivity |]. simpl. rewrite IH. reflexivity.
Qed.

Lemma string_app_length (a b : string) :
  String.length (a ++ b)%string = String.length a + String.length b.
Proof.
  induction a as [| c a IH]; [reflexivity |]. simpl. rewrite IH. reflexivity.
Qed.

Lemma padStart_length (target : nat) (c : ascii) (s : string) :
  String.length (Text.padStart target c s) = Nat.max target (String.length s).
Proof.
  unfold Text.padStart. rewrite string_app_length, repeat_length. lia.
Qed.

Lemma hex_value_digit (d : N) :
  (d < 16)%N -> Ui.hex_value (Ui.hex_digit d) = Some d.
Proof.
  intro H.
  assert (E : d = N.of_nat (N.to_nat d)) by (symmetry; apply N2Nat.id).
  assert (Hk : N.to_nat d < 16) by lia.
  rewrite E. clear E H.
  generalize dependent (N.to_nat d). intros k Hk.
  do 16 (destruct k as [| k]; [reflexivity |]). lia.
Qed.

Lemma parse_hex_from_app (s t : string) :
  forall acc,
    Ui.parse_hex_from acc (s ++ t)%string
    = match Ui.parse_hex_from acc s with
      | Some a => Ui.parse_hex_from a t
      | None => None
      end.
Proof.
  induction s as [| c s IH]; intro acc; [reflexivity |].
  simpl. destruct (Ui.hex_value c); [apply IH | reflexivity].
Qed.

Lemma parse_hex_to_hex (fuel : nat) :
  forall n, (n < 16 ^ N.of_nat fuel)%N ->
            Ui.parse_hex (Ui.to_hex fuel n) = Some n.
Proof.
  unfold Ui.parse_hex.
  induction fuel as [| f IH]; intros n Hn.
  - simpl in Hn. assert (n = 0%N) by lia. subst n. reflexivity.
  - cbn [Ui.to_hex]. destruct (n <? 16)%N eqn:E.
    + apply N.ltb_lt in E. cbn [Ui.parse_hex_from].
      rewrite hex_value_digit by exact E. f_equal.
    + apply N.ltb_ge in E.
      rewrite parse_hex_from_app.
      assert (Hq : (n / 16 < 16 ^ N.of_nat f)%N).
      { apply N.Div0.div_lt_upper_bound.
        rewrite Nat2N.inj_succ, N.pow_succ_r' in Hn. exact Hn. }
      rewrite (IH _ Hq). cbn [Ui.parse_hex_from].
      rewrite hex_value_digit by (apply N.mod_lt; lia).
      f_equal. rewrite (N.div_mod n 16) at 3 by lia. lia.
Qed.

Lemma to_hex_length (fuel : nat) :
  forall n k, 1 <= k -> (n < 16 ^ N.of_nat k)%N ->
              String.length (Ui.to_hex fuel n) <= k.
Proof.
  induction fuel as [| f IH]; intros n k Hk Hn; [simpl; lia |].
  cbn [Ui.to_hex]. destruct (n <? 16)%N eqn:E; [simpl; lia |].
  apply N.ltb_ge in E.
  rewrite string_app_length. simpl String.length.
  destruct k as [| [| k]]; [lia | simpl in Hn; lia |].
  assert (Hq : (n / 16 < 16 ^ N.of_nat (S k))%N).
  { apply N.Div0.div_lt_upper_bound.
    rewrite (Nat2N.inj_succ (S k)), N.pow_succ_r' in Hn. exact Hn. }
  specialize (IH (n / 16)%N (S k) ltac:(lia) Hq). lia.
Qed.

Lemma toString16_fuel (n : N) :
  (n < 16 ^ N.of_nat (S (N.to_nat (N.log2 n))))%N.
Proof.
  rewrite Nat2N.inj_succ, N2Nat.id.
  destruct (N.eq_dec n 0) as [-> | Hn]; [reflexivity |].
  destruct (N.log2_spec n ltac:(lia)) as [_ Hlt].
  apply N.lt_le_trans with (2 ^ N.succ (N.log2 n))%N; [exact Hlt |].
  apply N.pow_le_mono_l. lia.
Qed.

Lemma parse_hex_from_zeros (k : nat) (s : string) :
  Ui.parse_hex_from 0 (Text.repeat "0" k ++ s)%string
  = Ui.parse_hex_from 0 s.
Proof.
  induction k as [| k IH]; [reflexivity |]. simpl. exact IH.
Qed.

(** X3.  [fakeMerkleRoot] writes the length [n] of the serialised bundle
    as a hexadecimal numeral: for every length below [16^64] (a string is
    never that long) the result is ["0x"] followed by exactly 64
    characters, 66 in all, and reading those 64 characters as a
    hexadecimal numeral gives [n] back.  The root therefore tells the
    length of the bundle and nothing else. *)
Theorem fakeMerkleRoot_is_padded_hex_of_length (n : N) :
  (n < 16 ^ 64)%N ->
  String.length (Ui.fakeMerkleRoot n) = 66 /\
  Text.startsWith "0x" (Ui.fakeMerkleRoot n) = true /\
  Ui.parse_hex (Text.slice_from 2 (Ui.fakeMerkleRoot n)) = Some n.
Proof.
  intro Hn. unfold Ui.fakeMerkleRoot.
  assert (Hlen : String.length (Ui.toString16 n) <= 64).
  { unfold Ui.toString16. apply to_hex_length; [lia | exact Hn]. }
  split.
  - rewrite string_app_length, padStart_length. simpl String.length. lia.
  - split.
    { unfold Text.startsWith. cbn [append].
      destruct (Text.padStart 64 "0" (Ui.toString16 n)); reflexivity. }
    cbn [Text.slice_from append]. unfold Text.padStart, Ui.parse_hex.
    rewrite parse_hex_from_zeros.
    apply parse_hex_to_hex. apply toString16_fuel.
Qed.

(** X3: the hypothesis is met by a bundle of 1234 characters. *)
Lemma fakeMerkleRoot_is_padded_hex_of_length_witness :
  (1234 < 16 ^ 64)%N /\
  Ui.parse_hex (Text.slice_from 2 (Ui.fakeMerkleRoot 1234)) = Some 1234%N.
Proof.
  assert (H : (1234 < 16 ^ 64)%N) by (vm_compute; reflexivity).
  split; [exact H |].
  exact (proj2 (proj2 (fakeMerkleRoot_is_padded_hex_of_length 1234 H))).
Defined.

(* ===================================================================== *)
(** ** Further properties: editing the evidence list                      *)
(* ===================================================================== *)

Lemma trimStart_blank (s : string) :
  Text.blank s = true -> Text.trimStart s = EmptyString.
Proof.
  induction s as [| c s IH]; [reflexivity |].
  simpl. destruct (Text.is_space c); simpl; [exact IH | discriminate].
Qed.

Lemma trim_blank (s : string) :
  Text.blank s = true -> Text.trim s = EmptyString.
Proof.
  intro H. unfold Text.trim. rewrite trimStart_blank by exact H. reflexivity.
Qed.

Lemma trimEnd_empty_blank (s : string) :
  Text.trimEnd s = EmptyString -> Text.blank s = true.
Proof.
  induction s as [| c s IH]; [reflexivity |].
  simpl. destruct (Text.trimEnd s) eqn:E; [| discriminate].
  destruct (Text.is_space c); [| discriminate].
  intros _. simpl. apply IH. reflexivity.
Qed.

Lemma trimStart_suffix_blank (s : string) :
  Text.blank (Text.trimStart s) = true -> Text.blank s = true.
Proof.
  induction s as [| c s IH]; [reflexivity |].
  simpl. destruct (Text.is_space c) eqn:E; simpl.
  - exact IH.
  - rewrite E. simpl. discriminate.
Qed.

(** A string trims to the empty string exactly when it is blank. *)
Lemma trim_empty_iff_blank (s : string) :
  Text.trim s = EmptyString <-> Text.blank s = true.
Proof.
  split; [| apply trim_blank].
  intro H. apply trimStart_suffix_blank. apply trimEnd_empty_blank. exact H.
Qed.

Lemma max_of_bounds (xs : list Z) :
  forall x, (x <= Ui.max_of x xs)%Z /\
            Forall (fun y => (y <= Ui.max_of x xs)%Z) xs.
Proof.
  unfold Ui.max_of.
  induction xs as [| y xs IH]; intro x.
  - simpl. split; [lia | constructor].
  - simpl. destruct (IH (Z.max x y)) as [H1 H2].
    split; [lia |].
    constructor; [lia | exact H2].
Qed.

Lemma max_of_below (B : Z) (xs : list Z) :
  forall x, (x < B)%Z -> Forall (fun y => (y < B)%Z) xs ->
            (Ui.max_of x xs < B)%Z.
Proof.
  unfold Ui.max_of.
  induction xs as [| y xs IH]; intros x Hx Hall; [exact Hx |].
  inversion Hall as [| ? ? Hy Hxs]; subst.
  simpl. apply IH; [lia | exact Hxs].
Qed.

(** Rounding to 53 significant bits leaves an integer up to [2^53]
    alone. *)
Lemma round_Z_exact (z : Z) : (Z.abs z <= 2 ^ 53)%Z -> F64.round_Z z = z.
Proof.
  intro H. unfold F64.round_Z. cbv zeta.
  destruct (Z.log2 (Z.abs z) - 52 <=? 0)%Z eqn:E; [reflexivity |].
  apply Z.leb_gt in E.
  assert (Ha : (Z.abs z = 2 ^ 53)%Z).
  { destruct (Z.eq_dec (Z.abs z) 0) as [E0 | E0].
    - rewrite E0 in E. simpl in E. lia.
    - assert (Hlt : ~ (Z.abs z < 2 ^ 53)%Z).
      { intro Hlt. apply Z.log2_lt_pow2 in Hlt; lia. }
      lia. }
  destruct (Z.abs_eq_or_opp z) as [Hz | Hz]; rewrite Hz in Ha.
  - rewrite Ha. vm_compute. reflexivity.
  - assert (z = - 2 ^ 53)%Z by lia. subst z. vm_compute. reflexivity.
Qed.

(** With safe ids the sum [Math.max(...) + 1] is exact. *)
Lemma nextId_exact (a : EvidenceItem) (ev : list EvidenceItem) :
  Forall (fun x => Ui.safe_id (id x)) (a :: ev) ->
  Ui.nextId (a :: ev) = (Ui.max_of (id a) (map id ev) + 1)%Z.
Proof.
  intro Hs. inversion Hs as [| ? ? Ha Hev]; subst.
  unfold Ui.nextId. cbn [map].
  apply round_Z_exact.
  destruct (max_of_bounds (map id ev) (id a)) as [H1 _].
  assert (H2 : (Ui.max_of (id a) (map id ev) < 2 ^ 53)%Z).
  { apply max_of_below; [apply Ha |].
    rewrite Forall_map. eapply Forall_impl; [| exact Hev].
    intros x Hx. apply Hx. }
  unfold Ui.safe_id in Ha. lia.
Qed.

Lemma nextId_above (ev : list EvidenceItem) :
  Forall (fun x => Ui.safe_id (id x)) ev ->
  Forall (fun x => (id x < Ui.nextId ev)%Z) ev.
Proof.
  intro Hs. destruct ev as [| a ev]; [constructor |].
  rewrite (nextId_exact a ev Hs).
  destruct (max_of_bounds (map id ev) (id a)) as [H1 H2].
  constructor; [lia |].
  rewrite Forall_map in H2.
  eapply Forall_impl; [| exact H2]. intros x Hx. simpl in Hx. lia.
Qed.

Lemma nextId_fresh (ev : list EvidenceItem) :
  Forall (fun x => Ui.safe_id (id x)) ev ->
  ~ In (Ui.nextId ev) (map id ev).
Proof.
  intros Hs H. apply in_map_iff in H. destruct H as [x [Hx Hin]].
  pose proof (nextId_above ev Hs) as Hall.
  rewrite Forall_forall in Hall. specialize (Hall x Hin). lia.
Qed.

Lemma nextId_at_most_2_53 (ev : list EvidenceItem) :
  Forall (fun x => Ui.safe_id (id x)) ev ->
  (Ui.nextId ev <= 2 ^ 53)%Z.
Proof.
  intro Hs. destruct ev as [| a ev]; [vm_compute; discriminate |].
  rewrite (nextId_exact a ev Hs).
  inversion Hs as [| ? ? Ha Hev]; subst.
  assert (H2 : (Ui.max_of (id a) (map id ev) < 2 ^ 53)%Z).
  { apply max_of_below; [apply Ha |].
    rewrite Forall_map. eapply Forall_impl; [| exact Hev].
    intros x Hx. apply Hx. }
  lia.
Qed.

(** [round_Z] is the rounding of the engine: on either side of [2^53] the
    sum [z + 1] computed on binary64 numbers is [round_Z (z + 1)]. *)
Lemma round_Z_agrees_with_the_sum :
  Forall
    (fun z => F64.floor_Z (F64.of_Z z + 1)%float = Some (F64.round_Z (z + 1)))
    [0; 41; 2 ^ 53 - 2; 2 ^ 53 - 1; 2 ^ 53; 2 ^ 53 + 2; 2 ^ 53 + 4;
     2 ^ 54; 2 ^ 54 + 4; 2 ^ 60; 2 ^ 62 + 3 * 2 ^ 10]%Z.
Proof. repeat constructor. Qed.

Lemma filter_keeps_all {A : Type} (f : A -> bool) (l : list A) :
  Forall (fun x => f x = true) l -> filter f l = l.
Proof.
  induction 1 as [| x l Hx _ IH]; [reflexivity |].
  simpl. rewrite Hx, IH. reflexivity.
Qed.

Lemma NoDup_snoc {A : Type} (l : list A) (x : A) :
  NoDup l -> ~ In x l -> NoDup (l ++ [x]).
Proof.
  induction l as [| y l IH]; intros Hnd Hx.
  - simpl. constructor; [intros [] | constructor].
  - inversion Hnd as [| ? ? Hy Hl]; subst. simpl. constructor.
    + intro H. apply in_app_or in H. destruct H as [H | [H | []]].
      * contradiction.
      * subst. apply Hx. left. reflexivity.
    + apply IH; [exact Hl |]. intro H. apply Hx. right. exact H.
Qed.

Lemma filter_comm {A : Type} (f g : A -> bool) (l : list A) :
  filter f (filter g l) = filter g (filter f l).
Proof.
  induction l as [| x l IH]; [reflexivity |].
  cbn [filter]. destruct (g x) eqn:Eg; destruct (f x) eqn:Ef;
    cbn [filter]; rewrite ?Eg, ?Ef, IH; reflexivity.
Qed.

Lemma NoDup_ids_filter (f : EvidenceItem -> bool) (l : list EvidenceItem) :
  NoDup (map id l) -> NoDup (map id (filter f l)).
Proof.
  induction l as [| x l IH]; intro Hnd; [constructor |].
  cbn [map] in Hnd. inversion Hnd as [| ? ? Hnotin Hnd']; subst.
  cbn [filter]. destruct (f x); [| apply IH; exact Hnd'].
  cbn [map]. constructor; [| apply IH; exact Hnd'].
  intro H. apply Hnotin. apply in_map_iff in H.
  destruct H as [y [Hy Hy']]. apply filter_In in Hy'.
  apply in_map_iff. exists y. tauto.
Qed.

Lemma blank_draft_test (s : string) :
  String.eqb (Text.trim s) "" = Text.blank s.
Proof.
  destruct (Text.blank s) eqn:E.
  - rewrite trim_blank by exact E. reflexivity.
  - apply String.eqb_neq. intro H.
    apply trim_empty_iff_blank in H. congruence.
Qed.

(** X4.  [addEvidence] does nothing at all when the label or the snippet
    of the draft is empty or made of white space only: the evidence list,
    the draft and the frozen flag stay as they were. *)
Theorem addEvidence_ignores_blank_draft (now : string) (e : Ui.Editor) :
  Text.blank (Ui.newUrl e) = true \/ Text.blank (Ui.newSnippet e) = true ->
  Ui.addEvidence now e = e.
Proof.
  intro H. unfold Ui.addEvidence. rewrite !blank_draft_test.
  destruct H as [H | H]; rewrite H; [reflexivity |].
  rewrite orb_true_r. reflexivity.
Qed.

(** X4: the hypothesis is met by a label of two spaces. *)
Lemma addEvidence_ignores_blank_draft_witness :
  Ui.addEvidence "2026-02-01T12:00:00Z"
    {| Ui.evidence := []; Ui.newUrl := "  "; Ui.newSnippet := "text";
       Ui.isFrozen := true |}
  = {| Ui.evidence := []; Ui.newUrl := "  "; Ui.newSnippet := "text";
       Ui.isFrozen := true |}.
Proof.
  apply (addEvidence_ignores_blank_draft "2026-02-01T12:00:00Z"
           {| Ui.evidence := []; Ui.newUrl := "  "; Ui.newSnippet := "text";
              Ui.isFrozen := true |}).
  left. reflexivity.
Defined.

(** X5.  When neither field of the draft is blank and the ids in the list
    are safe integers, [addEvidence] appends one item whose id is greater
    than every id in the list (1 for an empty list) and at most [2^53], so
    an id is not reused and pairwise distinct ids stay pairwise distinct.
    The item holds the trimmed label and snippet, the current time and a
    quality score between 0.44 and 1; the draft is cleared and the frozen
    flag is dropped. *)
Theorem addEvidence_appends_item_with_fresh_id (now : string) (e : Ui.Editor) :
  Text.blank (Ui.newUrl e) = false ->
  Text.blank (Ui.newSnippet e) = false ->
  Forall (fun x => Ui.safe_id (id x)) (Ui.evidence e) ->
  exists item,
    Ui.evidence (Ui.addEvidence now e) = Ui.evidence e ++ [item] /\
    Forall (fun x => (id x < id item)%Z) (Ui.evidence e) /\
    (id item <= 2 ^ 53)%Z /\
    (Ui.evidence e = [] -> id item = 1%Z) /\
    ~ In (id item) (map id (Ui.evidence e)) /\
    (NoDup (map id (Ui.evidence e)) ->
     NoDup (map id (Ui.evidence (Ui.addEvidence now e)))) /\
    url item = Text.trim (Ui.newUrl e) /\
    snippet item = Text.trim (Ui.newSnippet e) /\
    timestamp item = now /\
    (0.44 <=? quality_score item)%float = true /\
    (quality_score item <=? 1)%float = true /\
    Ui.newUrl (Ui.addEvidence now e) = EmptyString /\
    Ui.newSnippet (Ui.addEvidence now e) = EmptyString /\
    Ui.isFrozen (Ui.addEvidence now e) = false.
Proof.
  intros Hu Hs Hsafe. unfold Ui.addEvidence.
  rewrite !blank_draft_test, Hu, Hs.
  cbn [orb Ui.evidence Ui.newUrl Ui.newSnippet Ui.isFrozen].
  eexists. split; [reflexivity |].
  cbn [id url snippet timestamp quality_score].
  split; [apply nextId_above; exact Hsafe |].
  split; [apply nextId_at_most_2_53; exact Hsafe |].
  split; [intro E; rewrite E; reflexivity |].
  split; [apply nextId_fresh; exact Hsafe |].
  split.
  { intro Hnd. rewrite map_app. cbn [map id].
    apply NoDup_snoc; [exact Hnd | apply nextId_fresh; exact Hsafe]. }
  split; [reflexivity |]. split; [reflexivity |]. split; [reflexivity |].
  destruct (autoQualityScore_between_044_bounds (Text.trim (Ui.newUrl e))
              (Text.trim (Ui.newSnippet e))) as [Hlo Hhi].
  split; [exact Hlo |]. split; [exact Hhi |].
  split; [reflexivity |]. split; reflexivity.
Qed.

Lemma ids_4_2_safe :
  Forall (fun x => Ui.safe_id (id x))
    [ mkEvidenceItem 4 "a" "b" 0.5 "t"; mkEvidenceItem 2 "c" "d" 0.5 "t" ].
Proof. repeat constructor. Qed.

(** X5: the hypotheses are met by a draft added to a list holding ids 4
    and 2; the new item gets id 5. *)
Lemma addEvidence_appends_item_with_fresh_id_witness :
  map id
    (Ui.evidence
       (Ui.addEvidence "2026-02-01T12:00:00Z"
          {| Ui.evidence :=
               [ mkEvidenceItem 4 "a" "b" 0.5 "t";
                 mkEvidenceItem 2 "c" "d" 0.5 "t" ];
             Ui.newUrl := " Audit summary ";
             Ui.newSnippet := "No critical vulnerabilities";
             Ui.isFrozen := true |}))
  = [4; 2; 5]%Z.
Proof.
  destruct (addEvidence_appends_item_with_fresh_id "2026-02-01T12:00:00Z"
              {| Ui.evidence :=
                   [ mkEvidenceItem 4 "a" "b" 0.5 "t";
                     mkEvidenceItem 2 "c" "d" 0.5 "t" ];
                 Ui.newUrl := " Audit summary ";
                 Ui.newSnippet := "No critical vulnerabilities";
                 Ui.isFrozen := true |}
              eq_refl eq_refl ids_4_2_safe) as [item [E _]].
  vm_compute. reflexivity.
Defined.

(** X6.  [removeEvidence] undoes [addEvidence] on a list of safe ids:
    removing the id that [addEvidence] assigns gives back the evidence
    list it started from. *)
Theorem removeEvidence_undoes_addEvidence (now : string) (e : Ui.Editor) :
  Forall (fun x => Ui.safe_id (id x)) (Ui.evidence e) ->
  Ui.evidence
    (Ui.removeEvidence (Ui.nextId (Ui.evidence e)) (Ui.addEvidence now e))
  = Ui.evidence e.
Proof.
  intro Hsafe.
  assert (Hkeep : filter (fun x => negb (id x =? Ui.nextId (Ui.evidence e))%Z)
                    (Ui.evidence e) = Ui.evidence e).
  { apply filter_keeps_all.
    eapply Forall_impl; [| apply nextId_above; exact Hsafe].
    intros x Hx. simpl in Hx. apply negb_true_iff. apply Z.eqb_neq. lia. }
  unfold Ui.addEvidence, Ui.removeEvidence.
  destruct (String.eqb (Text.trim (Ui.newUrl e)) ""
            || String.eqb (Text.trim (Ui.newSnippet e)) "").
  - cbn [Ui.evidence]. exact Hkeep.
  - cbn [Ui.evidence]. rewrite filter_app, Hkeep.
    cbn [filter id]. rewrite Z.eqb_refl. cbn [negb]. apply app_nil_r.
Qed.

(** X6: the hypothesis is met by the list holding ids 4 and 2: the item
    added with id 5 is removed again. *)
Lemma removeEvidence_undoes_addEvidence_witness :
  map id
    (Ui.evidence
       (Ui.removeEvidence 5
          (Ui.addEvidence "2026-02-01T12:00:00Z"
             {| Ui.evidence :=
                  [ mkEvidenceItem 4 "a" "b" 0.5 "t";
                    mkEvidenceItem 2 "c" "d" 0.5 "t" ];
                Ui.newUrl := " Audit summary ";
                Ui.newSnippet := "No critical vulnerabilities";
                Ui.isFrozen := true |})))
  = [4; 2]%Z.
Proof.
  pose proof (removeEvidence_undoes_addEvidence "2026-02-01T12:00:00Z"
                {| Ui.evidence :=
                     [ mkEvidenceItem 4 "a" "b" 0.5 "t";
                       mkEvidenceItem 2 "c" "d" 0.5 "t" ];
                   Ui.newUrl := " Audit summary ";
                   Ui.newSnippet := "No critical vulnerabilities";
                   Ui.isFrozen := true |}
                ids_4_2_safe) as H.
  change (Ui.nextId _) with 5%Z in H.
  rewrite H. reflexivity.
Defined.

(** Where the ids stop being safe the sum is rounded back: in a list that
    holds the id [2^53] the next id is [2^53] again, and removing it
    removes the older item too. *)
Lemma nextId_repeats_from_2_53 (now : string) :
  Ui.nextId [ mkEvidenceItem (2 ^ 53) "a" "b" 0.5 "t" ] = (2 ^ 53)%Z /\
  Ui.evidence
    (Ui.removeEvidence (2 ^ 53)
       (Ui.addEvidence now
          {| Ui.evidence := [ mkEvidenceItem (2 ^ 53) "a" "b" 0.5 "t" ];
             Ui.newUrl := "c"; Ui.newSnippet := "d"; Ui.isFrozen := false |}))
  = [].
Proof. split; reflexivity. Qed.

(** X7.  [removeEvidence i] removes exactly the items whose id is [i]: no
    such item is left, every other item stays, and nothing is added.
    Removing an id that is not in the list leaves the list as it is,
    removing twice is removing once, two removals commute, and pairwise
    distinct ids stay pairwise distinct.  Every removal drops the frozen
    flag and leaves the draft alone. *)
Theorem removeEvidence_removes_exactly_that_id (i j : Z) (e : Ui.Editor) :
  ~ In i (map id (Ui.evidence (Ui.removeEvidence i e))) /\
  (forall x, In x (Ui.evidence (Ui.removeEvidence i e))
             <-> In x (Ui.evidence e) /\ id x <> i) /\
  length (Ui.evidence (Ui.removeEvidence i e)) <= length (Ui.evidence e) /\
  (~ In i (map id (Ui.evidence e)) ->
   Ui.evidence (Ui.removeEvidence i e) = Ui.evidence e) /\
  Ui.removeEvidence i (Ui.removeEvidence i e) = Ui.removeEvidence i e /\
  Ui.removeEvidence i (Ui.removeEvidence j e)
  = Ui.removeEvidence j (Ui.removeEvidence i e) /\
  (NoDup (map id (Ui.evidence e)) ->
   NoDup (map id (Ui.evidence (Ui.removeEvidence i e)))) /\
  Ui.isFrozen (Ui.removeEvidence i e) = false /\
  Ui.newUrl (Ui.removeEvidence i e) = Ui.newUrl e /\
  Ui.newSnippet (Ui.removeEvidence i e) = Ui.newSnippet e.
Proof.
  unfold Ui.removeEvidence. cbn [Ui.evidence Ui.isFrozen Ui.newUrl Ui.newSnippet].
  assert (Hin : forall x, In x (filter (fun x => negb (id x =? i)%Z)
                                   (Ui.evidence e))
                          <-> In x (Ui.evidence e) /\ id x <> i).
  { intro x. rewrite filter_In, negb_true_iff, Z.eqb_neq. reflexivity. }
  split.
  { intro H. apply in_map_iff in H. destruct H as [x [Hx Hx']].
    apply Hin in Hx'. tauto. }
  split; [exact Hin |].
  split; [apply filter_length_le |].
  split.
  { intro Hno. apply filter_keeps_all. apply Forall_forall.
    intros x Hx. apply negb_true_iff, Z.eqb_neq. intro E.
    apply Hno. apply in_map_iff. exists x. split; assumption. }
  split.
  { f_equal. apply filter_keeps_all. apply Forall_forall.
    intros x Hx. apply filter_In in Hx. tauto. }
  split; [f_equal; apply filter_comm |].
  split; [apply NoDup_ids_filter |].
  split; [reflexivity |]. split; reflexivity.
Qed.

(* ===================================================================== *)
(** ** Further properties: the vote heatmap                               *)
(* ===================================================================== *)

Lemma rounded_count_vote_app (v : Vote) (l1 l2 : list Rounded.Ballot) :
  Rounded.count_vote v (l1 ++ l2) = Rounded.count_vote v l1 + Rounded.count_vote v l2.
Proof.
  unfold Rounded.count_vote. rewrite filter_app, length_app. reflexivity.
Qed.

Lemma ballots_with_key_snoc (k : string) (bs : list Rounded.Ballot) (b : Rounded.Ballot) :
  Ui.ballots_with_key k (bs ++ [b])
  = Ui.ballots_with_key k bs
    ++ (if String.eqb (Ui.key_of b) k then [b] else []).
Proof.
  unfold Ui.ballots_with_key. rewrite filter_app. reflexivity.
Qed.

Lemma ballots_with_key_absent (k : string) (bs : list Rounded.Ballot) :
  ~ In k (map Ui.key_of bs) -> Ui.ballots_with_key k bs = [].
Proof.
  intro H. unfold Ui.ballots_with_key.
  induction bs as [| b bs IH]; [reflexivity |].
  cbn [filter]. destruct (String.eqb (Ui.key_of b) k) eqn:E.
  - apply String.eqb_eq in E. exfalso. apply H. left. exact E.
  - apply IH. intro Hin. apply H. right. exact Hin.
Qed.

Lemma tally_matches_count_in (bs : list Rounded.Ballot) (b : Rounded.Ballot) (c : Ui.Tally) :
  Ui.n_total c = length (Ui.ballots_with_key (Ui.key_of b) bs) ->
  Ui.n_YES c = Rounded.count_vote YES (Ui.ballots_with_key (Ui.key_of b) bs) ->
  Ui.n_NO c = Rounded.count_vote NO (Ui.ballots_with_key (Ui.key_of b) bs) ->
  Ui.n_NULL c = Rounded.count_vote NULL (Ui.ballots_with_key (Ui.key_of b) bs) ->
  Ui.tally_matches (bs ++ [b]) (Ui.key_of b) (Ui.count_in (Rounded.vote b) c).
Proof.
  intros Ht Hy Hn Hu. unfold Ui.tally_matches.
  rewrite ballots_with_key_snoc, String.eqb_refl.
  rewrite length_app, !rounded_count_vote_app.
  unfold Rounded.count_vote at 2 4 6. cbn [filter length].
  destruct (Rounded.vote b); cbn [Ui.count_in Ui.n_total Ui.n_YES Ui.n_NO Ui.n_NULL
                          Vote_eqb length];
    repeat split; lia.
Qed.

Lemma tally_matches_other (bs : list Rounded.Ballot) (b : Rounded.Ballot) (k : string)
  (c : Ui.Tally) :
  k <> Ui.key_of b ->
  Ui.tally_matches bs k c -> Ui.tally_matches (bs ++ [b]) k c.
Proof.
  intros Hk H. unfold Ui.tally_matches in *.
  rewrite ballots_with_key_snoc.
  replace (String.eqb (Ui.key_of b) k) with false
    by (symmetry; apply String.eqb_neq; congruence).
  rewrite app_nil_r. exact H.
Qed.

(** The entries of the object after one more ballot. *)
Lemma record_vote_entries (a : string) (v : Vote) (m : list (string * Ui.Tally)) :
  NoDup (map fst m) ->
  forall k c,
    In (k, c) (Ui.record_vote a v m) ->
    (k <> a /\ In (k, c) m) \/
    (k = a /\ exists c0, In (a, c0) m /\ c = Ui.count_in v c0) \/
    (k = a /\ ~ In a (map fst m) /\ c = Ui.count_in v Ui.empty_tally).
Proof.
  induction m as [| [k0 c0] m IH]; intros Hnd k c H.
  - simpl in H. destruct H as [H | []]. inversion H; subst.
    right; right. split; [reflexivity |]. split; [intros [] | reflexivity].
  - cbn [map fst] in Hnd. inversion Hnd as [| ? ? Hk0 Hnd']; subst.
    cbn [Ui.record_vote] in H. destruct (String.eqb k0 a) eqn:E.
    + apply String.eqb_eq in E. subst k0.
      destruct H as [H | H].
      * inversion H; subst. right; left. split; [reflexivity |].
        exists c0. split; [left; reflexivity | reflexivity].
      * left. split; [| right; exact H].
        intro Hk. subst k. apply Hk0.
        apply in_map_iff. exists (a, c). split; [reflexivity | exact H].
    + apply String.eqb_neq in E. destruct H as [H | H].
      * inversion H; subst. left. split; [exact E | left; reflexivity].
      * destruct (IH Hnd' k c H)
          as [[Hk Hin] | [[Hk [c1 [Hin Hc]]] | [Hk [Hno Hc]]]].
        -- left. split; [exact Hk | right; exact Hin].
        -- right; left. split; [exact Hk |]. exists c1.
           split; [right; exact Hin | exact Hc].
        -- right; right. split; [exact Hk |]. split; [| exact Hc].
           cbn [map fst]. intros [Hbad | Hbad]; [congruence | contradiction].
Qed.

Lemma record_vote_keys (a : string) (v : Vote) (m : list (string * Ui.Tally)) :
  (In a (map fst m) /\ map fst (Ui.record_vote a v m) = map fst m) \/
  (~ In a (map fst m) /\ map fst (Ui.record_vote a v m) = map fst m ++ [a]).
Proof.
  induction m as [| [k0 c0] m IH].
  - right. split; [intros [] | reflexivity].
  - cbn [Ui.record_vote]. destruct (String.eqb k0 a) eqn:E.
    + apply String.eqb_eq in E. subst k0.
      left. split; [left; reflexivity | reflexivity].
    + apply String.eqb_neq in E. cbn [map fst].
      destruct IH as [[Hin Hm] | [Hno Hm]].
      * left. split; [right; exact Hin | rewrite Hm; reflexivity].
      * right. split.
        -- intros [H | H]; [congruence | contradiction].
        -- rewrite Hm. reflexivity.
Qed.

Lemma record_vote_total (a : string) (v : Vote) (m : list (string * Ui.Tally)) :
  list_sum (map (fun e => Ui.n_total (snd e)) (Ui.record_vote a v m))
  = list_sum (map (fun e => Ui.n_total (snd e)) m) + 1.
Proof.
  induction m as [| [k0 c0] m IH].
  - simpl. destruct v; reflexivity.
  - cbn [Ui.record_vote]. destruct (String.eqb k0 a).
    + destruct v; simpl; lia.
    + simpl. simpl in IH. rewrite IH. lia.
Qed.

Lemma tally_votes_snoc (bs : list Rounded.Ballot) (b : Rounded.Ballot) :
  Ui.tally_votes (bs ++ [b])
  = Ui.record_vote (Ui.key_of b) (Rounded.vote b) (Ui.tally_votes bs).
Proof.
  unfold Ui.tally_votes. rewrite fold_left_app. reflexivity.
Qed.

(** What the object [map] holds after the loop: one entry per key that
    occurs, each with the counts of the ballots under that key. *)
Lemma tally_votes_spec (bs : list Rounded.Ballot) :
  NoDup (map fst (Ui.tally_votes bs)) /\
  (forall k, In k (map fst (Ui.tally_votes bs)) <-> In k (map Ui.key_of bs)) /\
  (forall k c, In (k, c) (Ui.tally_votes bs) -> Ui.tally_matches bs k c) /\
  list_sum (map (fun e => Ui.n_total (snd e)) (Ui.tally_votes bs)) = length bs.
Proof.
  induction bs as [| b bs IH] using rev_ind.
  - split; [constructor |]. split; [intro k; reflexivity |].
    split; [intros k c [] | reflexivity].
  - destruct IH as [Hnd [Hkeys [Hent Hsum]]].
    rewrite tally_votes_snoc.
    destruct (record_vote_keys (Ui.key_of b) (Rounded.vote b) (Ui.tally_votes bs))
      as [[Hin Hm] | [Hno Hm]].
    + split; [rewrite Hm; exact Hnd |].
      split.
      { intro k. rewrite Hm, map_app, in_app_iff, Hkeys. cbn [map In].
        split; [tauto |]. intros [H | [H | []]]; [exact H |].
        subst k. apply Hkeys. exact Hin. }
      split.
      { intros k c H.
        destruct (record_vote_entries _ _ _ Hnd k c H)
          as [[Hk Hold] | [[Hk [c0 [Hold Hc]]] | [Hk [Hnew Hc]]]].
        - apply tally_matches_other; [exact Hk | apply Hent; exact Hold].
        - subst k c. destruct (Hent _ _ Hold) as [Ht [Hy [Hn [Hu _]]]].
          apply tally_matches_count_in; assumption.
        - contradiction. }
      rewrite record_vote_total, Hsum, length_app. reflexivity.
    + split; [rewrite Hm; apply NoDup_snoc; assumption |].
      split.
      { intro k. rewrite Hm, !map_app, !in_app_iff, Hkeys. cbn [map In].
        tauto. }
      split.
      { intros k c H.
        destruct (record_vote_entries _ _ _ Hnd k c H)
          as [[Hk Hold] | [[Hk [c0 [Hold Hc]]] | [Hk [Hnew Hc]]]].
        - apply tally_matches_other; [exact Hk | apply Hent; exact Hold].
        - exfalso. apply Hno. apply in_map_iff.
          exists (Ui.key_of b, c0). split; [reflexivity | exact Hold].
        - subst k c.
          assert (Habs : Ui.ballots_with_key (Ui.key_of b) bs = []).
          { apply ballots_with_key_absent. rewrite <- Hkeys. exact Hno. }
          apply tally_matches_count_in; rewrite Habs; reflexivity. }
      rewrite record_vote_total, Hsum, length_app. reflexivity.
Qed.

Lemma insert_row_perm (x : Ui.HeatRow) (l : list Ui.HeatRow) :
  Permutation (Ui.insert_row x l) (x :: l).
Proof.
  induction l as [| y l IH]; [apply Permutation_refl |].
  cbn [Ui.insert_row]. destruct (Ui.row_total y <=? Ui.row_total x).
  - apply Permutation_refl.
  - eapply Permutation_trans; [apply perm_skip; exact IH | apply perm_swap].
Qed.

Lemma sort_rows_perm (l : list Ui.HeatRow) : Permutation (Ui.sort_rows l) l.
Proof.
  induction l as [| x l IH]; [constructor |].
  cbn [Ui.sort_rows fold_right].
  eapply Permutation_trans; [apply insert_row_perm |].
  apply perm_skip. exact IH.
Qed.

Lemma insert_row_sorted (x : Ui.HeatRow) (l : list Ui.HeatRow) :
  Sorted Ui.by_total l -> Sorted Ui.by_total (Ui.insert_row x l).
Proof.
  induction 1 as [| y l Hs IH Hhd].
  - simpl. constructor; constructor.
  - cbn [Ui.insert_row]. destruct (Ui.row_total y <=? Ui.row_total x) eqn:E.
    + apply Nat.leb_le in E. constructor.
      * constructor; assumption.
      * constructor. exact E.
    + apply Nat.leb_gt in E. constructor; [exact IH |].
      destruct l as [| z l].
      * simpl. constructor. unfold Ui.by_total. lia.
      * cbn [Ui.insert_row].
        destruct (Ui.row_total z <=? Ui.row_total x).
        -- constructor. unfold Ui.by_total. lia.
        -- inversion Hhd; subst. constructor. assumption.
Qed.

Lemma sort_rows_sorted (l : list Ui.HeatRow) :
  Sorted Ui.by_total (Ui.sort_rows l).
Proof.
  induction l as [| x l IH]; [constructor |].
  cbn [Ui.sort_rows fold_right]. apply insert_row_sorted. exact IH.
Qed.

Lemma list_sum_perm (l l' : list nat) :
  Permutation l l' -> list_sum l = list_sum l'.
Proof.
  induction 1; simpl; lia.
Qed.

Lemma row_of_matches (bs : list Rounded.Ballot) (k : string) (c : Ui.Tally) :
  Ui.tally_matches bs k c ->
  Ui.row_archetype (Ui.row_of (k, c)) = k /\
  Ui.row_total (Ui.row_of (k, c)) = length (Ui.ballots_with_key k bs) /\
  0 < Ui.row_total (Ui.row_of (k, c)) /\
  Ui.row_yes (Ui.row_of (k, c)) = Rounded.share YES (Ui.ballots_with_key k bs) /\
  Ui.row_no (Ui.row_of (k, c)) = Rounded.share NO (Ui.ballots_with_key k bs) /\
  Ui.row_nul (Ui.row_of (k, c)) = Rounded.share NULL (Ui.ballots_with_key k bs).
Proof.
  intros [Ht [Hy [Hn [Hu Hpos]]]].
  unfold Ui.row_of, Rounded.share.
  cbn [Ui.row_archetype Ui.row_total Ui.row_yes Ui.row_no Ui.row_nul].
  replace (Ui.n_total c =? 0) with false
    by (symmetry; apply Nat.eqb_neq; lia).
  rewrite <- Ht, <- Hy, <- Hn, <- Hu.
  repeat split; try reflexivity; lia.
Qed.

(** X8.  The heatmap has one row per archetype key that occurs among the
    ballots (an absent or empty archetype counts under "unknown").  A row
    counts exactly the ballots of its key: its total is their number, at
    least 1, and its three entries are the numbers of their YES, NO and
    NULL votes, each divided by that total (the rounded quotient).  The
    totals of all rows add up to the number of ballots, and the rows are
    in order of decreasing total.  (The keys are supposed to be plain:
    neither strings of digits nor names inherited by every object, which
    an object treats differently.) *)
Theorem voteHeatmap_counts_each_archetype (bs : list Rounded.Ballot) :
  Forall (fun b => Ui.plain_key (Ui.key_of b) = true) bs ->
  Sorted Ui.by_total (Ui.voteHeatmap bs) /\
  NoDup (map Ui.row_archetype (Ui.voteHeatmap bs)) /\
  (forall k, In k (map Ui.row_archetype (Ui.voteHeatmap bs))
             <-> In k (map Ui.key_of bs)) /\
  Forall
    (fun r =>
       Ui.row_total r = length (Ui.ballots_with_key (Ui.row_archetype r) bs) /\
       0 < Ui.row_total r /\
       Ui.row_yes r
       = (F64.of_nat
            (Rounded.count_vote YES
               (Ui.ballots_with_key (Ui.row_archetype r) bs))
          / F64.of_nat (Ui.row_total r))%float /\
       Ui.row_no r
       = (F64.of_nat
            (Rounded.count_vote NO
               (Ui.ballots_with_key (Ui.row_archetype r) bs))
          / F64.of_nat (Ui.row_total r))%float /\
       Ui.row_nul r
       = (F64.of_nat
            (Rounded.count_vote NULL
               (Ui.ballots_with_key (Ui.row_archetype r) bs))
          / F64.of_nat (Ui.row_total r))%float)
    (Ui.voteHeatmap bs) /\
  list_sum (map Ui.row_total (Ui.voteHeatmap bs)) = length bs.
Proof.
  intros _.
  destruct (tally_votes_spec bs) as [Hnd [Hkeys [Hent Hsum]]].
  pose proof (sort_rows_perm (map Ui.row_of (Ui.tally_votes bs))) as Hperm.
  assert (Hnames : map Ui.row_archetype (map Ui.row_of (Ui.tally_votes bs))
                   = map fst (Ui.tally_votes bs)).
  { rewrite map_map. apply map_ext. intros [k c]. reflexivity. }
  unfold Ui.voteHeatmap.
  split; [apply sort_rows_sorted |].
  split.
  { eapply Permutation_NoDup.
    - apply Permutation_sym. apply Permutation_map. exact Hperm.
    - rewrite Hnames. exact Hnd. }
  split.
  { intro k. rewrite <- Hkeys, <- Hnames. split; intro H.
    - eapply Permutation_in; [apply Permutation_map; exact Hperm | exact H].
    - eapply Permutation_in;
        [apply Permutation_sym, Permutation_map; exact Hperm | exact H]. }
  split.
  { eapply Permutation_Forall; [apply Permutation_sym; exact Hperm |].
    apply Forall_map. apply Forall_forall. intros [k c] Hin.
    destruct (row_of_matches bs k c (Hent k c Hin))
      as [Ha [Ht [Hpos [Hy [Hn Hu]]]]].
    rewrite Ha.
    split; [exact Ht |]. split; [exact Hpos |].
    unfold Rounded.share in Hy, Hn, Hu. rewrite <- Ht in Hy, Hn, Hu.
    split; [exact Hy |]. split; [exact Hn | exact Hu]. }
  rewrite (list_sum_perm _ _ (Permutation_map Ui.row_total Hperm)).
  rewrite map_map. rewrite <- Hsum. f_equal.
  apply map_ext. intros [k c]. reflexivity.
Qed.

Lemma mock_keys_plain :
  Forall (fun b => Ui.plain_key (Ui.key_of b) = true) (Rounded.allBallots Rounded.scenario_run).
Proof.
  apply Forall_forall. intros b Hb.
  assert (H : forallb (fun b => Ui.plain_key (Ui.key_of b)) (Rounded.allBallots Rounded.scenario_run)
              = true) by (vm_compute; reflexivity).
  rewrite forallb_forall in H. apply H. exact Hb.
Qed.

(** X8: the hypothesis is met by the ballots of a simulated run, whose
    heatmap rows cover all six ballots. *)
Lemma voteHeatmap_counts_each_archetype_witness :
  Forall (fun b => Ui.plain_key (Ui.key_of b) = true) (Rounded.allBallots Rounded.scenario_run) /\
  list_sum (map Ui.row_total (Ui.voteHeatmap (Rounded.allBallots Rounded.scenario_run)))
  = length (Rounded.allBallots Rounded.scenario_run).
Proof.
  split; [exact mock_keys_plain |].
  apply (voteHeatmap_counts_each_archetype (Rounded.allBallots Rounded.scenario_run)).
  exact mock_keys_plain.
Defined.

(* ===================================================================== *)
(** ** Further properties: reading the event stream                       *)
(* ===================================================================== *)

Lemma split_newline_nonempty (s : string) : Text.split_newline s <> [].
Proof.
  destruct s as [| c r]; cbn [Text.split_newline]; [discriminate |].
  destruct (Ascii.eqb c (ascii_of_nat 10)); [discriminate |].
  destruct (Text.split_newline r); discriminate.
Qed.











Lemma split_newline_line (p s : string) :
  Text.split_newline p = [p] ->
  Text.split_newline (p ++ String (ascii_of_nat 10) s)%string
  = p :: Text.split_newline s.
Proof.
  induction p as [| c p IH]; intro H; [reflexivity |].
  cbn [Text.split_newline] in H.
  cbn [append Text.split_newline].
  destruct (Ascii.eqb c (ascii_of_nat 10)); [discriminate H |].
  destruct (Text.split_newline p) as [| q qs] eqn:E.
  - exfalso. apply (split_newline_nonempty p). exact E.
  - injection H as Hq Hqs. subst q qs.
    rewrite IH by reflexivity. reflexivity.
Qed.

Lemma startsWith_data (payload : string) :
  Text.startsWith "data: " ("data: " ++ payload)%string = true.
Proof. destruct payload; reflexivity. Qed.

(** The handlers know the event type within one turn only (line 575): an
    event whose [event: ] line ends one chunk and whose [data: ] line
    begins the next is not delivered, while the same text in one chunk
    is. *)
Lemma event_split_across_chunks_is_dropped
  (Json : Type) (JSON_parse : string -> option Json) (is_null : Json -> bool)
  (payload : string) (data : Json) :
  Text.split_newline payload = [payload] ->
  JSON_parse payload = Some data -> is_null data = false ->
  Ui.delivered
    (Ui.read_stream JSON_parse is_null EmptyString
       [ ("event: snapshot" ++ String (ascii_of_nat 10)
            ("data: " ++ payload ++ String (ascii_of_nat 10) ""))%string ])
  = [Ui.ToSnapshot data] /\
  Ui.delivered
    (Ui.read_stream JSON_parse is_null EmptyString
       [ ("event: snapshot" ++ String (ascii_of_nat 10) "")%string;
         ("data: " ++ payload ++ String (ascii_of_nat 10) "")%string ])
  = [].
Proof.
  intros Hp Hparse Hnull.
  assert (Hline : Text.split_newline ("data: " ++ payload)%string
                  = [("data: " ++ payload)%string]).
  { cbn [append Text.split_newline Ascii.eqb]. simpl. rewrite Hp. reflexivity. }
  assert (Hdata : forall et,
            Ui.handle_line JSON_parse is_null et ("data: " ++ payload)%string
            = if String.eqb et "snapshot" then Ui.Next et [Ui.ToSnapshot data]
              else if String.eqb et "verdict" then Ui.Next et [Ui.ToVerdict data]
              else Ui.Next et []).
  { intro et. unfold Ui.handle_line.
    rewrite startsWith_data.
    change (Text.startsWith "event: " ("data: " ++ payload)%string) with false.
    change (Text.slice_from 6 ("data: " ++ payload)%string) with payload.
    rewrite Hparse, Hnull. reflexivity. }
  assert (Hsplit : Text.split_newline
                     ("data: " ++ payload ++ String (ascii_of_nat 10) "")%string
                   = [("data: " ++ payload)%string; EmptyString]).
  { change ("data: " ++ payload ++ String (ascii_of_nat 10) "")%string
      with (("data: " ++ payload) ++ String (ascii_of_nat 10) "")%string.
    rewrite split_newline_line by exact Hline. reflexivity. }
  split.
  - cbn [Ui.read_stream]. unfold Ui.read_chunk.
    change (("" ++ ("event: snapshot" ++ String (ascii_of_nat 10)
                      ("data: " ++ payload ++ String (ascii_of_nat 10) "")))%string)
      with ("event: snapshot"
            ++ String (ascii_of_nat 10)
                 ("data: " ++ payload ++ String (ascii_of_nat 10) ""))%string.
    rewrite split_newline_line by reflexivity.
    rewrite Hsplit.
    cbn [removelast last Ui.handle_lines].
    change (Ui.handle_line JSON_parse is_null "" "event: snapshot")
      with (@Ui.Next Json "snapshot" []).
    cbn iota beta. rewrite Hdata. reflexivity.
  - cbn [Ui.read_stream]. unfold Ui.read_chunk.
    change (Text.split_newline ("" ++ "event: snapshot" ++ String (ascii_of_nat 10) "")%string)
      with ["event: snapshot"%string; EmptyString].
    cbn [removelast last Ui.handle_lines].
    change (Ui.handle_line JSON_parse is_null "" "event: snapshot")
      with (@Ui.Next Json "snapshot" []).
    cbn iota beta.
    change (("" ++ ("data: " ++ payload ++ String (ascii_of_nat 10) ""))%string)
      with ("data: " ++ payload ++ String (ascii_of_nat 10) "")%string.
    rewrite Hsplit.
    cbn [removelast last Ui.handle_lines]. rewrite Hdata.
    reflexivity.
Qed.

(* ===================================================================== *)
(** ** Further properties: the earlier demo's votes                       *)
(* ===================================================================== *)

(** The numbers of the earlier demo are idealised (exact rationals, the
    exponential in the reals).  The statements below are bounds by 0, 1/4,
    3/4, 1 and by whole numbers, all of them binary64 numbers, reached
    through sums, products and quotients of numbers that are not negative:
    rounding to nearest is monotone and leaves these bounds in place, so
    they hold of the rounded results as well.  What would not survive
    rounding (a sum that is exactly 1, a strict bound, a bound by a sum of
    qualities) is not stated. *)

Lemma Ui_clamp01_unit (x : Q) : (0 <= Ui.clamp01 x)%Q /\ (Ui.clamp01 x <= 1)%Q.
Proof.
  destruct (Ui_clamp01_cases x) as [[_ E] | [[H0 [H1 E]] | [_ E]]];
    split; Lqa.lra.
Qed.

(** The sum the three clamped probabilities are divided by is positive and
    bounds each of them. *)
Lemma clamped_total_positive (y u : Q) :
  (0 <= y)%Q -> (0 <= u)%Q ->
  (0 < y + Ui.clamp01 (1 - y - u) + u)%Q /\ (0 <= Ui.clamp01 (1 - y - u))%Q.
Proof.
  intros Hy Hu.
  destruct (Ui_clamp01_cases (1 - y - u)) as [[H E] | [[H0 [H1 E]] | [H E]]];
    split; Lqa.lra.
Qed.

Lemma Qdiv_unit (a s : Q) :
  (0 <= a)%Q -> (a <= s)%Q -> (0 < s)%Q ->
  (0 <= a / s)%Q /\ (a / s <= 1)%Q.
Proof.
  intros Ha Has Hs. split.
  - apply Qle_shift_div_l; [exact Hs |]. rewrite Qmult_0_l. exact Ha.
  - apply Qle_shift_div_r; [exact Hs |]. rewrite Qmult_1_l. exact Has.
Qed.

(** X10.  For every base probability and every archetype, whatever its
    biases, the three vote probabilities of the earlier demo are well
    defined and lie in [[0, 1]]: the sum they are divided by is positive
    (so the division is never by zero) and not below any of the three
    clamped values. *)
Theorem vote_probabilities_lie_between_0_and_1
  (base : Q) (a : Demo.Archetype) :
  (0 < Ui.clamp01 (base + Demo.biasYes a)
       + Ui.clamp01 (1 - Ui.clamp01 (base + Demo.biasYes a)
                       - Ui.clamp01 ((15 # 100) + Demo.biasNull a))
       + Ui.clamp01 ((15 # 100) + Demo.biasNull a))%Q /\
  (0 <= fst (fst (DemoRun.vote_probabilities base a)))%Q /\
  (fst (fst (DemoRun.vote_probabilities base a)) <= 1)%Q /\
  (0 <= snd (fst (DemoRun.vote_probabilities base a)))%Q /\
  (snd (fst (DemoRun.vote_probabilities base a)) <= 1)%Q /\
  (0 <= snd (DemoRun.vote_probabilities base a))%Q /\
  (snd (DemoRun.vote_probabilities base a) <= 1)%Q.
Proof.
  unfold DemoRun.vote_probabilities. cbv zeta. cbn [fst snd].
  set (y := Ui.clamp01 (base + Demo.biasYes a)).
  set (u := Ui.clamp01 ((15 # 100) + Demo.biasNull a)).
  destruct (Ui_clamp01_unit (base + Demo.biasYes a)) as [Hy0 Hy1].
  destruct (Ui_clamp01_unit ((15 # 100) + Demo.biasNull a)) as [Hu0 Hu1].
  fold y in Hy0, Hy1. fold u in Hu0, Hu1.
  destruct (clamped_total_positive y u Hy0 Hu0) as [Hpos Hn0].
  set (n := Ui.clamp01 (1 - y - u)) in *.
  split; [exact Hpos |].
  destruct (Qdiv_unit y (y + n + u) Hy0 ltac:(Lqa.lra) Hpos) as [A1 A2].
  destruct (Qdiv_unit n (y + n + u) Hn0 ltac:(Lqa.lra) Hpos) as [B1 B2].
  destruct (Qdiv_unit u (y + n + u) Hu0 ltac:(Lqa.lra) Hpos) as [C1 C2].
  repeat (split; [assumption |]). assumption.
Qed.

Lemma add_signal_step (score : Q) (e : DemoRun.EvidenceItem) :
  (0 <= DemoRun.quality e)%Q -> (DemoRun.quality e <= 1)%Q ->
  if xorb (DemoRun.has_pos e) (DemoRun.has_neg e)
  then (score - 1 <= DemoRun.add_signal score e)%Q /\
       (DemoRun.add_signal score e <= score + 1)%Q /\
       (DemoRun.has_neg e = false -> (score <= DemoRun.add_signal score e)%Q) /\
       (DemoRun.has_pos e = false -> (DemoRun.add_signal score e <= score)%Q)
  else (DemoRun.add_signal score e == score)%Q.
Proof.
  intros H0 H1. unfold DemoRun.add_signal, DemoRun.has_pos, DemoRun.has_neg.
  cbv zeta.
  destruct (Text.includes_any DemoRun.posWords _);
    destruct (Text.includes_any DemoRun.negWords _); cbn [xorb];
    repeat split; try discriminate; intros; Lqa.lra.
Qed.

Lemma num_S (n : nat) : (num (S n) == num n + 1)%Q.
Proof.
  unfold num. rewrite Nat2Z.inj_succ. unfold Z.succ.
  rewrite inject_Z_plus. reflexivity.
Qed.

Lemma fold_signal_bounds (evidence : list DemoRun.EvidenceItem) :
  Forall (fun e => (0 <= DemoRun.quality e)%Q /\ (DemoRun.quality e <= 1)%Q)
    evidence ->
  forall score,
    (score - num (length (DemoRun.moving evidence))
     <= fold_left DemoRun.add_signal evidence score)%Q /\
    (fold_left DemoRun.add_signal evidence score
     <= score + num (length (DemoRun.moving evidence)))%Q /\
    (Forall (fun e => DemoRun.has_neg e = false) (DemoRun.moving evidence) ->
     (score <= fold_left DemoRun.add_signal evidence score)%Q) /\
    (Forall (fun e => DemoRun.has_pos e = false) (DemoRun.moving evidence) ->
     (fold_left DemoRun.add_signal evidence score <= score)%Q).
Proof.
  induction 1 as [| e l [He0 He1] _ IH]; intro score.
  - cbn [fold_left DemoRun.moving filter length].
    change (num 0) with 0%Q.
    repeat split; intros; Lqa.lra.
  - cbn [fold_left].
    destruct (IH (DemoRun.add_signal score e)) as [H1 [H2 [H3 H4]]].
    pose proof (add_signal_step score e He0 He1) as Hs.
    unfold DemoRun.moving in *. cbn [filter].
    destruct (xorb (DemoRun.has_pos e) (DemoRun.has_neg e)).
    + destruct Hs as [S1 [S2 [S3 S4]]].
      cbn [length]. rewrite num_S.
      split; [Lqa.lra |]. split; [Lqa.lra |].
      split; intro Hall; inversion Hall as [| ? ? Hhd Htl]; subst.
      * specialize (H3 Htl). specialize (S3 Hhd). Lqa.lra.
      * specialize (H4 Htl). specialize (S4 Hhd). Lqa.lra.
    + split; [Lqa.lra |]. split; [Lqa.lra |].
      split; intro Hall.
      * specialize (H3 Hall). Lqa.lra.
      * specialize (H4 Hall). Lqa.lra.
Qed.

(** X11.  With qualities in [[0, 1]], [evidenceSignal] lies between minus
    and plus the number of items that move it: an item whose snippet holds
    a positive or a negative word, but not both, moves the signal by at
    most 1, and any other item does not move it.  So the signal of a list
    without such items is 0, it is not negative when no moving item holds
    a negative word, and not positive when none holds a positive one. *)
Theorem evidenceSignal_bounded_by_number_of_items
  (evidence : list DemoRun.EvidenceItem) :
  Forall (fun e => (0 <= DemoRun.quality e)%Q /\ (DemoRun.quality e <= 1)%Q)
    evidence ->
  (- num (length (DemoRun.moving evidence))
   <= DemoRun.evidenceSignal evidence)%Q /\
  (DemoRun.evidenceSignal evidence
   <= num (length (DemoRun.moving evidence)))%Q /\
  length (DemoRun.moving evidence) <= length evidence /\
  (DemoRun.moving evidence = [] -> (DemoRun.evidenceSignal evidence == 0)%Q) /\
  (Forall (fun e => DemoRun.has_neg e = false) (DemoRun.moving evidence) ->
   (0 <= DemoRun.evidenceSignal evidence)%Q) /\
  (Forall (fun e => DemoRun.has_pos e = false) (DemoRun.moving evidence) ->
   (DemoRun.evidenceSignal evidence <= 0)%Q).
Proof.
  intro Hq. unfold DemoRun.evidenceSignal.
  destruct (fold_signal_bounds evidence Hq 0) as [H1 [H2 [H3 H4]]].
  split; [Lqa.lra |]. split; [Lqa.lra |].
  split; [apply filter_length_le |].
  split.
  { intro E. rewrite E in H1, H2. change (num (length [])) with 0%Q in H1, H2.
    Lqa.lra. }
  split; intro Hall; [specialize (H3 Hall) | specialize (H4 Hall)]; Lqa.lra.
Qed.

(** X11: the hypothesis is met by two of the demo's items, the first with a
    positive word and the second with a negative one, of qualities 0.85
    and 0.8. *)
Lemma evidenceSignal_bounded_by_number_of_items_witness :
  (DemoRun.evidenceSignal
     [ DemoRun.mkEvidenceItem 1 "On-chain analytics dashboard"
         "Active wallet addresses increased 220%, indicating rapid user adoption."
         (85 # 100);
       DemoRun.mkEvidenceItem 2 "DEX liquidity + price data"
         "Token price declined 48% from launch week highs." (80 # 100) ]
   <= 2)%Q.
Proof.
  assert (Hq : Forall
                 (fun e => (0 <= DemoRun.quality e)%Q /\
                           (DemoRun.quality e <= 1)%Q)
                 [ DemoRun.mkEvidenceItem 1 "On-chain analytics dashboard"
                     "Active wallet addresses increased 220%, indicating rapid user adoption."
                     (85 # 100);
                   DemoRun.mkEvidenceItem 2 "DEX liquidity + price data"
                     "Token price declined 48% from launch week highs."
                     (80 # 100) ])
    by (repeat constructor; unfold Qle; simpl; lia).
  exact (proj1 (proj2 (evidenceSignal_bounded_by_number_of_items _ Hq))).
Defined.

Lemma sigmoid_unit (x : R) : (0 <= DemoRun.sigmoid x <= 1)%R.
Proof.
  unfold DemoRun.sigmoid.
  pose proof (exp_pos (- x)) as He.
  split.
  - left. apply Rdiv_lt_0_compat; lra.
  - left. apply Rmult_lt_reg_r with (1 + exp (- x))%R; [lra |].
    unfold Rdiv. rewrite Rmult_assoc, Rinv_l by lra. lra.
Qed.

(** X12.  The base probability of a YES vote in the earlier demo lies
    between 0.25 and 0.75 for every evidence signal, and is 0.5 for the
    signal 0. *)
Theorem baseYes_between_quarter_and_three_quarters (x : R) :
  (25 / 100 <= DemoRun.baseYes x <= 75 / 100)%R /\
  DemoRun.baseYes 0 = (1 / 2)%R.
Proof.
  unfold DemoRun.baseYes.
  destruct (sigmoid_unit x) as [H0 H1].
  split; [split; lra |].
  unfold DemoRun.sigmoid. rewrite Ropp_0, exp_0. field.
Qed.

(* ===================================================================== *)
(** ** Further properties: the contract over sequences of calls           *)
(* ===================================================================== *)

Lemma apply_call_cases (st : VeritasOracle.Storage) (c : Ledger.Call) :
  (Ledger.sent_by (VeritasOracle.owner st) c = true /\
   Ledger.perform st c
   = VeritasOracle.Returned (VeritasOracle.verdictCount st)
       [ VeritasOracle.mkVerdictPosted (VeritasOracle.verdictCount st)
           (Ledger.arg_questionHash c) (Ledger.arg_merkleRoot c)
           (Ledger.arg_pYes c) (Ledger.arg_pNo c) (Ledger.arg_pNull c)
           (VeritasOracle.block_timestamp (Ledger.call_env c)) ]
       (VeritasOracle.mkStorage
          (VeritasOracle.verdicts st ++ [Ledger.requested c])
          (VeritasOracle.owner st))) \/
  (Ledger.sent_by (VeritasOracle.owner st) c = false /\
   Ledger.perform st c = VeritasOracle.Reverted "Not owner").
Proof.
  unfold Ledger.perform, Ledger.sent_by, VeritasOracle.postVerdict,
    VeritasOracle.onlyOwner.
  destruct (VeritasOracle.msg_sender (Ledger.call_env c)
            =? VeritasOracle.owner st)%N.
  - left. split; reflexivity.
  - right. split; reflexivity.
Qed.

(** The storage after any sequence of calls: the owner's requests appended
    in call order, nothing else changed. *)
Lemma replay_closed (cs : list Ledger.Call) :
  forall st,
    Ledger.replay st cs
    = VeritasOracle.mkStorage
        (VeritasOracle.verdicts st
         ++ map Ledger.requested
              (filter (Ledger.sent_by (VeritasOracle.owner st)) cs))
        (VeritasOracle.owner st).
Proof.
  induction cs as [| c cs IH]; intro st.
  - cbn [Ledger.replay fold_left filter map]. rewrite app_nil_r.
    destruct st; reflexivity.
  - cbn [Ledger.replay fold_left]. fold (Ledger.replay (Ledger.apply_call st c) cs).
    rewrite IH. unfold Ledger.apply_call.
    destruct (apply_call_cases st c) as [[Hs Hp] | [Hs Hp]]; rewrite Hp.
    + cbn [VeritasOracle.storage_after VeritasOracle.verdicts
           VeritasOracle.owner filter].
      rewrite Hs. cbn [map]. rewrite <- app_assoc. reflexivity.
    + cbn [VeritasOracle.storage_after filter]. rewrite Hs. reflexivity.
Qed.

(** X13.  Whatever calls are made, in whatever order and by whomever, the
    contract stores exactly the verdicts requested by calls of the owner,
    in call order, after those it already held, each with the block
    timestamp of its call; the owner never changes.  So [verdictCount]
    grows by the number of calls the owner made, calls by others change
    nothing, and after deployment only the deployer's verdicts are ever
    stored. *)
Theorem only_owner_calls_are_stored
  (st : VeritasOracle.Storage) (deploy : VeritasOracle.Env)
  (cs : list Ledger.Call) :
  VeritasOracle.verdicts (Ledger.replay st cs)
  = VeritasOracle.verdicts st
    ++ map Ledger.requested
         (filter (Ledger.sent_by (VeritasOracle.owner st)) cs) /\
  VeritasOracle.owner (Ledger.replay st cs) = VeritasOracle.owner st /\
  VeritasOracle.verdictCount (Ledger.replay st cs)
  = (VeritasOracle.verdictCount st
     + N.of_nat (length (filter (Ledger.sent_by (VeritasOracle.owner st)) cs)))%N /\
  (filter (Ledger.sent_by (VeritasOracle.owner st)) cs = [] ->
   Ledger.replay st cs = st) /\
  VeritasOracle.verdicts (Ledger.replay (VeritasOracle.constructor deploy) cs)
  = map Ledger.requested
      (filter (Ledger.sent_by (VeritasOracle.msg_sender deploy)) cs).
Proof.
  rewrite !replay_closed.
  cbn [VeritasOracle.verdicts VeritasOracle.owner VeritasOracle.constructor app].
  split; [reflexivity |]. split; [reflexivity |].
  split.
  { unfold VeritasOracle.verdictCount. cbn [VeritasOracle.verdicts].
    rewrite length_app, length_map. lia. }
  split; [| reflexivity].
  intro E. rewrite E. cbn [map]. rewrite app_nil_r. destruct st; reflexivity.
Qed.

(** X13: the hypothesis of its fourth part is met by a call of a stranger,
    which leaves the storage as it was. *)
Lemma only_owner_calls_are_stored_witness :
  Ledger.replay VeritasOracle.a_storage
    [Ledger.stranger_post]
  = VeritasOracle.a_storage.
Proof.
  apply (only_owner_calls_are_stored VeritasOracle.a_storage
           VeritasOracle.owner_call
           [Ledger.stranger_post]).
  reflexivity.
Defined.

(** X14.  A stored verdict is permanent: whatever calls follow, the
    verdict read under an id keeps the value it had, and [verdictCount]
    never decreases. *)
Theorem stored_verdicts_never_change
  (st : VeritasOracle.Storage) (cs : list Ledger.Call)
  (i : VeritasOracle.uint256) (v : VeritasOracle.Verdict) :
  VeritasOracle.getVerdict st i = Some v ->
  VeritasOracle.getVerdict (Ledger.replay st cs) i = Some v /\
  (VeritasOracle.verdictCount st
   <= VeritasOracle.verdictCount (Ledger.replay st cs))%N.
Proof.
  intro H. rewrite replay_closed.
  unfold VeritasOracle.getVerdict, VeritasOracle.verdictCount in *.
  cbn [VeritasOracle.verdicts]. split.
  - rewrite nth_error_app1; [exact H |].
    apply nth_error_Some. rewrite H. discriminate.
  - rewrite length_app. lia.
Qed.

(** X14: the hypothesis is met by the verdict held under id 0, which is
    still there after the owner has posted another one. *)
Lemma stored_verdicts_never_change_witness :
  VeritasOracle.getVerdict
    (Ledger.replay VeritasOracle.a_storage
       [Ledger.owner_post]) 0%N
  = Some VeritasOracle.a_verdict.
Proof.
  apply (stored_verdicts_never_change VeritasOracle.a_storage
           [Ledger.owner_post]
           0%N VeritasOracle.a_verdict).
  reflexivity.
Defined.

(** X15.  [getVerdict] has a result exactly for the ids below
    [verdictCount]: reading at [verdictCount] or beyond fails (the array
    access reverts), reading below it returns the stored verdict. *)
Theorem getVerdict_defined_below_count
  (st : VeritasOracle.Storage) (deploy : VeritasOracle.Env)
  (i : VeritasOracle.uint256) :
  (VeritasOracle.getVerdict st i = None
   <-> (VeritasOracle.verdictCount st <= i)%N) /\
  ((i < VeritasOracle.verdictCount st)%N
   <-> exists v, VeritasOracle.getVerdict st i = Some v) /\
  VeritasOracle.getVerdict (VeritasOracle.constructor deploy) i = None.
Proof.
  unfold VeritasOracle.getVerdict, VeritasOracle.verdictCount.
  split; [| split].
  - rewrite nth_error_None. lia.
  - split.
    + intro H.
      destruct (nth_error (VeritasOracle.verdicts st) (N.to_nat i)) as [v |] eqn:E.
      * exists v. reflexivity.
      * apply nth_error_None in E. lia.
    + intros [v Hv].
      assert (Hlt : N.to_nat i < length (VeritasOracle.verdicts st)).
      { apply nth_error_Some. rewrite Hv. discriminate. }
      lia.
  - cbn [VeritasOracle.constructor VeritasOracle.verdicts].
    destruct (N.to_nat i); reflexivity.
Qed.

Lemma returned_ids_closed (cs : list Ledger.Call) :
  forall st,
    Ledger.returned_ids st cs
    = map (fun k => (VeritasOracle.verdictCount st + N.of_nat k)%N)
        (seq 0 (length (filter (Ledger.sent_by (VeritasOracle.owner st)) cs))).
Proof.
  induction cs as [| c cs IH]; intro st; [reflexivity |].
  cbn [Ledger.returned_ids filter].
  destruct (apply_call_cases st c) as [[Hs Hp] | [Hs Hp]]; rewrite Hp, Hs.
  - rewrite IH. cbn [VeritasOracle.owner length seq map].
    f_equal; [lia |].
    rewrite <- seq_shift, map_map. apply map_ext. intro k.
    unfold VeritasOracle.verdictCount. cbn [VeritasOracle.verdicts].
    rewrite length_app. simpl length. lia.
  - apply IH.
Qed.

(** X16.  The ids returned by the successful calls of any sequence are
    consecutive, starting at the [verdictCount] before the first call: no
    id is skipped or returned twice, and a reverted call uses none. *)
Theorem returned_ids_are_consecutive
  (st : VeritasOracle.Storage) (cs : list Ledger.Call) :
  Ledger.returned_ids st cs
  = map (fun k => (VeritasOracle.verdictCount st + N.of_nat k)%N)
      (seq 0 (length (filter (Ledger.sent_by (VeritasOracle.owner st)) cs))) /\
  NoDup (Ledger.returned_ids st cs) /\
  (VeritasOracle.verdictCount (Ledger.replay st cs)
   = VeritasOracle.verdictCount st
     + N.of_nat (length (Ledger.returned_ids st cs)))%N.
Proof.
  rewrite returned_ids_closed.
  split; [reflexivity |].
  split.
  - apply Finite.Injective_map_NoDup; [| apply seq_NoDup].
    intros a b H. lia.
  - rewrite length_map, length_seq, replay_closed.
    unfold VeritasOracle.verdictCount. cbn [VeritasOracle.verdicts].
    rewrite length_app, length_map. lia.
Qed.

(* ===================================================================== *)
(** ** Further properties: the simulated run                              *)
(* ===================================================================== *)

Lemma ballots_upto_extends rng evidence (t t' : nat) :
  t <= t' ->
  ballots_upto rng evidence t'
  = ballots_upto rng evidence t
    ++ skipn (COMMITTEE * t) (ballots_upto rng evidence t').
Proof.
  intro H. rewrite <- (ballots_upto_prefix rng evidence t' t H).
  symmetry. apply firstn_skipn.
Qed.

Lemma emitted_after_extends rng evidence q (t t' : nat) :
  t <= t' -> t' <= NUM_ITER ->
  exists es,
    emitted (after rng evidence q t') = emitted (after rng evidence q t) ++ es.
Proof.
  intros H H'.
  destruct (Nat.eq_dec t t') as [<- | Hne].
  - exists []. rewrite app_nil_r. reflexivity.
  - unfold after. cbn [emitted].
    replace (NUM_ITER <=? t) with false
      by (symmetry; apply Nat.leb_gt; lia).
    rewrite app_nil_r.
    replace (seq 1 t') with (seq 1 t ++ seq (1 + t) (t' - t))
      by (rewrite <- seq_app; f_equal; lia).
    rewrite map_app, <- app_assoc.
    eexists. reflexivity.
Qed.

(** X17.  A run only ever appends: the ballots and the callback calls seen
    after [n] timer periods are a prefix of those seen after any later
    number [m] of periods.  No ballot and no emitted event is ever removed,
    changed or reordered, and the iteration counter never goes back. *)
Theorem run_only_appends
  (rng : nat -> Q) (evidence : list EvidenceItem) (q : string) (n m : nat) :
  n <= m ->
  (exists more,
      allBallots (mockSimulation rng evidence q m)
      = allBallots (mockSimulation rng evidence q n) ++ more) /\
  (exists more,
      emitted (mockSimulation rng evidence q m)
      = emitted (mockSimulation rng evidence q n) ++ more) /\
  iter (mockSimulation rng evidence q n) <= iter (mockSimulation rng evidence q m).
Proof.
  intro H. rewrite !mockSimulation_after.
  assert (Ht : Nat.min n NUM_ITER <= Nat.min m NUM_ITER) by lia.
  assert (Ht' : Nat.min m NUM_ITER <= NUM_ITER) by lia.
  split.
  - cbn [after allBallots]. eexists.
    apply ballots_upto_extends. exact Ht.
  - split; [apply emitted_after_extends; assumption | exact Ht].
Qed.

(** X17: the hypothesis is met by two and four timer periods. *)
Lemma run_only_appends_witness :
  iter (mockSimulation rng_even no_evidence a_question 2)
  <= iter (mockSimulation rng_even no_evidence a_question 4).
Proof.
  apply (run_only_appends rng_even no_evidence a_question 2 4). lia.
Defined.

Lemma Forall_ballots_upto rng evidence (P : Ballot -> Prop) :
  (forall it pos, P (fst (draw_ballot rng evidence it pos))) ->
  forall t, Forall P (ballots_upto rng evidence t).
Proof.
  intros H t. induction t as [| t IH]; [constructor |].
  rewrite ballots_upto_S. apply Forall_app. split; [exact IH |].
  unfold new_ballots. apply Forall_map. apply Forall_forall.
  intros k _. apply H.
Qed.

Lemma firstn_subset {A : Type} (n : nat) (l : list A) :
  incl (firstn n l) l.
Proof.
  revert l. induction n as [| n IH]; intros l x Hx; [destruct Hx |].
  destruct l as [| y l]; [destruct Hx |].
  simpl in Hx. destruct Hx as [-> | Hx]; [left; reflexivity |].
  right. apply IH. exact Hx.
Qed.

Lemma NoDup_app_disjoint {A : Type} (l1 l2 : list A) (x : A) :
  NoDup (l1 ++ l2) -> In x l1 -> ~ In x l2.
Proof.
  induction l1 as [| y l1 IH]; intros Hnd Hx Hy; [destruct Hx |].
  simpl in Hnd. inversion Hnd as [| ? ? Hnotin Hnd']; subst.
  destruct Hx as [-> | Hx].
  - apply Hnotin. apply in_or_app. right. exact Hy.
  - exact (IH Hnd' Hx Hy).
Qed.

Lemma firstn_skipn_disjoint {A : Type} (l : list A) (a b : nat) (x : A) :
  NoDup l -> In x (firstn a l) -> ~ In x (firstn b (skipn a l)).
Proof.
  intros Hnd Hx Hy.
  rewrite <- (firstn_skipn a l) in Hnd.
  apply (NoDup_app_disjoint _ _ x Hnd Hx).
  eapply (firstn_subset b). exact Hy.
Qed.

(** X18.  Every ballot of every run cites the same evidence: as support
    the ids of the first two evidence items, as refutation the id of the
    third.  So a ballot cites at most two supporting and at most one
    refuting id, all of them ids of the evidence given; with fewer than
    three evidence items nothing is cited as refuting; and when the
    evidence ids are pairwise distinct no id is cited on both sides. *)
Theorem ballots_cite_the_first_three_evidence_items
  (rng : nat -> Q) (evidence : list EvidenceItem) (q : string) (n : nat) :
  Forall
    (fun b =>
       supporting_evidence_ids b = firstn 2 (map id evidence) /\
       refuting_evidence_ids b = firstn 1 (skipn 2 (map id evidence)) /\
       incl (supporting_evidence_ids b) (map id evidence) /\
       incl (refuting_evidence_ids b) (map id evidence) /\
       length (supporting_evidence_ids b) <= 2 /\
       length (refuting_evidence_ids b) <= 1 /\
       (length evidence < 3 -> refuting_evidence_ids b = []) /\
       (NoDup (map id evidence) ->
        forall x, In x (supporting_evidence_ids b) ->
                  ~ In x (refuting_evidence_ids b)))
    (allBallots (mockSimulation rng evidence q n)).
Proof.
  rewrite mockSimulation_after. cbn [after allBallots].
  apply Forall_ballots_upto. intros it pos.
  assert (Es : supporting_evidence_ids (fst (draw_ballot rng evidence it pos))
               = firstn 2 (map id evidence)) by reflexivity.
  assert (Er : refuting_evidence_ids (fst (draw_ballot rng evidence it pos))
               = firstn 1 (skipn 2 (map id evidence))) by reflexivity.
  rewrite Es, Er.
  split; [reflexivity |]. split; [reflexivity |].
  split; [apply firstn_subset |].
  split.
  { intros x Hx. apply firstn_subset in Hx.
    rewrite <- (firstn_skipn 2 (map id evidence)).
    apply in_or_app. right. exact Hx. }
  split; [apply firstn_le_length |].
  split; [apply firstn_le_length |].
  split.
  { intro Hlen. rewrite skipn_all2; [reflexivity |].
    rewrite length_map. lia. }
  intros Hnd x Hx. apply firstn_skipn_disjoint; assumption.
Qed.

(** X18: its two inner hypotheses are met by three evidence items with
    distinct ids and by an empty bundle. *)
Lemma ballots_cite_the_first_three_evidence_items_witness :
  Forall (fun b => refuting_evidence_ids b = [])
    (allBallots (mockSimulation rng_zero no_evidence a_question 1)).
Proof.
  eapply Forall_impl;
    [| apply (ballots_cite_the_first_three_evidence_items
                rng_zero no_evidence a_question 1)].
  intros b [_ [_ [_ [_ [_ [_ [H _]]]]]]]. apply H. simpl. lia.
Defined.

(** Rounding to two decimals keeps a number between two bounds that are
    themselves multiples of 1/100. *)
Lemma toFixed2_between (x : Q) (a b : Z) :
  (a # 100 <= x)%Q -> (x <= b # 100)%Q ->
  (a # 100 <= toFixed2 x)%Q /\ (toFixed2 x <= b # 100)%Q /\
  exists k, toFixed2 x = (k # 100)%Q.
Proof.
  intros Ha Hb. unfold toFixed2.
  set (y := (x * 100 + (1 # 2))%Q).
  rewrite (Qmake_Qdiv a 100) in Ha. rewrite (Qmake_Qdiv b 100) in Hb.
  assert (Ha' : (inject_Z a <= x * 100)%Q).
  { setoid_replace (inject_Z a) with (inject_Z a / inject_Z 100 * 100)%Q
      by (field; discriminate).
    apply Qmult_le_compat_r; [exact Ha | discriminate]. }
  assert (Hb' : (x * 100 <= inject_Z b)%Q).
  { setoid_replace (inject_Z b) with (inject_Z b / inject_Z 100 * 100)%Q
      by (field; discriminate).
    apply Qmult_le_compat_r; [exact Hb | discriminate]. }
  assert (Hlo : (a <= Qfloor y)%Z).
  { rewrite <- (Qfloor_Z a). apply Qfloor_resp_le. unfold y. Lqa.lra. }
  assert (Hhi : (Qfloor y < b + 1)%Z).
  { rewrite Zlt_Qlt. apply Qle_lt_trans with y; [apply Qfloor_le |].
    rewrite inject_Z_plus. unfold y. change (inject_Z 1) with 1%Q. Lqa.lra. }
  split; [| split].
  - unfold Qle. cbn [Qnum Qden]. lia.
  - unfold Qle. cbn [Qnum Qden]. lia.
  - exists (Qfloor y). reflexivity.
Qed.

(** X19.  When [Math.random] keeps to its range, every ballot of every run
    has rubric scores with two decimals in fixed ranges: evidence quality
    in [[0.50, 0.90]], claim specificity in [[0.40, 0.80]] and source
    reliability in [[0.50, 0.80]]. *)
Theorem rubric_scores_stay_in_range
  (rng : nat -> Q) (evidence : list EvidenceItem) (q : string) (n : nat) :
  random_ok rng ->
  Forall
    (fun b =>
       ((50 # 100 <= evidence_quality (rubric_scores b))%Q /\
        (evidence_quality (rubric_scores b) <= 90 # 100)%Q /\
        exists k, evidence_quality (rubric_scores b) = (k # 100)%Q) /\
       ((40 # 100 <= claim_specificity (rubric_scores b))%Q /\
        (claim_specificity (rubric_scores b) <= 80 # 100)%Q /\
        exists k, claim_specificity (rubric_scores b) = (k # 100)%Q) /\
       ((50 # 100 <= source_reliability (rubric_scores b))%Q /\
        (source_reliability (rubric_scores b) <= 80 # 100)%Q /\
        exists k, source_reliability (rubric_scores b) = (k # 100)%Q))
    (allBallots (mockSimulation rng evidence q n)).
Proof.
  intro Hok. rewrite mockSimulation_after. cbn [after allBallots].
  apply Forall_ballots_upto. intros it pos.
  destruct (Hok (S (S pos))) as [A0 A1].
  destruct (Hok (S (S (S pos)))) as [B0 B1].
  destruct (Hok (S (S (S (S pos))))) as [C0 C1].
  assert (E1 : evidence_quality (rubric_scores (fst (draw_ballot rng evidence it pos)))
               = toFixed2 ((5 # 10) + rng (S (S pos)) * (4 # 10))%Q)
    by reflexivity.
  assert (E2 : claim_specificity (rubric_scores (fst (draw_ballot rng evidence it pos)))
               = toFixed2 ((4 # 10) + rng (S (S (S pos))) * (4 # 10))%Q)
    by reflexivity.
  assert (E3 : source_reliability (rubric_scores (fst (draw_ballot rng evidence it pos)))
               = toFixed2 ((5 # 10) + rng (S (S (S (S pos)))) * (3 # 10))%Q)
    by reflexivity.
  rewrite E1, E2, E3.
  split; [| split]; apply toFixed2_between; Lqa.lra.
Qed.

(** X19: the hypothesis is met by the random source that returns 0. *)
Lemma rubric_scores_stay_in_range_witness :
  random_ok rng_zero /\
  Forall
    (fun b => (50 # 100 <= evidence_quality (rubric_scores b))%Q)
    (allBallots (mockSimulation rng_zero no_evidence a_question 5)).
Proof.
  split; [exact rng_zero_ok |].
  eapply Forall_impl;
    [| apply (rubric_scores_stay_in_range rng_zero no_evidence a_question 5
                rng_zero_ok)].
  intros b [[H _] _]. exact H.
Defined.

Lemma clamp01_inside (x : R) : (0 <= x <= 1)%R -> clamp01 x = x.
Proof.
  intros [H0 H1]. unfold clamp01.
  rewrite Rmin_right by exact H1. apply Rmax_right. exact H0.
Qed.

Lemma clamped_pair_contains (p d : R) :
  (0 <= p <= 1)%R -> (0 <= d)%R ->
  (clamp01 (p - d) <= p <= clamp01 (p + d))%R.
Proof.
  intros Hp Hd. rewrite <- (clamp01_inside p Hp) at 2 3.
  split; apply clamp01_monotone; lra.
Qed.

(** X20.  The interval reported for a category always contains the
    probability reported for it: lower <= p_k <= upper, for every category
    of every result.  The same holds for [normalApproxCI] of the earlier
    demo on a share [p] in [[0, 1]] and a positive count [m]; for a count
    [m <= 0] it holds only when [p] is 0, the interval being [(0, 0)]. *)
Theorem interval_contains_reported_share
  (rng : nat -> Q) (evidence : list EvidenceItem) (q : string) (n : nat)
  (p : Q) (m : Z) :
  (0 <= p)%Q -> (p <= 1)%Q -> (0 < m)%Z ->
  Forall
    (fun v => forall k,
       (fst (interval_of k (credible_intervals_95 v)) <= Q2R (prob_of k v))%R /\
       (Q2R (prob_of k v) <= snd (interval_of k (credible_intervals_95 v)))%R)
    (verdicts_of (emitted (mockSimulation rng evidence q n))) /\
  (fst (Demo.normalApproxCI p m) <= Q2R p)%R /\
  (Q2R p <= snd (Demo.normalApproxCI p m))%R.
Proof.
  intros Hp0 Hp1 Hm. split.
  - rewrite mockSimulation_after, verdicts_after.
    destruct (NUM_ITER <=? Nat.min n NUM_ITER) eqn:E; [| constructor].
    constructor; [| constructor].
    intro k.
    assert (Hne : ballots_upto rng evidence (Nat.min n NUM_ITER) <> []).
    { apply ballots_upto_nonempty. apply Nat.leb_le in E.
      unfold NUM_ITER in E |- *. lia. }
    destruct (share_bounds k _ Hne) as [H0 H1].
    assert (Hi : interval_of k (credible_intervals_95
                   (verdict_of q (ballots_upto rng evidence (Nat.min n NUM_ITER))))
                 = normal_interval
                     (share k (ballots_upto rng evidence (Nat.min n NUM_ITER)))
                     (length (ballots_upto rng evidence (Nat.min n NUM_ITER))))
      by (destruct k; reflexivity).
    assert (Hq : prob_of k (verdict_of q
                   (ballots_upto rng evidence (Nat.min n NUM_ITER)))
                 = share k (ballots_upto rng evidence (Nat.min n NUM_ITER)))
      by (destruct k; reflexivity).
    rewrite Hi, Hq. unfold normal_interval. cbn [fst snd].
    apply clamped_pair_contains.
    + apply Q2R_unit; assumption.
    + apply Rmult_le_pos; [lra | apply sqrt_pos].
  - unfold Demo.normalApproxCI.
    replace (m <=? 0)%Z with false by (symmetry; apply Z.leb_gt; exact Hm).
    cbn [fst snd]. apply clamped_pair_contains.
    + apply Q2R_unit; assumption.
    + apply Rmult_le_pos; [lra | apply sqrt_pos].
Qed.

(** X20: the hypotheses are met by the share 1/2 and the count 10. *)
Lemma interval_contains_reported_share_witness :
  (fst (Demo.normalApproxCI (1 # 2) 10) <= Q2R (1 # 2))%R /\
  (Q2R (1 # 2) <= snd (Demo.normalApproxCI (1 # 2) 10))%R.
Proof.
  assert (H0 : (0 <= 1 # 2)%Q) by (unfold Qle; simpl; lia).
  assert (H1 : (1 # 2 <= 1)%Q) by (unfold Qle; simpl; lia).
  assert (Hm : (0 < 10)%Z) by lia.
  exact (proj2 (interval_contains_reported_share
                  rng_zero no_evidence a_question 5 (1 # 2) 10 H0 H1 Hm)).
Defined.

Lemma StronglySorted_app {A : Type} (R : A -> A -> Prop) (l1 l2 : list A) :
  StronglySorted R l1 -> StronglySorted R l2 ->
  (forall a b, In a l1 -> In b l2 -> R a b) ->
  StronglySorted R (l1 ++ l2).
Proof.
  intros H1 H2 H. induction H1 as [| x l Hs IH Hall]; [exact H2 |].
  simpl. constructor.
  - apply IH. intros a b Ha Hb. apply H; [right; exact Ha | exact Hb].
  - apply Forall_app. split; [exact Hall |].
    apply Forall_forall. intros b Hb. apply H; [left; reflexivity | exact Hb].
Qed.

Lemma StronglySorted_constant {A : Type} (R : A -> A -> Prop) (l : list A) :
  (forall a b, In a l -> In b l -> R a b) -> StronglySorted R l.
Proof.
  induction l as [| x l IH]; intro H; [constructor |].
  constructor.
  - apply IH. intros a b Ha Hb. apply H; right; assumption.
  - apply Forall_forall. intros b Hb. apply H; [left; reflexivity | right; exact Hb].
Qed.

Lemma ballots_upto_iterations rng evidence (t : nat) :
  Forall (fun b => 1 <= iteration b <= t) (ballots_upto rng evidence t).
Proof.
  induction t as [| t IH]; [constructor |].
  rewrite ballots_upto_S. apply Forall_app. split.
  - eapply Forall_impl; [| exact IH]. intros b Hb. simpl in Hb. lia.
  - eapply Forall_impl; [| apply new_ballots_iteration].
    intros b Hb. simpl in Hb. lia.
Qed.

Lemma ballots_upto_sorted rng evidence (t : nat) :
  StronglySorted (fun a b => iteration a <= iteration b)
    (ballots_upto rng evidence t).
Proof.
  induction t as [| t IH]; [constructor |].
  rewrite ballots_upto_S. apply StronglySorted_app; [exact IH | |].
  - apply StronglySorted_constant. intros a b Ha Hb.
    pose proof (new_ballots_iteration rng evidence (S t) (15 * t) COMMITTEE) as H.
    rewrite Forall_forall in H. rewrite (H a Ha), (H b Hb). lia.
  - intros a b Ha Hb.
    pose proof (ballots_upto_iterations rng evidence t) as H1.
    pose proof (new_ballots_iteration rng evidence (S t) (15 * t) COMMITTEE) as H2.
    rewrite Forall_forall in H1, H2.
    specialize (H1 a Ha). rewrite (H2 b Hb). lia.
Qed.

(** X21.  The ballot list of a run is ordered by iteration: no ballot
    comes before a ballot of an earlier iteration, and every ballot
    belongs to one of the iterations completed so far.  Each ballot takes
    exactly five values of [Math.random], so 15 are taken per iteration
    and 75 by a complete run. *)
Theorem ballots_ordered_by_iteration
  (rng : nat -> Q) (evidence : list EvidenceItem) (q : string) (n : nat) :
  StronglySorted (fun a b => iteration a <= iteration b)
    (allBallots (mockSimulation rng evidence q n)) /\
  Forall (fun b => 1 <= iteration b <= iter (mockSimulation rng evidence q n))
    (allBallots (mockSimulation rng evidence q n)) /\
  consumed (mockSimulation rng evidence q n)
  = 5 * length (allBallots (mockSimulation rng evidence q n)) /\
  consumed (mockSimulation rng evidence q n) <= 75.
Proof.
  rewrite mockSimulation_after. cbn [after allBallots iter consumed].
  split; [apply ballots_upto_sorted |].
  split; [apply ballots_upto_iterations |].
  rewrite ballots_upto_length. unfold COMMITTEE, NUM_ITER. lia.
Qed.
